(** * Action execution and orchestration engine of the coding agent

    A shallow embedding of the safety-constrained tool adapters
    ([tools/fs.py], [tools/shell.py]), the approval gate
    ([agent/approvals.py]), the executor ([agent/executor.py]) and the
    observe / reflect loop ([agent/core.py]), followed by the properties
    the specification states about them.

    Modelling conventions.
    - A Python [str] is the list of its Unicode code points ([list N]);
      the literals of the source are ASCII and are written [py "..."].
      Lone surrogates, which cannot be encoded, are outside the model:
      every text handed to the adapters is taken to be encodable, so
      that the encoder never fails.  Nothing is claimed of a write that
      the encoder interrupts.
    - The file system is a finite map from canonical absolute paths
      (the list of components below [/]) to nodes.  It has no symbolic
      links, no permissions and no limits on name length, so that
      [Path.resolve] is lexical normalisation.  Text files store what
      [write_text] wrote; [read_text] decodes with universal newlines, as
      Python's text mode does.
    - What the source obtains from outside the repository (the
      subprocess, the regular-expression engine, [difflib], the clock,
      the planner, the reflector, the verifier) is a [Variable] of the
      section that uses it.
    - An exception is a value of [pyexc]; a function that can raise
      returns a sum. *)

From Stdlib Require Import ZArith QArith Ascii String List Lia.
From stdpp Require Import base list gmap sorting.

Set Default Proof Using "Type".

(** ** Python strings *)

Module PyStr.

Definition str := list N.

(** An ASCII literal of the source as a Python string. *)
Definition py (s : string) : str :=
  List.map N_of_ascii (list_ascii_of_string s).

Definition LF : N := 10.
Definition CR : N := 13.
Definition NUL : N := 0.
Definition SLASH : N := 47.

(** [str.splitlines] boundaries: LF, VT, FF, CR, FS, GS, RS, NEL, LS, PS. *)
Definition is_linebreak (c : N) : bool :=
  (c =? 10)%N || (c =? 11)%N || (c =? 12)%N || (c =? 13)%N ||
  (c =? 28)%N || (c =? 29)%N || (c =? 30)%N || (c =? 133)%N ||
  (c =? 8232)%N || (c =? 8233)%N.

(** [str.isspace] for one code point, the set [str.strip] and
    [str.split] without argument use. *)
Definition is_space (c : N) : bool :=
  ((9 <=? c)%N && (c <=? 13)%N) || ((28 <=? c)%N && (c <=? 32)%N) ||
  (c =? 133)%N || (c =? 160)%N || (c =? 5760)%N ||
  ((8192 <=? c)%N && (c <=? 8202)%N) || (c =? 8232)%N || (c =? 8233)%N ||
  (c =? 8239)%N || (c =? 8287)%N || (c =? 12288)%N.

(** [s.splitlines(keepends=True)]; [cur] is the line being read, reversed. *)
Fixpoint splitlines_from (cur : str) (s : str) : list str :=
  match s with
  | [] => match cur with [] => [] | _ => [rev cur] end
  | c :: rest =>
      if (c =? CR)%N then
        match rest with
        | d :: rest' =>
            if (d =? LF)%N then rev (d :: c :: cur) :: splitlines_from [] rest'
            else rev (c :: cur) :: splitlines_from [] rest
        | [] => [rev (c :: cur)]
        end
      else if is_linebreak c then rev (c :: cur) :: splitlines_from [] rest
      else splitlines_from (c :: cur) rest
  end.

Definition splitlines (s : str) : list str := splitlines_from [] s.

(** Universal-newlines decoding of text mode: CR LF and a lone CR both
    read as LF. *)
Fixpoint universal_newlines (s : str) : str :=
  match s with
  | [] => []
  | c :: rest =>
      if (c =? CR)%N then
        match rest with
        | d :: rest' =>
            if (d =? LF)%N then LF :: universal_newlines rest'
            else LF :: universal_newlines rest
        | [] => [LF]
        end
      else c :: universal_newlines rest
  end.

(** [s.endswith("\n")]. *)
Definition endswith_nl (s : str) : bool :=
  match last s with Some c => (c =? LF)%N | None => false end.

(** [p] is a prefix of [s]. *)
Fixpoint startswith (p s : str) : bool :=
  match p, s with
  | [], _ => true
  | a :: p', b :: s' => (a =? b)%N && startswith p' s'
  | _ :: _, [] => false
  end.

(** [sub in s]. *)
Fixpoint contains (sub s : str) : bool :=
  startswith sub s ||
  match s with [] => false | _ :: s' => contains sub s' end.

(** [s.replace(old, new, 1)]. *)
Fixpoint replace_first (old new s : str) : str :=
  if startswith old s then new ++ drop (length old) s
  else match s with [] => [] | c :: s' => c :: replace_first old new s' end.

(** [s.lower()] on the ASCII letters.  The markers the classifier looks
    for are ASCII, and no code point outside ASCII lowers to a string
    that completes one of them. *)
Definition lower_char (c : N) : N :=
  if (65 <=? c)%N && (c <=? 90)%N then (c + 32)%N else c.
Definition lower (s : str) : str := List.map lower_char s.

(** [s.split(sep)] for a separator of one character. *)
Fixpoint split_from (sep : N) (cur : str) (s : str) : list str :=
  match s with
  | [] => [rev cur]
  | c :: rest =>
      if (c =? sep)%N then rev cur :: split_from sep [] rest
      else split_from sep (c :: cur) rest
  end.
Definition split_on (sep : N) (s : str) : list str := split_from sep [] s.

(** [s.split()]: the maximal runs of characters that are not white space. *)
Fixpoint split_ws_from (cur : str) (s : str) : list str :=
  match s with
  | [] => match cur with [] => [] | _ => [rev cur] end
  | c :: rest =>
      if is_space c then
        match cur with
        | [] => split_ws_from [] rest
        | _ => rev cur :: split_ws_from [] rest
        end
      else split_ws_from (c :: cur) rest
  end.
Definition split_ws (s : str) : list str := split_ws_from [] s.

Fixpoint lstrip (s : str) : str :=
  match s with
  | c :: rest => if is_space c then lstrip rest else s
  | [] => []
  end.
Definition strip (s : str) : str := rev (lstrip (rev (lstrip s))).

(** [sep.join(parts)]. *)
Fixpoint join (sep : str) (parts : list str) : str :=
  match parts with
  | [] => []
  | [x] => x
  | x :: rest => x ++ sep ++ join sep rest
  end.

(** [len(s.encode("utf-8"))]. *)
Definition utf8_width (c : N) : Z :=
  if (c <? 128)%N then 1 else if (c <? 2048)%N then 2
  else if (c <? 65536)%N then 3 else 4.
Definition utf8_len (s : str) : Z := fold_right (fun c n => utf8_width c + n)%Z 0%Z s.

(** Decimal rendering of integers, as [str(n)] and [f"{n}"] give it. *)
Definition digit (d : N) : N := (48 + d)%N.
Fixpoint digits_fuel (fuel : nat) (n : N) (acc : str) : str :=
  match fuel with
  | O => acc
  | S f =>
      if (n <? 10)%N then digit n :: acc
      else digits_fuel f (n / 10)%N (digit (n mod 10)%N :: acc)
  end.
Definition str_of_N (n : N) : str := digits_fuel (S (N.to_nat (N.log2 n))) n [].
Definition str_of_Z (z : Z) : str :=
  match z with
  | Zneg p => 45%N :: str_of_N (Npos p)
  | _ => str_of_N (Z.to_N z)
  end.
Definition str_of_nat (n : nat) : str := str_of_N (N.of_nat n).

(** Lexicographic order on code points, the order of [sorted] on strings. *)
Fixpoint str_leb (a b : str) : bool :=
  match a, b with
  | [], _ => true
  | _ :: _, [] => false
  | x :: a', y :: b' => (x <? y)%N || ((x =? y)%N && str_leb a' b')
  end.

End PyStr.

Import PyStr.

(** ** The file-system adapter ([tools/fs.py]) *)

Module Fs.

(** Exceptions the adapter can meet; [exc_str] is [str(e)]. *)
Inductive pyexc :=
| ValueError (msg : str)
| IndexError (msg : str)
| ShutilError (msg : str)
| FileNotFoundError (p : list str)
| FileExistsError (p : list str)
| IsADirectoryError (p : list str)
| NotADirectoryError (p : list str).

(** [str(full_path)] for a canonical absolute path. *)
Definition render (p : list str) : str := SLASH :: join [SLASH] p.

Definition os_error (text : string) (p : list str) : str :=
  py text ++ py ": '" ++ render p ++ py "'".

Definition exc_str (e : pyexc) : str :=
  match e with
  | ValueError msg | IndexError msg | ShutilError msg => msg
  | FileNotFoundError p => os_error "[Errno 2] No such file or directory" p
  | FileExistsError p => os_error "[Errno 17] File exists" p
  | IsADirectoryError p => os_error "[Errno 21] Is a directory" p
  | NotADirectoryError p => os_error "[Errno 20] Not a directory" p
  end.

(** *** Paths *)

(** [Path(path).is_absolute()]. *)
Definition is_absolute (path : str) : bool :=
  match path with c :: _ => (c =? SLASH)%N | [] => false end.

(** The components pathlib keeps: empty ones and [.] are dropped. *)
Definition parts (path : str) : list str :=
  filter (λ c, c ≠ [] ∧ c ≠ py ".") (split_on SLASH path).

(** Removing [..] components; [stack] is the path so far, reversed. *)
Fixpoint normalise (stack : list str) (comps : list str) : list str :=
  match comps with
  | [] => rev stack
  | c :: rest =>
      if decide (c = py "..") then normalise (tail stack) rest
      else normalise (c :: stack) rest
  end.

(** [(repo_root / path).resolve()]: an absolute [path] replaces the root.
    [os.path.realpath] rebuilds the path from a single [/], so that a
    root of two slashes resolves like one of one. *)
Definition resolve (repo_root : list str) (path : str) : list str :=
  normalise [] ((if is_absolute path then [] else repo_root) ++ parts path).

(** [q.relative_to(root)] does not raise: [root] is a prefix of [q]. *)
Fixpoint under (root q : list str) : bool :=
  match root, q with
  | [], _ => true
  | r :: root', c :: q' => bool_decide (r = c) && under root' q'
  | _ :: _, [] => false
  end.

Record FileSystemTool := {
  repo_root : list str;   (* resolved *)
  max_file_size : Z
}.

Definition trash_dir (self : FileSystemTool) : list str :=
  repo_root self ++ [py ".agent_trash"].

(** [_validate_path].  [resolve] raises on an embedded NUL before
    anything else is looked at. *)
Definition validate_path (self : FileSystemTool) (path : str)
  : pyexc + list str :=
  if bool_decide (NUL ∈ path) then inl (ValueError (py "embedded null byte"))
  else
    let full_path := resolve (repo_root self) path in
    if negb (under (repo_root self) full_path) then
      inl (ValueError (py "Path " ++ path ++ py " is outside repository root"))
    else if is_absolute path then
      inl (ValueError (py "Absolute paths not allowed: " ++ path))
    else inr full_path.

(** *** The file system *)

Inductive node := File (data : str) | Dir.

Abbreviation filesystem := (gmap (list (list N)) node).

(** The root [/] is a directory of every file system. *)
Definition node_at (fs : filesystem) (p : list str) : option node :=
  match p with [] => Some Dir | _ => fs !! p end.

Definition exists_ (fs : filesystem) (p : list str) : bool :=
  match node_at fs p with Some _ => true | None => false end.
Definition is_file (fs : filesystem) (p : list str) : bool :=
  match node_at fs p with Some (File _) => true | _ => false end.
Definition is_dir (fs : filesystem) (p : list str) : bool :=
  match node_at fs p with Some Dir => true | _ => false end.

(** [p.parent] and [p.name]. *)
Definition parent (p : list str) : list str := removelast p.
Definition name (p : list str) : str := default [] (last p).

(** [p.stat().st_size] of a regular file: its encoded length. *)
Definition st_size (fs : filesystem) (p : list str) : Z :=
  match node_at fs p with Some (File d) => utf8_len d | _ => 4096 end.

(** [p.read_text(encoding="utf-8")]. *)
Definition read_text (fs : filesystem) (p : list str) : pyexc + str :=
  match node_at fs p with
  | Some (File d) => inr (universal_newlines d)
  | Some Dir => inl (IsADirectoryError p)
  | None => inl (FileNotFoundError p)
  end.

(** Creating an entry below [parent p], as [open(p, "w")] and [os.mkdir]
    need it. *)
Definition create (fs : filesystem) (p : list str) (n : node)
  : pyexc + filesystem :=
  match node_at fs (parent p) with
  | Some Dir => inr (<[p := n]> fs)
  | Some (File _) => inl (NotADirectoryError p)
  | None => inl (FileNotFoundError p)
  end.

(** [p.write_text(content, encoding="utf-8")], for encodable [content]:
    once the file is open the write succeeds. *)
Definition write_text (fs : filesystem) (p : list str) (content : str)
  : pyexc + filesystem :=
  match node_at fs p with
  | Some Dir => inl (IsADirectoryError p)
  | Some (File _) => inr (<[p := File content]> fs)
  | None => create fs p (File content)
  end.

(** [p.mkdir(exist_ok=True)]. *)
Definition mkdir (fs : filesystem) (p : list str) : pyexc + filesystem :=
  match node_at fs p with
  | Some Dir => inr fs
  | Some (File _) => inl (FileExistsError p)
  | None => create fs p Dir
  end.

(** [p.mkdir(parents=True, exist_ok=True)], from the top down; [done]
    is the prefix already known to be a directory. *)
Fixpoint mkdir_chain (target : list str) (fs : filesystem)
    (done todo : list str) : pyexc + filesystem :=
  match todo with
  | [] => inr fs
  | c :: rest =>
      let q := done ++ [c] in
      match fs !! q with
      | None => mkdir_chain target (<[q := Dir]> fs) q rest
      | Some Dir => mkdir_chain target fs q rest
      | Some (File _) =>
          inl (match rest with
               | [] => FileExistsError target
               | _ => NotADirectoryError target
               end)
      end
  end.
Definition mkdir_parents (fs : filesystem) (p : list str)
  : pyexc + filesystem := mkdir_chain p fs [] p.

(** The names below a directory, [p.iterdir()]. *)
Definition iterdir (fs : filesystem) (p : list str) : list str :=
  name <$> filter (λ k, k ≠ [] ∧ parent k = p) (fst <$> map_to_list fs).

(** Moving the subtree at [src] to [dst], which is free or a file. *)
Definition rekey (src dst : list str) (kv : list str * node)
  : list str * node :=
  if under src kv.1 then (dst ++ drop (length src) kv.1, kv.2) else kv.
Definition rename_tree (fs : filesystem) (src dst : list str) : filesystem :=
  list_to_map (rekey src dst <$> map_to_list (delete dst fs)).

(** [shutil.move(src, dst)] for an existing [src]. *)
Definition shutil_move (fs : filesystem) (src dst : list str)
  : pyexc + filesystem :=
  let real_dst := if is_dir fs dst then dst ++ [name src] else dst in
  if is_dir fs dst && exists_ fs real_dst then
    inl (ShutilError (py "Destination path '" ++ render real_dst
                        ++ py "' already exists"))
  else if is_dir fs src then
    if under src real_dst then
      inl (ShutilError (py "Cannot move a directory '" ++ render src
                          ++ py "' into itself '" ++ render dst ++ py "'."))
    else if is_file fs real_dst then inl (FileExistsError real_dst)
    else inr (rename_tree fs src real_dst)
  else inr (rename_tree fs src real_dst).

(** *** Results *)

Record FileOperation := {
  success : bool;
  message : str;
  diff : option str;
  path : option str;
  data : option str
}.

Definition failed (msg : str) (p : option str) : FileOperation :=
  {| success := false; message := msg; diff := None; path := p; data := None |}.

(** *** Operations *)

Section Operations.

(** [difflib.unified_diff(old_lines, new_lines, fromfile, tofile)]. *)
Variable unified_diff : list str -> list str -> str -> str -> list str.

Variable self : FileSystemTool.

(** [_generate_diff]. *)
Definition generate_diff (old_content new_content filename : str) : str :=
  let old_lines := splitlines old_content in
  let new_lines := splitlines new_content in
  concat (unified_diff old_lines new_lines
            (py "a/" ++ filename) (py "b/" ++ filename)).

Definition read (fs : filesystem) (path : str) : FileOperation :=
  let error e := failed (py "Error reading " ++ path ++ py ": " ++ exc_str e) None in
  match validate_path self path with
  | inl e => error e
  | inr full_path =>
      let at_path := Some (render full_path) in
      if negb (exists_ fs full_path) then
        failed (py "File not found: " ++ path) at_path
      else if negb (is_file fs full_path) then
        failed (py "Not a file: " ++ path) at_path
      else if (max_file_size self <? st_size fs full_path)%Z then
        failed (py "File too large: " ++ path ++ py " (max "
                  ++ str_of_Z (max_file_size self) ++ py " bytes)") at_path
      else
        match read_text fs full_path with
        | inl e => error e
        | inr content =>
            {| success := true;
               message := py "Read " ++ str_of_nat (length content) ++ py " bytes";
               diff := None; path := at_path; data := Some content |}
        end
  end.

Definition write (fs : filesystem) (path content : str)
  : FileOperation * filesystem :=
  let error e fs' :=
    (failed (py "Error writing " ++ path ++ py ": " ++ exc_str e) None, fs') in
  match validate_path self path with
  | inl e => error e fs
  | inr full_path =>
      let at_path := Some (render full_path) in
      if (max_file_size self <? utf8_len content)%Z then
        (failed (py "Content too large for " ++ path) at_path, fs)
      else
        match mkdir_parents fs (parent full_path) with
        | inl e => error e fs
        | inr fs1 =>
            match (if exists_ fs1 full_path then read_text fs1 full_path
                   else inr []) with
            | inl e => error e fs1
            | inr old_content =>
                match write_text fs1 full_path content with
                | inl e => error e fs1
                | inr fs2 =>
                    let diff := generate_diff old_content content path in
                    let action :=
                      match old_content with [] => py "Created" | _ => py "Updated" end in
                    ({| success := true;
                        message := action ++ py " " ++ path ++ py " ("
                                     ++ str_of_nat (length content) ++ py " bytes)";
                        diff := Some diff; path := at_path; data := None |}, fs2)
                end
            end
        end
  end.

Definition edit (fs : filesystem) (path old_text new_text : str)
  : FileOperation * filesystem :=
  let error e :=
    (failed (py "Error editing " ++ path ++ py ": " ++ exc_str e) None, fs) in
  match validate_path self path with
  | inl e => error e
  | inr full_path =>
      let at_path := Some (render full_path) in
      if negb (exists_ fs full_path) then
        (failed (py "File not found: " ++ path) at_path, fs)
      else
        match read_text fs full_path with
        | inl e => error e
        | inr content =>
            if negb (contains old_text content) then
              (failed (py "Text not found in " ++ path
                         ++ py ". Cannot apply edit.") at_path, fs)
            else
              let new_content := replace_first old_text new_text content in
              match write_text fs full_path new_content with
              | inl e => error e
              | inr fs' =>
                  let diff := generate_diff content new_content path in
                  ({| success := true; message := py "Edited " ++ path;
                      diff := Some diff; path := at_path; data := None |}, fs')
              end
        end
  end.

(** [lines[-1] += "\n"] when the file does not end with a newline. *)
Definition terminate_last (lines : list str) : list str :=
  match last lines with
  | Some l => if endswith_nl l then lines else removelast lines ++ [l ++ [LF]]
  | None => lines
  end.

(** [content += "\n"] when [content] is not empty and lacks it. *)
Definition terminate_content (content : str) : str :=
  match content with
  | [] => []
  | _ => if endswith_nl content then content else content ++ [LF]
  end.

(** [lines.insert(i, x)] for [0 <= i]: beyond the end it appends. *)
Definition list_insert_at {A} (i : nat) (x : A) (l : list A) : list A :=
  take i l ++ x :: drop i l.

(** [lines[i] = x], which raises beyond the end. *)
Definition list_assign {A} (i : nat) (x : A) (l : list A) : pyexc + list A :=
  if (i <? length l)%nat then inr (<[i := x]> l)
  else inl (IndexError (py "list assignment index out of range")).

Definition insert_lines (fs : filesystem) (path : str) (line_number : Z)
    (content operation : str) : FileOperation * filesystem :=
  let error e :=
    (failed (py "Error inserting in " ++ path ++ py ": " ++ exc_str e) None, fs) in
  match validate_path self path with
  | inl e => error e
  | inr full_path =>
      let at_path := Some (render full_path) in
      if negb (exists_ fs full_path) then
        (failed (py "File not found: " ++ path) at_path, fs)
      else
        match read_text fs full_path with
        | inl e => error e
        | inr text =>
            let lines := terminate_last (splitlines text) in
            if ((line_number <? 1) || (Z.of_nat (length lines) + 1 <? line_number))%Z
            then
              (failed (py "Line number " ++ str_of_Z line_number
                         ++ py " out of range (file has "
                         ++ str_of_nat (length lines) ++ py " lines)") at_path, fs)
            else
              let old_content := concat lines in
              let content := terminate_content content in
              let edited : option (pyexc + list str) :=
                if bool_decide (operation = py "after") then
                  Some (inr (list_insert_at (Z.to_nat line_number) content lines))
                else if bool_decide (operation = py "before") then
                  Some (inr (list_insert_at (Z.to_nat (line_number - 1)) content lines))
                else if bool_decide (operation = py "replace") then
                  Some (list_assign (Z.to_nat (line_number - 1)) content lines)
                else None in
              match edited with
              | None =>
                  (failed (py "Invalid operation: " ++ operation
                             ++ py ". Must be 'after', 'before', or 'replace'")
                          at_path, fs)
              | Some (inl e) => error e
              | Some (inr lines') =>
                  let new_content := concat lines' in
                  match write_text fs full_path new_content with
                  | inl e => error e
                  | inr fs' =>
                      let diff := generate_diff old_content new_content path in
                      ({| success := true;
                          message := py "Inserted at line " ++ str_of_Z line_number
                                       ++ py " in " ++ path;
                          diff := Some diff; path := at_path; data := None |}, fs')
                  end
              end
        end
  end.

(** [delete]; [timestamp] is [int(time.time())]. *)
Definition delete (timestamp : Z) (fs : filesystem) (path : str)
  : FileOperation * filesystem :=
  let error e fs' :=
    (failed (py "Error deleting " ++ path ++ py ": " ++ exc_str e) None, fs') in
  match validate_path self path with
  | inl e => error e fs
  | inr full_path =>
      let at_path := Some (render full_path) in
      if negb (exists_ fs full_path) then
        (failed (py "File not found: " ++ path) at_path, fs)
      else
        match mkdir fs (trash_dir self) with
        | inl e => error e fs
        | inr fs1 =>
            let trash_path :=
              trash_dir self ++ [str_of_Z timestamp ++ py "_" ++ name full_path] in
            match shutil_move fs1 full_path trash_path with
            | inl e => error e fs1
            | inr fs2 =>
                ({| success := true;
                    message := py "Deleted " ++ path ++ py " (moved to "
                                 ++ render trash_path ++ py ")";
                    diff := None; path := at_path; data := None |}, fs2)
            end
        end
  end.

Definition list_directory (fs : filesystem) (path : str) : FileOperation :=
  match validate_path self path with
  | inl e => failed (py "Error listing " ++ path ++ py ": " ++ exc_str e) None
  | inr full_path =>
      let at_path := Some (render full_path) in
      if negb (exists_ fs full_path) then
        failed (py "Directory not found: " ++ path) at_path
      else if negb (is_dir fs full_path) then
        failed (py "Not a directory: " ++ path) at_path
      else
        let items := merge_sort (λ a b, Is_true (str_leb a b)) (iterdir fs full_path) in
        {| success := true;
           message := py "Found " ++ str_of_nat (length items) ++ py " items";
           diff := None; path := at_path; data := None |}
  end.

End Operations.

End Fs.

(** ** The shell adapter ([tools/shell.py]) *)

Module Shell.

Record ShellResult := {
  success : bool;
  command : str;
  stdout : str;
  stderr : str;
  exit_code : Z;
  message : str
}.

Record ShellTool := {
  repo_root : list str;
  allowlist : list str;
  max_timeout : Z
}.

(** What [subprocess.run(..., timeout=t)] does: it completes, the timeout
    expires, or it raises something else. *)
Inductive outcome :=
| Completed (returncode : Z) (out err : str)
| TimeoutExpired
| Raised (e : str).

(** [command_stripped.split()[0] if command_stripped else ""]. *)
Definition first_word (command : str) : str :=
  let command_stripped := strip command in
  match command_stripped with
  | [] => []
  | _ => default [] (head (split_ws command_stripped))
  end.

(** [first_word.split("/")[-1]]. *)
Definition base_command (command : str) : str :=
  default [] (last (split_on SLASH (first_word command))).

Definition dangerous_patterns : list (str * str) :=
  [ (py "\brm\s+-rf\s+/", py "Dangerous recursive delete");
    (py "curl.*\|.*bash", py "Piping curl to bash");
    (py "wget.*\|.*bash", py "Piping wget to bash");
    (py "\bsudo\b", py "Sudo not allowed");
    (py ">\s*/dev/", py "Writing to /dev/ not allowed") ].

(** [timeout if timeout is not None else self.max_timeout]. *)
Definition actual_timeout (self : ShellTool) (timeout : option Z) : Z :=
  match timeout with Some t => t | None => max_timeout self end.

Definition rejected (command msg : str) : ShellResult :=
  {| success := false; command := command; stdout := []; stderr := [];
     exit_code := -1; message := msg |}.

Section Run.

(** The world the subprocess runs in. *)
Variable W : Type.

(** [re.search(pattern, s)] finds a match. *)
Variable re_search : str -> str -> bool.

(** [subprocess.run(command, shell=True, cwd=cwd, timeout=t)]. *)
Variable subprocess_run : str -> list str -> Z -> W -> outcome * W.

Variable self : ShellTool.

(** The first pattern of the table that matches, with its reason. *)
Fixpoint first_match (patterns : list (str * str)) (command : str) : option str :=
  match patterns with
  | [] => None
  | (pattern, reason) :: rest =>
      if re_search pattern command then Some reason
      else first_match rest command
  end.

(** [_validate_command]: the error message, or [None]. *)
Definition validate_command (command : str) : option str :=
  let base_command := base_command command in
  if negb (bool_decide (base_command ∈ allowlist self)) then
    Some (py "Command '" ++ base_command ++ py "' not in allowlist")
  else first_match dangerous_patterns command.

Definition run (command : str) (timeout : option Z) (w : W) : ShellResult * W :=
  match validate_command command with
  | Some ((_ :: _) as validation_error) =>
      (rejected command (py "Command rejected: " ++ validation_error), w)
  | _ =>
      let actual_timeout := actual_timeout self timeout in
      match subprocess_run command (repo_root self) actual_timeout w with
      | (Completed returncode out err, w') =>
          let success := (returncode =? 0)%Z in
          ({| success := success; command := command; stdout := out;
              stderr := err; exit_code := returncode;
              message := if success then py "Command executed successfully"
                         else py "Command failed" |}, w')
      | (TimeoutExpired, w') =>
          (rejected command (py "Command timed out after "
                               ++ str_of_Z actual_timeout ++ py "s"), w')
      | (Raised e, w') =>
          (rejected command (py "Error executing command: " ++ e), w')
      end
  end.

End Run.

End Shell.

(** ** Plans and actions ([llm/schemas.py]) *)

Module Schemas.

Inductive ActionType :=
| FS_WRITE | FS_EDIT | FS_INSERT_LINES | FS_DELETE
| SHELL_RUN | DEPS_INSTALL | GIT_CHECKOUT.

#[global] Instance ActionType_eq_dec : EqDecision ActionType.
Proof. solve_decision. Defined.

(** [action.type.value]. *)
Definition value (t : ActionType) : str :=
  match t with
  | FS_WRITE => py "fs_write"
  | FS_EDIT => py "fs_edit"
  | FS_INSERT_LINES => py "fs_insert_lines"
  | FS_DELETE => py "fs_delete"
  | SHELL_RUN => py "shell_run"
  | DEPS_INSTALL => py "deps_install"
  | GIT_CHECKOUT => py "git_checkout"
  end.

(** A key of [args] that some reader looks up with a default: the key is
    absent, bound to [None], or bound to a value. *)
Inductive arg (A : Type) :=
| Absent
| Null
| Bound (a : A).
Arguments Absent {A}.
Arguments Null {A}.
Arguments Bound {A} a.

(** [args.get(key)]: [None] for an absent key and for one bound to
    [None]. *)
Definition get {A} (a : arg A) : option A :=
  match a with Bound a => Some a | _ => None end.

(** [args.get(key, d)]: the default stands in for an absent key only; a
    key bound to [None] gives [None]. *)
Definition get_or {A} (a : arg A) (d : A) : option A :=
  match a with Absent => Some d | Null => None | Bound a => Some a end.

(** The [args] dictionary, restricted to the keys the engine reads, each
    at the type its adapter expects.  For a key that is only ever read
    with [args.get(key)], [None] is a key that is absent or bound to
    [None]; the keys that are read with a default somewhere ([operation],
    [command], [create]) keep the two apart. *)
Record Args := {
  path : option str;
  content : option str;
  old_text : option str;
  new_text : option str;
  line_number : option Z;
  operation : arg str;
  command : arg str;
  timeout : option Z;
  language : option str;
  packages : option (list str);
  branch : option str;
  create : arg bool
}.

Definition no_args : Args :=
  {| path := None; content := None; old_text := None; new_text := None;
     line_number := None; operation := Absent; command := Absent;
     timeout := None; language := None; packages := None; branch := None;
     create := Absent |}.

Record Action := {
  type : ActionType;
  rationale : str;
  args : Args;
  target_files : list str;
  risk_score : Q   (* between 0 and 1 *)
}.

Record Plan := {
  goal : str;
  steps : list Action;
  expected_outcome : str;
  rollback_hint : option str
}.

Record ReflectionResult := {
  analysis : str;
  fix_plan : Plan
}.

Record VerificationResult := {
  status : str;
  lint_errors : list str;
  type_errors : list str;
  failing_tests : list str;
  summary : str
}.

Record Observation := {
  action_type : str;
  success : bool;
  message : str;
  error_type : option str;
  affected_files : list str;
  diff : option str;
  can_retry : bool;
  context_update : list (str * option str)   (* the items of the dict *)
}.

End Schemas.

(** ** The approval gate ([agent/approvals.py]) *)

Module Approvals.

Import Schemas.

Record ApprovalDecision := {
  approved : bool;
  risk_score : Q;
  reason : str;
  requires_confirmation : bool
}.

Record ApprovalSystem := {
  auto_approve_max : Q;
  delete_file_max : Z;
  dangerous_patterns : list str
}.

Definition default_patterns : list str :=
  [py "\brm\s+-rf"; py "\bsudo\b"; py "curl.*\|.*bash"; py "wget.*\|.*bash"].

(** [__init__]: an absent or empty pattern list gives the defaults. *)
Definition init (auto_approve_max : Q) (delete_file_max : Z)
    (dangerous_patterns : option (list str)) : ApprovalSystem :=
  {| auto_approve_max := auto_approve_max;
     delete_file_max := delete_file_max;
     dangerous_patterns :=
       match dangerous_patterns with
       | Some ((_ :: _) as l) => l
       | _ => default_patterns
       end |}.

(** [a > b] on scores. *)
Definition Qgtb (a b : Q) : bool := negb (Qle_bool a b).

(** [max(...)] over a non-empty sequence keeps the first largest value. *)
Definition py_max (first : Q) (rest : list Q) : Q :=
  fold_left (fun m x => if Qgtb x m then x else m) rest first.

Definition Qsum (l : list Q) : Q := fold_left Qplus l 0%Q.

(** [f"{x:.2f}"]: two decimals, correctly rounded, ties to even. *)
Definition two_digits (n : Z) : str :=
  [digit (Z.to_N (n / 10)); digit (Z.to_N (n mod 10))].
Definition format_2f (x : Q) : str :=
  let n := Z.abs (Qnum x) in
  let d := Zpos (Qden x) in
  let q := (n * 100 / d)%Z in
  let r := (n * 100 mod d)%Z in
  let q' := if (d <? 2 * r)%Z then (q + 1)%Z
            else if (2 * r =? d)%Z then (if Z.odd q then q + 1 else q)%Z
            else q in
  (if (Qnum x <? 0)%Z then py "-" else []) ++
  str_of_Z (q' / 100) ++ py "." ++ two_digits (q' mod 100).

Section Assess.

(** [re.search(pattern, s, re.IGNORECASE)] finds a match. *)
Variable re_search_ignorecase : str -> str -> bool.

Variable self : ApprovalSystem.

(** The functions of this section return [None] when the source raises:
    the only exception is the [TypeError] of [re.search] on a command
    that is [None]. *)

(** [_is_dangerous_shell_cmd].  The patterns are searched in order up to
    the first match; on a command that is [None] the first search
    raises, and with no pattern nothing is searched. *)
Definition is_dangerous_shell_cmd (command : option str) : option bool :=
  match command with
  | Some command =>
      Some (existsb (fun pattern => re_search_ignorecase pattern command)
                    (dangerous_patterns self))
  | None =>
      match dangerous_patterns self with
      | [] => Some false
      | _ :: _ => None
      end
  end.

(** [_is_dangerous_shell]. *)
Definition is_dangerous_shell (action : Action) : option bool :=
  if negb (bool_decide (type action = SHELL_RUN)) then Some false
  else
    let command := get_or (Schemas.command (args action)) [] in
    is_dangerous_shell_cmd command.

(** [any(f(x) for x in l)]: the elements are tried in order up to the
    first for which [f] holds; an exception raised on the way ends the
    scan. *)
Fixpoint py_any {A} (f : A -> option bool) (l : list A) : option bool :=
  match l with
  | [] => Some false
  | x :: rest =>
      match f x with
      | None => None
      | Some true => Some true
      | Some false => py_any f rest
      end
  end.

Definition assess_plan (plan : Plan) : option ApprovalDecision :=
  match steps plan with
  | [] =>
      Some
      {| approved := false; risk_score := 0; reason := py "Plan has no steps";
         requires_confirmation := false |}
  | first :: rest =>
      let max_risk := py_max (Schemas.risk_score first)
                             (Schemas.risk_score <$> rest) in
      let avg_risk := (Qsum (Schemas.risk_score <$> steps plan)
                       / inject_Z (Z.of_nat (length (steps plan))))%Q in
      let delete_count :=
        Z.of_nat (length (filter (λ step, type step = FS_DELETE) (steps plan))) in
      match py_any is_dangerous_shell
                   (filter (λ step, type step = SHELL_RUN) (steps plan)) with
      | None => None
      | Some has_dangerous_shell =>
      let reasons :=
        (if Qgtb max_risk (auto_approve_max self)
         then [py "High risk action (score: " ++ format_2f max_risk ++ py ")"]
         else []) ++
        (if (delete_file_max self <? delete_count)%Z
         then [py "Too many file deletions (" ++ str_of_Z delete_count ++ py ")"]
         else []) ++
        (if has_dangerous_shell
         then [py "Dangerous shell command detected"] else []) in
      Some
      match reasons with
      | [] =>
          {| approved := true; risk_score := max_risk;
             reason := py "Low risk, auto-approved";
             requires_confirmation := false |}
      | _ =>
          {| approved := false; risk_score := max_risk;
             reason := join (py "; ") reasons;
             requires_confirmation := true |}
      end
      end
  end.

Definition assess_action (action : Action) : option ApprovalDecision :=
  let risk := Schemas.risk_score action in
  if bool_decide (type action = FS_DELETE) then
    Some
    {| approved := Qle_bool risk (auto_approve_max self); risk_score := risk;
       reason := py "File deletion";
       requires_confirmation := Qgtb risk (auto_approve_max self) |}
  else
    let standard :=
      let approved := Qle_bool risk (auto_approve_max self) in
      {| approved := approved; risk_score := risk;
         reason := py "Standard risk assessment";
         requires_confirmation := negb approved |} in
    if bool_decide (type action = SHELL_RUN) then
      let command := get_or (Schemas.command (args action)) [] in
      match is_dangerous_shell_cmd command with
      | None => None
      | Some true =>
          Some
          {| approved := false;
             risk_score := if Qgtb (8 # 10) risk then (8 # 10)%Q else risk;
             reason := py "Dangerous shell command";
             requires_confirmation := true |}
      | Some false => Some standard
      end
    else Some standard.

End Assess.

End Approvals.

(** ** The executor ([agent/executor.py]) *)

Module Executor.

Import Schemas.

(** The [data] payload of a result. *)
Inductive payload :=
| NoData
| ArgsData (a : Args)
| PathData (path : str)
| PathLineData (path : str) (line_number : Z)
| ShellData (stdout stderr : str) (exit_code : Z)
| DepsData (stdout stderr : str)
| BranchData (branch : str).

Record ExecutionResult := {
  success : bool;
  message : str;
  diff : str;
  data : payload
}.

(** [DepsResult] and [GitResult] of the external tools. *)
Record DepsResult := {
  deps_success : bool; deps_message : str; deps_stdout : str; deps_stderr : str
}.
Record GitResult := { git_success : bool; git_message : str }.

Record Executor := {
  fs_tool : Fs.FileSystemTool;
  shell_tool : Shell.ShellTool
}.

Section Execute.

(** The world is the file system and everything else ([X]): processes,
    the clock, the package index, the git repository. *)
Variable X : Type.
Abbreviation world := (Fs.filesystem * X)%type.

Variable unified_diff : list str -> list str -> str -> str -> list str.
Variable re_search : str -> str -> bool.
Variable subprocess_run : str -> list str -> Z -> world -> Shell.outcome * world.
Variable deps_install : str -> list str -> world -> DepsResult * world.
Variable git_checkout : str -> bool -> world -> GitResult * world.
(** [int(time.time())]. *)
Variable clock : X -> Z.

Variable self : Executor.

Definition missing (msg : string) : ExecutionResult :=
  {| success := false; message := py msg; diff := []; data := NoData |}.

Definition of_file_operation (r : Fs.FileOperation) (d : payload)
  : ExecutionResult :=
  {| success := Fs.success r; message := Fs.message r;
     diff := default [] (Fs.diff r); data := d |}.

Definition dry_run (action : Action) : ExecutionResult :=
  {| success := true;
     message := py "[DRY RUN] Would execute " ++ value (type action)
                  ++ py ": " ++ rationale action;
     diff := []; data := ArgsData (args action) |}.

Definition execute_fs_write (action : Action) (w : world)
  : ExecutionResult * world :=
  match path (args action), content (args action) with
  | Some ((_ :: _) as path), Some content =>
      let (result, fs') := Fs.write unified_diff (fs_tool self) w.1 path content in
      (of_file_operation result (PathData path), (fs', w.2))
  | _, _ => (missing "Missing path or content", w)
  end.

Definition execute_fs_edit (action : Action) (w : world)
  : ExecutionResult * world :=
  match path (args action), old_text (args action), new_text (args action) with
  | Some ((_ :: _) as path), Some old_text, Some new_text =>
      let (result, fs') :=
        Fs.edit unified_diff (fs_tool self) w.1 path old_text new_text in
      (of_file_operation result (PathData path), (fs', w.2))
  | _, _, _ => (missing "Missing path, old_text, or new_text", w)
  end.

Definition execute_fs_insert_lines (action : Action) (w : world)
  : ExecutionResult * world :=
  (* An operation that is [None] is passed on; [insert_lines] only
     compares it with the three names and prints it, as [None]. *)
  let operation :=
    match operation (args action) with
    | Absent => py "after"
    | Null => py "None"
    | Bound operation => operation
    end in
  match path (args action), line_number (args action), content (args action) with
  | Some ((_ :: _) as path), Some line_number, Some content =>
      let (result, fs') :=
        Fs.insert_lines unified_diff (fs_tool self) w.1 path line_number
                        content operation in
      (of_file_operation result (PathLineData path line_number), (fs', w.2))
  | _, _, _ => (missing "Missing path, line_number, or content", w)
  end.

Definition execute_fs_delete (action : Action) (w : world)
  : ExecutionResult * world :=
  match path (args action) with
  | Some ((_ :: _) as path) =>
      let (result, fs') := Fs.delete (fs_tool self) (clock w.2) w.1 path in
      ({| success := Fs.success result; message := Fs.message result;
          diff := []; data := PathData path |}, (fs', w.2))
  | _ => (missing "Missing path", w)
  end.

Definition execute_shell_run (action : Action) (w : world)
  : ExecutionResult * world :=
  match get (command (args action)) with
  | Some ((_ :: _) as command) =>
      let (result, w') :=
        Shell.run world re_search subprocess_run (shell_tool self)
                  command (timeout (args action)) w in
      ({| success := Shell.success result; message := Shell.message result;
          diff := [];
          data := ShellData (Shell.stdout result) (Shell.stderr result)
                            (Shell.exit_code result) |}, w')
  | _ => (missing "Missing command", w)
  end.

Definition execute_deps_install (action : Action) (w : world)
  : ExecutionResult * world :=
  match language (args action), packages (args action) with
  | Some ((_ :: _) as language), Some ((_ :: _) as packages) =>
      let (result, w') := deps_install language packages w in
      ({| success := deps_success result; message := deps_message result;
          diff := [];
          data := DepsData (deps_stdout result) (deps_stderr result) |}, w')
  | _, _ => (missing "Missing language or packages", w)
  end.

Definition execute_git_checkout (action : Action) (w : world)
  : ExecutionResult * world :=
  (* [checkout_branch] only tests [create]; [None] is false. *)
  let create := default false (get (create (args action))) in
  match branch (args action) with
  | Some ((_ :: _) as branch) =>
      let (result, w') := git_checkout branch create w in
      ({| success := git_success result; message := git_message result;
          diff := []; data := BranchData branch |}, w')
  | _ => (missing "Missing branch name", w)
  end.

Definition execute (action : Action) (dry : bool) (w : world)
  : ExecutionResult * world :=
  if dry then (dry_run action, w)
  else
    match type action with
    | FS_WRITE => execute_fs_write action w
    | FS_EDIT => execute_fs_edit action w
    | FS_INSERT_LINES => execute_fs_insert_lines action w
    | FS_DELETE => execute_fs_delete action w
    | SHELL_RUN => execute_shell_run action w
    | DEPS_INSTALL => execute_deps_install action w
    | GIT_CHECKOUT => execute_git_checkout action w
    end.

End Execute.

End Executor.

(** ** The orchestration loop ([agent/core.py], [agent/state.py]) *)

Module Agent.

Import Schemas.

(** The [step_result] dictionary of one executed action. *)
Record step_result := {
  step : nat;
  step_action_type : str;
  step_success : bool;
  step_message : str;
  step_diff : option str
}.

(** An entry of [state.executed_actions]. *)
Record executed_action := {
  entry_type : str;
  result : step_result;
  timestamp : str
}.

Record SessionState := {
  messages : list (str * str);           (* role, content *)
  current_plan : option Plan;
  executed_actions : list executed_action;
  diffs : list str;
  verification_results : list VerificationResult
}.

Definition add_message (role content : str) (s : SessionState) : SessionState :=
  {| messages := messages s ++ [(role, content)];
     current_plan := current_plan s;
     executed_actions := executed_actions s;
     diffs := diffs s;
     verification_results := verification_results s |}.

Definition set_plan (p : Plan) (s : SessionState) : SessionState :=
  {| messages := messages s;
     current_plan := Some p;
     executed_actions := executed_actions s;
     diffs := diffs s;
     verification_results := verification_results s |}.

Definition add_action_result (action_type : str) (r : step_result)
    (now : str) (s : SessionState) : SessionState :=
  {| messages := messages s;
     current_plan := current_plan s;
     executed_actions :=
       executed_actions s
         ++ [{| entry_type := action_type; result := r; timestamp := now |}];
     diffs := diffs s;
     verification_results := verification_results s |}.

Definition add_diff (d : str) (s : SessionState) : SessionState :=
  match d with
  | [] => s
  | _ =>
      {| messages := messages s;
         current_plan := current_plan s;
         executed_actions := executed_actions s;
         diffs := diffs s ++ [d];
         verification_results := verification_results s |}
  end.

Definition add_verification (v : VerificationResult) (s : SessionState)
  : SessionState :=
  {| messages := messages s;
     current_plan := current_plan s;
     executed_actions := executed_actions s;
     diffs := diffs s;
     verification_results := verification_results s ++ [v] |}.

(** The [results] dictionary of [agent_loop]. *)
Record results := {
  success : bool;
  iterations : nat;
  steps_executed : nat;
  steps : list step_result;
  observations : list Observation;
  self_corrections : nat
}.

Definition initial_results : results :=
  {| success := true; iterations := 0; steps_executed := 0; steps := [];
     observations := []; self_corrections := 0 |}.

Definition set_success (b : bool) (r : results) : results :=
  {| success := b; iterations := iterations r;
     steps_executed := steps_executed r; steps := steps r;
     observations := observations r; self_corrections := self_corrections r |}.

Definition set_iterations (n : nat) (r : results) : results :=
  {| success := success r; iterations := n;
     steps_executed := steps_executed r; steps := steps r;
     observations := observations r; self_corrections := self_corrections r |}.

Definition record_step (s : step_result) (o : Observation) (r : results)
  : results :=
  {| success := success r; iterations := iterations r;
     steps_executed := steps_executed r + 1; steps := steps r ++ [s];
     observations := observations r ++ [o];
     self_corrections := self_corrections r |}.

Definition add_observation (o : Observation) (r : results) : results :=
  {| success := success r; iterations := iterations r;
     steps_executed := steps_executed r; steps := steps r;
     observations := observations r ++ [o];
     self_corrections := self_corrections r |}.

Definition add_self_correction (r : results) : results :=
  {| success := success r; iterations := iterations r;
     steps_executed := steps_executed r; steps := steps r;
     observations := observations r;
     self_corrections := self_corrections r + 1 |}.

(** [observe]. *)
Definition classify (message : str) : str :=
  let message_lower := lower message in
  if contains (py "import") message_lower then py "ImportError"
  else if contains (py "syntax") message_lower then py "SyntaxError"
  else if contains (py "not found") message_lower
          || contains (py "does not exist") message_lower
  then py "FileNotFoundError"
  else if contains (py "permission") message_lower then py "PermissionError"
  else py "UnknownError".

Definition observe (action : Action) (result : Executor.ExecutionResult)
  : Observation :=
  let error_type :=
    if negb (Executor.success result)
    then Some (classify (Executor.message result)) else None in
  let affected_files :=
    if startswith (py "fs_") (value (type action)) then
      match path (args action) with
      | Some ((_ :: _) as path) => [path]
      | _ => []
      end
    else [] in
  let can_retry :=
    if bool_decide (error_type ∈ [Some (py "PermissionError")])
    then false else true in
  let context_update :=
    if Executor.success result then
      if bool_decide (value (type action) = py "fs_write") then
        [(py "file_created", path (args action))]
      else if bool_decide (value (type action) ∈ [py "fs_edit"; py "fs_insert_lines"])
      then [(py "file_modified", path (args action))]
      else if bool_decide (value (type action) = py "fs_delete") then
        [(py "file_deleted", path (args action))]
      else []
    else [] in
  {| action_type := value (type action);
     Schemas.success := Executor.success result;
     message := Executor.message result;
     error_type := error_type;
     affected_files := affected_files;
     diff := if Executor.success result then Some (Executor.diff result) else None;
     can_retry := can_retry;
     context_update := context_update |}.

(** [l[:k]] for any integer [k]. *)
Definition py_take {A} (k : Z) (l : list A) : list A :=
  if (0 <=? k)%Z then take (Z.to_nat k) l
  else take (length l - Z.to_nat (- k)) l.

(** [l[-5:]]. *)
Definition last_five {A} (l : list A) : list A := drop (length l - 5) l.

(** The refresh of the context buffer for a file that was read again:
    the first entry for the path is updated in place, or one is added. *)
Fixpoint refresh (file_path data : str) (context : list (str * str))
  : list (str * str) :=
  match context with
  | [] => [(file_path, data)]
  | (p, c) :: rest =>
      if bool_decide (p = file_path) then (p, data) :: rest
      else (p, c) :: refresh file_path data rest
  end.

(** The prompt of [plan_next_steps]. *)
Definition incremental_prompt (goal : str) (completed_actions : list str)
    (max_steps : Z) : str :=
  [LF] ++ py "Current task: " ++ goal ++ [LF; LF]
  ++ py "Actions completed so far:" ++ [LF]
  ++ (match completed_actions with
      | [] => py "(none yet)"
      | _ => join [LF] completed_actions
      end) ++ [LF; LF]
  ++ py "Based on what's been done, plan the next " ++ str_of_Z max_steps
  ++ py " steps ONLY." ++ [LF]
  ++ py "Consider:" ++ [LF]
  ++ py "- What has already succeeded" ++ [LF]
  ++ py "- What the current state of the codebase is" ++ [LF]
  ++ py "- What's the most important next action" ++ [LF; LF]
  ++ py "Return a plan with AT MOST " ++ str_of_Z max_steps ++ py " steps."
  ++ [LF].

(** Leaving a loop body: on to the next round, or [return results]. *)
Inductive flow (A : Type) :=
| Next (a : A)
| Return (a : A).
Arguments Next {A} a.
Arguments Return {A} a.

Section Loop.

Variable W : Type.

(** [self.executor.execute(action)] and [self.fs_tool.read(path)]. *)
Variable execute : Action -> W -> Executor.ExecutionResult * W.
Variable fs_read : str -> W -> Fs.FileOperation.

(** The external collaborators.  The reflector may raise ([None]). *)
Variable llm_plan : list (str * str) -> list (str * str) -> W -> Plan * W.
Variable llm_reflect :
  Plan -> str -> list str -> W -> option ReflectionResult * W.
Variable retrieve : str -> W -> list (str * str) * W.
Variable verify : W -> VerificationResult * W.
(** [datetime.now().isoformat()]. *)
Variable isoformat_now : W -> str.

(** Everything a run threads through its iterations.  [calls] is a ghost
    field: the actions handed to the executor so far, in order. *)
Record loop := {
  res : results;
  state : SessionState;
  context : list (str * str);
  world : W;
  calls : list Action
}.

Definition with_res (f : results -> results) (l : loop) : loop :=
  {| res := f (res l); state := state l; context := context l;
     world := world l; calls := calls l |}.
Definition with_state (f : SessionState -> SessionState) (l : loop) : loop :=
  {| res := res l; state := f (state l); context := context l;
     world := world l; calls := calls l |}.
Definition with_context (f : list (str * str) -> list (str * str)) (l : loop)
  : loop :=
  {| res := res l; state := state l; context := f (context l);
     world := world l; calls := calls l |}.

(** One call of the executor. *)
Definition call (action : Action) (l : loop) : Executor.ExecutionResult * loop :=
  let (r, w) := execute action (world l) in
  (r, {| res := res l; state := state l; context := context l;
         world := w; calls := calls l ++ [action] |}).

(** [for fix_action in reflection.fix_plan.steps[:2]]: both branches of
    the body leave the loop. *)
Definition run_fixes (fixes : list Action) (l : loop) : flow loop :=
  match fixes with
  | [] => Next l
  | fix_action :: _ =>
      let (fix_result, l1) := call fix_action l in
      if Executor.success fix_result then
        let fix_observation := observe fix_action fix_result in
        let l2 := with_res (add_observation fix_observation) l1 in
        Next (match context_update fix_observation with
              | [] => l2
              | _ =>
                  with_context
                    (fun c => c ++
                       [(default (py "fix") (head (affected_files fix_observation)),
                         py "Fixed: " ++ message fix_observation)]) l2
              end)
      else Return (with_res (set_success false) l1)
  end.

(** The [try] block after a retryable failure. *)
Definition reflect_and_repair (observation : Observation) (l : loop)
  : flow loop :=
  match current_plan (state l) with
  | None => Return (with_res (set_success false) l)
  | Some plan =>
      let (reflection, w) :=
        llm_reflect plan (message observation) (diffs (state l)) (world l) in
      let l1 := {| res := res l; state := state l; context := context l;
                   world := w; calls := calls l |} in
      match reflection with
      | None => Return (with_res (set_success false) l1)
      | Some reflection =>
          match Schemas.steps (fix_plan reflection) with
          | [] => Next l1
          | fix_steps =>
              run_fixes (take 2 fix_steps) (with_res add_self_correction l1)
          end
      end
  end.

(** Reading the affected files again after a successful change. *)
Definition reread (affected : list str) (l : loop) : loop :=
  fold_left
    (fun l file_path =>
       let file_content := fs_read file_path (world l) in
       match Fs.success file_content, Fs.data file_content with
       | true, Some ((_ :: _) as data) => with_context (refresh file_path data) l
       | _, _ => l
       end)
    affected l.

(** Tracking one executed action in [results] and in the session state. *)
Definition track (action : Action) (observation : Observation) (l : loop)
  : loop :=
  let step_result :=
    {| step := steps_executed (res l) + 1;
       step_action_type := value (type action);
       step_success := Schemas.success observation;
       step_message := message observation;
       step_diff := diff observation |} in
  let l2 := with_res (record_step step_result observation) l in
  let l3 := with_state (add_action_result (value (type action)) step_result
                          (isoformat_now (world l2))) l2 in
  match diff observation with
  | Some ((_ :: _) as d) => with_state (add_diff d) l3
  | _ => l3
  end.

(** The body of [for action in actions_to_execute]. *)
Definition run_action (action : Action) (l : loop) : flow loop :=
  let (exec_result, l1) := call action l in
  let observation := observe action exec_result in
  let l4 := track action observation l1 in
  let after_failure :=
    if negb (Schemas.success observation) then
      if can_retry observation then reflect_and_repair observation l4
      else Return (with_res (set_success false) l4)
    else Next l4 in
  match after_failure with
  | Return l5 => Return l5
  | Next l5 =>
      Next (if Schemas.success observation then
              match context_update observation with
              | [] => l5
              | _ => reread (affected_files observation) l5
              end
            else l5)
  end.

Fixpoint run_actions (actions : list Action) (l : loop) : flow loop :=
  match actions with
  | [] => Next l
  | action :: rest =>
      match run_action action l with
      | Return l' => Return l'
      | Next l' => run_actions rest l'
      end
  end.

(** [plan_next_steps]. *)
Definition plan_next_steps (max_steps : Z) (l : loop) : Plan * loop :=
  let completed_actions :=
    (fun action => py "- " ++ entry_type action ++ py ": "
                     ++ step_message (result action))
      <$> last_five (executed_actions (state l)) in
  let goal := match current_plan (state l) with
              | Some p => goal p
              | None => py "Continue working"
              end in
  let l1 := with_state (add_message (py "system")
                          (incremental_prompt goal completed_actions max_steps)) l in
  let (plan, w) := llm_plan (messages (state l1)) (context l1) (world l1) in
  let plan :=
    if (max_steps <? Z.of_nat (length (Schemas.steps plan)))%Z then
      {| Schemas.goal := Schemas.goal plan; Schemas.steps := py_take max_steps (Schemas.steps plan);
         expected_outcome := expected_outcome plan;
         rollback_hint := rollback_hint plan |}
    else plan in
  (plan, {| res := res l1; state := state l1; context := context l1;
            world := w; calls := calls l1 |}).

(** [verify_changes]. *)
Definition verify_changes (l : loop) : VerificationResult * loop :=
  let (v, w) := verify (world l) in
  (v, {| res := res l; state := add_verification v (state l);
         context := context l; world := w; calls := calls l |}).

(** [for iteration in range(max_iterations)], with [todo] rounds left. *)
Fixpoint iterate (initial_plan : Plan) (steps_per_iteration : Z)
    (todo iteration : nat) (l : loop) : loop :=
  match todo with
  | O => l
  | S todo' =>
      let l1 := with_res (set_iterations (iteration + 1)) l in
      let (actions_to_execute, l2) :=
        match iteration with
        | O => (py_take steps_per_iteration (Schemas.steps initial_plan), l1)
        | _ => let (next_plan, l') := plan_next_steps steps_per_iteration l1 in
               (Schemas.steps next_plan, l')
        end in
      match actions_to_execute with
      | [] => l2
      | _ =>
          match run_actions actions_to_execute l2 with
          | Return l3 => l3
          | Next l3 =>
              let (verify_result, l4) := verify_changes l3 in
              if bool_decide (status verify_result = py "pass") then
                with_res (set_success true) l4
              else iterate initial_plan steps_per_iteration todo' (S iteration) l4
          end
      end
  end.

(** [agent_loop], from the session state [s] and the context-free world. *)
Definition agent_loop (s : SessionState) (user_message : str)
    (max_iterations steps_per_iteration : Z) (w : W) : loop :=
  let s1 := add_message (py "user") user_message s in
  let (context, w1) := retrieve user_message w in
  let (initial_plan, w2) := llm_plan (messages s1) context w1 in
  let s2 := set_plan initial_plan s1 in
  iterate initial_plan steps_per_iteration (Z.to_nat max_iterations) 0
    {| res := initial_results; state := s2; context := context;
       world := w2; calls := [] |}.

End Loop.

Arguments res {W} l.
Arguments state {W} l.
Arguments context {W} l.
Arguments world {W} l.
Arguments calls {W} l.

End Agent.

(** ** Plans run as a whole ([agent/core.py]) *)

Module Core.

Import Schemas.

(** The [results] dictionary of [execute_plan]. *)
Record plan_results := {
  success : bool;
  steps : list Agent.step_result;
  diffs : list str
}.

(** The dictionary [reflect_and_fix] returns; the first one it can
    return has no [attempts]. *)
Record fix_report := {
  fix_success : bool;
  fix_message : str;
  attempts : option Z
}.

Section Plans.

Variable W : Type.

(** [self.executor.execute(action, dry_run=dry_run)]. *)
Variable execute : Action -> bool -> W -> Executor.ExecutionResult * W.
Variable verify : W -> VerificationResult * W.
(** [self.llm_client.reflect]; it may raise ([None]). *)
Variable llm_reflect :
  Plan -> VerificationResult -> list str -> W -> option ReflectionResult * W.
Variable isoformat_now : W -> str.

(** The agent: its session state and the world.  [calls] is a ghost
    field: the actions handed to the executor so far, in order. *)
Record session := {
  state : Agent.SessionState;
  world : W;
  calls : list Action
}.

(** [for i, action in enumerate(plan.steps)], from index [i].  The diff
    of a step is the executor's, empty when there is none. *)
Fixpoint execute_steps (dry_run : bool) (i : nat) (actions : list Action)
    (results : plan_results) (self : session) : plan_results * session :=
  match actions with
  | [] => (results, self)
  | action :: rest =>
      let (result, w) := execute action dry_run (world self) in
      let step_result :=
        {| Agent.step := i + 1;
           Agent.step_action_type := value (type action);
           Agent.step_success := Executor.success result;
           Agent.step_message := Executor.message result;
           Agent.step_diff := Some (Executor.diff result) |} in
      let state1 :=
        Agent.add_action_result (value (type action)) step_result
                                (isoformat_now w) (state self) in
      let results1 :=
        {| success := success results; steps := steps results ++ [step_result];
           diffs := match Executor.diff result with
                    | [] => diffs results
                    | d => diffs results ++ [d]
                    end |} in
      let self1 :=
        {| state := Agent.add_diff (Executor.diff result) state1; world := w;
           calls := calls self ++ [action] |} in
      if negb (Executor.success result) then
        ({| success := false; steps := steps results1; diffs := diffs results1 |},
         self1)
      else execute_steps dry_run (S i) rest results1 self1
  end.

Definition execute_plan (plan : Plan) (dry_run : bool) (self : session)
  : plan_results * session :=
  execute_steps dry_run 0 (Schemas.steps plan)
                {| success := true; steps := []; diffs := [] |} self.

(** [verify_changes]. *)
Definition verify_changes (self : session) : VerificationResult * session :=
  let (v, w) := verify (world self) in
  (v, {| state := Agent.add_verification v (state self); world := w;
         calls := calls self |}).

(** [for attempt in range(max_retries)], with [todo] rounds left; [None]
    is the exception of the reflector, which nothing catches. *)
Fixpoint retry (plan : Plan) (max_retries : Z) (todo attempt : nat)
    (self : session) : option fix_report * session :=
  match todo with
  | O =>
      (Some {| fix_success := false;
               fix_message := py "Max retries (" ++ str_of_Z max_retries
                                ++ py ") exceeded";
               attempts := Some max_retries |}, self)
  | S todo' =>
      let (verify_result, self1) := verify_changes self in
      if bool_decide (status verify_result = py "pass") then
        (Some {| fix_success := true; fix_message := py "Verification passed";
                 attempts := Some (Z.of_nat (attempt + 1)) |}, self1)
      else
        let (reflection, w) :=
          llm_reflect plan verify_result (Agent.diffs (state self1))
                      (world self1) in
        let self2 := {| state := state self1; world := w;
                        calls := calls self1 |} in
        match reflection with
        | None => (None, self2)
        | Some reflection =>
            let (fix_results, self3) :=
              execute_plan (fix_plan reflection) false self2 in
            if negb (success fix_results) then
              (Some {| fix_success := false;
                       fix_message := py "Fix attempt "
                                        ++ str_of_nat (attempt + 1)
                                        ++ py " failed";
                       attempts := Some (Z.of_nat (attempt + 1)) |}, self3)
            else retry plan max_retries todo' (S attempt) self3
        end
  end.

Definition reflect_and_fix (max_retries : Z) (self : session)
  : option fix_report * session :=
  match Agent.current_plan (state self) with
  | None =>
      (Some {| fix_success := false; fix_message := py "No plan to reflect on";
               attempts := None |}, self)
  | Some plan => retry plan max_retries (Z.to_nat max_retries) 0 self
  end.

End Plans.

Arguments state {W} s.
Arguments world {W} s.
Arguments calls {W} s.

End Core.

(** ** Configuration ([agent/config.py]) *)

Module Config.

(** [AgentConfig], restricted to what the verifier reads. *)
Record AgentConfig := {
  linters_python : list str;
  linters_node : list str;
  tests_python : str;
  tests_node : str;
  max_shell_timeout : Z
}.

(** The configuration of a repository without [agent.yaml]. *)
Definition default : AgentConfig :=
  {| linters_python := [py "ruff check"; py "mypy"];
     linters_node := [py "eslint"; py "tsc --noEmit"];
     tests_python := py "pytest -q";
     tests_node := py "npm test --silent";
     max_shell_timeout := 120 |}.

(** [detect_language]. *)
Definition detect_language (fs : Fs.filesystem) (repo_root : list str)
  : option str :=
  if Fs.exists_ fs (repo_root ++ [py "pyproject.toml"])
     || Fs.exists_ fs (repo_root ++ [py "setup.py"]) then Some (py "python")
  else if Fs.exists_ fs (repo_root ++ [py "package.json"]) then Some (py "node")
  else None.

End Config.

(** ** The verifier ([agent/verifier.py]) *)

Module Verifier.

Import Schemas Config.

Record Verifier := {
  repo_root : list str;
  config : AgentConfig;
  language : option str
}.

(** [__init__]: the language is detected once, when the verifier is
    made. *)
Definition init (fs : Fs.filesystem) (repo_root : list str)
    (config : AgentConfig) : Verifier :=
  {| repo_root := repo_root; config := config;
     language := detect_language fs repo_root |}.

(** The dictionary of [_run_command]. *)
Record command_result := {
  success : bool;
  stdout : str;
  stderr : str;
  exit_code : Z
}.

Section Verify.

Variable W : Type.

(** [subprocess.run(command, shell=True, cwd=cwd, timeout=t)]. *)
Variable subprocess_run : str -> list str -> Z -> W -> Shell.outcome * W.

Variable self : Verifier.

Definition run_command (command : str) (w : W) : command_result * W :=
  match subprocess_run command (repo_root self)
                       (max_shell_timeout (config self)) w with
  | (Shell.Completed returncode out err, w') =>
      ({| success := (returncode =? 0)%Z; stdout := out; stderr := err;
          exit_code := returncode |}, w')
  | (Shell.TimeoutExpired, w') =>
      ({| success := false; stdout := []; stderr := py "Command timed out";
          exit_code := -1 |}, w')
  | (Shell.Raised e, w') =>
      ({| success := false; stdout := []; stderr := e; exit_code := -1 |}, w')
  end.

(** The loop of [_run_python_linters] and [_run_node_linters]. *)
Fixpoint run_linters (commands : list str) (errors : list str) (w : W)
  : list str * W :=
  match commands with
  | [] => (errors, w)
  | linter_cmd :: rest =>
      let (result, w') := run_command linter_cmd w in
      let errors' :=
        match success result, stderr result with
        | false, _ :: _ =>
            errors ++ [linter_cmd ++ py ": " ++ take 500 (stderr result)]
        | _, _ => errors
        end in
      run_linters rest errors' w'
  end.

Definition run_python_linters (w : W) : list str * W :=
  run_linters (linters_python (config self)) [] w.

Definition run_node_linters (w : W) : list str * W :=
  run_linters (linters_node (config self)) [] w.

(** [_run_tests]: whether the tests passed, and the output kept. *)
Definition run_tests (w : W) : (bool * list str) * W :=
  let run cmd :=
    let (result, w') := run_command cmd w in
    ((success result,
      if negb (success result) then [take 500 (stdout result)] else []), w') in
  if bool_decide (language self = Some (py "python")) then
    run (tests_python (config self))
  else if bool_decide (language self = Some (py "node")) then
    run (tests_node (config self))
  else ((true, []), w).

Definition verify (w : W) : VerificationResult * W :=
  let (lint_errors, w1) :=
    if bool_decide (language self = Some (py "python")) then run_python_linters w
    else if bool_decide (language self = Some (py "node")) then run_node_linters w
    else ([], w) in
  let (test_results, w2) := run_tests w1 in
  let type_errors : list str := [] in
  let failing_tests := if negb test_results.1 then test_results.2 else [] in
  match lint_errors, type_errors, failing_tests with
  | [], [], [] =>
      ({| status := py "pass"; lint_errors := lint_errors;
          type_errors := type_errors; failing_tests := failing_tests;
          summary := py "All checks passed" |}, w2)
  | _, _, _ =>
      let error_count :=
        length lint_errors + length type_errors + length failing_tests in
      ({| status := py "fail"; lint_errors := lint_errors;
          type_errors := type_errors; failing_tests := failing_tests;
          summary := py "Found " ++ str_of_nat error_count ++ py " issues" |},
       w2)
  end.

End Verify.

End Verifier.

(** ** Dependencies ([tools/deps.py]) *)

Module Deps.

Import Executor.

(** What [subprocess.run(cmd, ...)] on an argument list does: it
    completes, the executable is missing, or it raises something else
    (an expired timeout among them); [e] is [str(e)]. *)
Inductive outcome :=
| Completed (returncode : Z) (out err : str)
| FileNotFound (e : str)
| Raised (e : str).

Record DependencyTool := { repo_root : list str }.

Section Install.

Variable X : Type.
Abbreviation world := (Fs.filesystem * X)%type.

(** [subprocess.run(cmd, cwd=cwd, capture_output=True, text=True,
    timeout=t)]. *)
Variable subprocess_run : list str -> list str -> Z -> world -> outcome * world.
(** [sys.executable]. *)
Variable sys_executable : str.

Variable self : DependencyTool.

Definition error (what : string) (e : str) : DepsResult :=
  {| deps_success := false; deps_message := py what ++ e;
     deps_stdout := []; deps_stderr := [] |}.

(** The fallback to pip. *)
Definition install_pip (packages : list str) (w : world) : DepsResult * world :=
  let cmd := [sys_executable; py "-m"; py "pip"; py "install"] ++ packages in
  match subprocess_run cmd (repo_root self) 300 w with
  | (Completed returncode out err, w') =>
      let success := (returncode =? 0)%Z in
      ({| deps_success := success;
          deps_message :=
            if success then py "Installed Python packages with pip: "
                              ++ join (py ", ") packages
            else py "Installation failed";
          deps_stdout := out; deps_stderr := err |}, w')
  | (FileNotFound e, w') | (Raised e, w') =>
      (error "Error installing Python packages: " e, w')
  end.

(** [_install_python]. *)
Definition install_python (packages : list str) (w : world)
  : DepsResult * world :=
  let cmd := [py "uv"; py "pip"; py "install"] ++ packages in
  match subprocess_run cmd (repo_root self) 300 w with
  | (Completed returncode out err, w') =>
      if (returncode =? 0)%Z then
        ({| deps_success := true;
            deps_message := py "Installed Python packages with uv: "
                              ++ join (py ", ") packages;
            deps_stdout := out; deps_stderr := err |}, w')
      else install_pip packages w'
  | (FileNotFound _, w') => install_pip packages w'
  | (Raised e, w') => (error "Error installing Python packages: " e, w')
  end.

(** The package manager the lock files select. *)
Definition node_command (fs : Fs.filesystem) (packages : list str) : list str :=
  if Fs.exists_ fs (repo_root self ++ [py "pnpm-lock.yaml"]) then
    [py "pnpm"; py "add"] ++ packages
  else if Fs.exists_ fs (repo_root self ++ [py "yarn.lock"]) then
    [py "yarn"; py "add"] ++ packages
  else [py "npm"; py "install"] ++ packages.

(** [_install_node]. *)
Definition install_node (packages : list str) (w : world)
  : DepsResult * world :=
  let cmd := node_command w.1 packages in
  match subprocess_run cmd (repo_root self) 300 w with
  | (Completed returncode out err, w') =>
      let success := (returncode =? 0)%Z in
      ({| deps_success := success;
          deps_message :=
            if success then py "Installed Node packages: "
                              ++ join (py ", ") packages
            else py "Installation failed";
          deps_stdout := out; deps_stderr := err |}, w')
  | (FileNotFound e, w') | (Raised e, w') =>
      (error "Error installing Node packages: " e, w')
  end.

Definition install (language : str) (packages : list str) (w : world)
  : DepsResult * world :=
  if bool_decide (language = py "python") then install_python packages w
  else if bool_decide (language = py "node") then install_node packages w
  else ({| deps_success := false;
           deps_message := py "Unknown language: " ++ language;
           deps_stdout := []; deps_stderr := [] |}, w).

End Install.

End Deps.

(** ** Context retrieval ([agent/retriever.py]) *)

Module Retriever.

Record Retriever := {
  repo_root : list str;
  max_files : Z;
  max_bytes : Z
}.

(** A snippet: its path and its content ([lines] is always [None]). *)
Definition snippet : Type := str * str.

(** Where the operating system finds [start / comps]: every component
    is looked up in a directory, [..] goes to the parent. *)
Fixpoint walk (fs : Fs.filesystem) (cur : list str) (comps : list str)
  : option (list str) :=
  match comps with
  | [] => if Fs.exists_ fs cur then Some cur else None
  | c :: rest =>
      if Fs.is_dir fs cur then
        walk fs (if decide (c = py "..") then Fs.parent cur else cur ++ [c]) rest
      else None
  end.

(** The file [repo_root / filepath] names, when [exists()] holds for
    it; an absolute [filepath] replaces the root. *)
Definition locate (fs : Fs.filesystem) (repo_root : list str) (filepath : str)
  : option (list str) :=
  if bool_decide (NUL ∈ filepath) then None
  else walk fs (if Fs.is_absolute filepath then [] else repo_root)
            (Fs.parts filepath).

Definition important_files : list str :=
  [py "pyproject.toml"; py "setup.py"; py "requirements.txt";
   py "package.json"; py "README.md"; py "Makefile"].

Section Retrieve.

(** What lies beside the file system: the search tool and the regular
    expressions. *)
Variable X : Type.
Abbreviation world := (Fs.filesystem * X)%type.

(** [_extract_filenames], [_extract_entities], [_search_code] and
    [_get_all_source_files], which read the world and leave it alone. *)
Variable extract_filenames : str -> list str.
Variable extract_entities : str -> list str.
Variable search_code : str -> world -> list snippet.
Variable get_all_source_files : world -> list snippet.

Variable self : Retriever.

(** [content[: self.max_bytes] + "\n... (truncated)"] when the encoded
    content is too long. *)
Definition truncate (content : str) : str :=
  if (max_bytes self <? utf8_len content)%Z
  then Agent.py_take (max_bytes self) content ++ [LF] ++ py "... (truncated)"
  else content.

(** [get_file_context]. *)
Definition get_file_context (fs : Fs.filesystem) (filepath : str) : snippet :=
  match locate fs (repo_root self) filepath with
  | None => (filepath, [])
  | Some full_path =>
      match Fs.read_text fs full_path with
      | inr content => (filepath, truncate content)
      | inl _ => (filepath, [])
      end
  end.

(** [_get_manifest_files]. *)
Definition get_manifest_files (fs : Fs.filesystem) : list snippet :=
  omap (λ filename,
          match locate fs (repo_root self) filename with
          | None => None
          | Some filepath =>
              match Fs.read_text fs filepath with
              | inr content =>
                  if (utf8_len content <=? max_bytes self)%Z
                  then Some (filename, content) else None
              | inl _ => None
              end
          end) important_files.

(** The loops that add what was not seen before. *)
Definition add_unseen (found : list snippet) (acc : list snippet * list str)
  : list snippet * list str :=
  fold_left
    (λ acc s, if bool_decide (s.1 ∈ acc.2) then acc
              else (acc.1 ++ [s], acc.2 ++ [s.1]))
    found acc.

Definition add_mentioned (fs : Fs.filesystem) (mentioned : list str)
    (acc : list snippet * list str) : list snippet * list str :=
  fold_left
    (λ acc filepath,
       if bool_decide (filepath ∈ acc.2) then acc
       else
         let s := get_file_context fs filepath in
         match s.2 with
         | [] => acc
         | _ => (acc.1 ++ [s], acc.2 ++ [filepath])
         end)
    mentioned acc.

Definition add_while_room (found : list snippet)
    (acc : list snippet * list str) : list snippet * list str :=
  fold_left
    (λ acc s,
       if negb (bool_decide (s.1 ∈ acc.2))
          && (Z.of_nat (length acc.1) <? max_files self)%Z
       then (acc.1 ++ [s], acc.2 ++ [s.1]) else acc)
    found acc.

(** [retrieve]; the pair is [snippets] and [seen_paths]. *)
Definition retrieve (query : str) (w : world) : list snippet :=
  let acc1 := add_unseen (get_manifest_files w.1) ([], []) in
  let acc2 := add_mentioned w.1 (extract_filenames query) acc1 in
  let acc4 :=
    fold_left (λ acc entity, add_unseen (search_code entity w) acc)
              (extract_entities query) acc2 in
  let acc5 :=
    if (Z.of_nat (length acc4.1) <? max_files self)%Z
    then add_while_room (get_all_source_files w) acc4 else acc4 in
  Agent.py_take (max_files self) acc5.1.

End Retrieve.

End Retriever.

(** * Vocabulary of the properties *)

(** ** Path jail *)

(** The path escapes the jail: it is absolute, or it resolves to a place
    that is not the root or below it. *)
Definition jail_violation (self : Fs.FileSystemTool) (path : str) : Prop :=
  Fs.is_absolute path = true ∨
  Fs.under (Fs.repo_root self) (Fs.resolve (Fs.repo_root self) path) = false.

(** The result every operation gives for a rejected path. *)
Definition rejection (doing : string) (path : str) (e : Fs.pyexc)
  : Fs.FileOperation :=
  Fs.failed (py doing ++ path ++ py ": " ++ Fs.exc_str e) None.

(** ** Instances for the examples *)

Definition demo_diff (a b : list str) (f t : str) : list str :=
  [py "--- " ++ f ++ [LF]; py "+++ " ++ t ++ [LF]].

Definition demo_tool : Fs.FileSystemTool :=
  {| Fs.repo_root := [py "repo"]; Fs.max_file_size := 1048576 |}.

Definition demo_shell : Shell.ShellTool :=
  {| Shell.repo_root := [py "repo"];
     Shell.allowlist :=
       [py "pytest"; py "python"; py "python3"; py "node"; py "npm";
        py "pnpm"; py "yarn"; py "ruff"; py "mypy"; py "eslint"; py "tsc";
        py "make"; py "uv"; py "pip"; py "git"];
     Shell.max_timeout := 120 |}.

(** A subprocess that completes at once and prints the timeout it was
    given. *)
Definition echo_timeout (command : str) (cwd : list str) (t : Z) (w : unit)
  : Shell.outcome * unit :=
  (Shell.Completed 0 (str_of_Z t) [], w).

(** A stand-in for the regular-expression engine: literal search. *)
Definition literal_search (pattern s : str) : bool := contains pattern s.

(** ** Observation classifier *)

(** The rule table of the specification: markers, in priority order,
    and the category each gives. *)
Definition marker_table : list (list str * str) :=
  [ ([py "import"], py "ImportError");
    ([py "syntax"], py "SyntaxError");
    ([py "not found"; py "does not exist"], py "FileNotFoundError");
    ([py "permission"], py "PermissionError") ].

(** The category of the first rule one of whose markers occurs in [text]. *)
Fixpoint first_rule (table : list (list str * str)) (text : str) : str :=
  match table with
  | [] => py "UnknownError"
  | (markers, category) :: rest =>
      if existsb (fun marker => contains marker text) markers then category
      else first_rule rest text
  end.

(** ** Actions and results for the examples *)

Definition action_of (t : Schemas.ActionType) (a : Schemas.Args) : Schemas.Action :=
  {| Schemas.type := t; Schemas.rationale := py "demo"; Schemas.args := a;
     Schemas.target_files := []; Schemas.risk_score := (1 # 10)%Q |}.

Definition edit_action : Schemas.Action :=
  action_of Schemas.FS_EDIT
    {| Schemas.path := Some (py "a.txt"); Schemas.content := None;
       Schemas.old_text := Some (py "hello"); Schemas.new_text := Some (py "goodbye");
       Schemas.line_number := None; Schemas.operation := Schemas.Absent;
       Schemas.command := Schemas.Absent; Schemas.timeout := None;
       Schemas.language := None; Schemas.packages := None;
       Schemas.branch := None; Schemas.create := Schemas.Absent |}.

Definition write_action : Schemas.Action :=
  action_of Schemas.FS_WRITE
    {| Schemas.path := Some (py "a.txt"); Schemas.content := Some (py "hello");
       Schemas.old_text := None; Schemas.new_text := None;
       Schemas.line_number := None; Schemas.operation := Schemas.Absent;
       Schemas.command := Schemas.Absent; Schemas.timeout := None;
       Schemas.language := None; Schemas.packages := None;
       Schemas.branch := None; Schemas.create := Schemas.Absent |}.

Definition failure (msg : string) : Executor.ExecutionResult :=
  {| Executor.success := false; Executor.message := py msg;
     Executor.diff := []; Executor.data := Executor.NoData |}.

(** ** Approval gate *)

(** The three triggers of the specification, each stated on the steps. *)
Definition risk_trigger (self : Approvals.ApprovalSystem) (plan : Schemas.Plan)
  : bool :=
  existsb (fun step => Approvals.Qgtb (Schemas.risk_score step)
                                      (Approvals.auto_approve_max self))
          (Schemas.steps plan).

Definition delete_count (plan : Schemas.Plan) : Z :=
  fold_right
    (fun step n => if bool_decide (Schemas.type step = Schemas.FS_DELETE)
                   then (n + 1)%Z else n)
    0%Z (Schemas.steps plan).

Definition delete_trigger (self : Approvals.ApprovalSystem) (plan : Schemas.Plan)
  : bool :=
  (Approvals.delete_file_max self <? delete_count plan)%Z.

(** The command a step is scanned for: the string bound to the key, the
    empty string for an absent key; a key bound to [None] holds no
    string. *)
Definition scanned_command (step : Schemas.Action) : option str :=
  Schemas.get_or (Schemas.command (Schemas.args step)) [].

(** A shell step whose command matches a dangerous pattern. *)
Definition dangerous_step (re_search_ignorecase : str -> str -> bool)
    (self : Approvals.ApprovalSystem) (step : Schemas.Action) : bool :=
  bool_decide (Schemas.type step = Schemas.SHELL_RUN)
  && match scanned_command step with
     | Some command =>
         existsb (fun pattern => re_search_ignorecase pattern command)
                 (Approvals.dangerous_patterns self)
     | None => false
     end.

Definition shell_trigger (re_search_ignorecase : str -> str -> bool)
    (self : Approvals.ApprovalSystem) (plan : Schemas.Plan) : bool :=
  existsb (dangerous_step re_search_ignorecase self) (Schemas.steps plan).

(** A shell step on which the search raises: its command is [None] and
    there is a pattern to search it for. *)
Definition unscannable_step (self : Approvals.ApprovalSystem)
    (step : Schemas.Action) : bool :=
  bool_decide (Schemas.type step = Schemas.SHELL_RUN)
  && bool_decide (scanned_command step = None)
  && negb (bool_decide (Approvals.dangerous_patterns self = [])).

(** The scan of the steps raises: an unscannable step comes before every
    dangerous one. *)
Fixpoint scan_raises (re_search_ignorecase : str -> str -> bool)
    (self : Approvals.ApprovalSystem) (l : list Schemas.Action) : bool :=
  match l with
  | [] => false
  | step :: rest =>
      unscannable_step self step
      || negb (dangerous_step re_search_ignorecase self step)
         && scan_raises re_search_ignorecase self rest
  end.

(** The reasons of the triggers that fired, in the order of the source;
    [max_risk] is the score the first reason quotes. *)
Definition fired_reasons (re_search_ignorecase : str -> str -> bool)
    (self : Approvals.ApprovalSystem) (plan : Schemas.Plan) (max_risk : Q)
  : list str :=
  (if risk_trigger self plan
   then [py "High risk action (score: " ++ Approvals.format_2f max_risk ++ py ")"]
   else []) ++
  (if delete_trigger self plan
   then [py "Too many file deletions (" ++ str_of_Z (delete_count plan) ++ py ")"]
   else []) ++
  (if shell_trigger re_search_ignorecase self plan
   then [py "Dangerous shell command detected"] else []).

(** ** A small world for the loop examples

    The world is a file system and nothing else.  The planner asks for an
    edit of [a.txt], which does not exist; the reflector proposes to
    write the file ([demo_reflect]) or to try the same edit again
    ([demo_reflect_again]); verification never passes. *)

Definition demo_world : Type := (Fs.filesystem * unit)%type.

Definition demo_fs : Fs.filesystem := {[ [py "repo"] := Fs.Dir ]}.

Definition demo_executor : Executor.Executor :=
  {| Executor.fs_tool := demo_tool; Executor.shell_tool := demo_shell |}.

Definition demo_execute (action : Schemas.Action) (w : demo_world)
  : Executor.ExecutionResult * demo_world :=
  Executor.execute unit demo_diff literal_search
    (fun _ _ _ w => (Shell.Completed 0 [] [], w))
    (fun _ _ w => ({| Executor.deps_success := false;
                      Executor.deps_message := py "offline";
                      Executor.deps_stdout := []; Executor.deps_stderr := [] |}, w))
    (fun _ _ w => ({| Executor.git_success := false;
                      Executor.git_message := py "no repository" |}, w))
    (fun _ => 1700000000%Z)
    demo_executor action false w.

Definition demo_fs_read (path : str) (w : demo_world) : Fs.FileOperation :=
  Fs.read demo_tool w.1 path.

Definition plan_of (actions : list Schemas.Action) : Schemas.Plan :=
  {| Schemas.goal := py "say goodbye"; Schemas.steps := actions;
     Schemas.expected_outcome := py "a.txt says goodbye";
     Schemas.rollback_hint := None |}.

Definition demo_plan (messages context : list (str * str)) (w : demo_world)
  : Schemas.Plan * demo_world :=
  (plan_of [edit_action], w).

Definition reflect_with (fixes : list Schemas.Action) (plan : Schemas.Plan)
    (report : str) (diffs : list str) (w : demo_world)
  : option Schemas.ReflectionResult * demo_world :=
  (Some {| Schemas.analysis := py "the file is missing";
           Schemas.fix_plan := plan_of fixes |}, w).

Definition demo_reflect := reflect_with [write_action].
Definition demo_reflect_again := reflect_with [edit_action; write_action].
Definition demo_reflect_nothing := reflect_with [].

Definition demo_retrieve (query : str) (w : demo_world)
  : list (str * str) * demo_world := ([], w).

Definition demo_verify (w : demo_world) : Schemas.VerificationResult * demo_world :=
  ({| Schemas.status := py "fail"; Schemas.lint_errors := [];
      Schemas.type_errors := []; Schemas.failing_tests := [py "test_a"];
      Schemas.summary := py "Found 1 issues" |}, w).

Definition demo_now (w : demo_world) : str := py "2024-01-01T00:00:00".

Definition demo_state : Agent.SessionState :=
  {| Agent.messages := []; Agent.current_plan := None;
     Agent.executed_actions := []; Agent.diffs := [];
     Agent.verification_results := [] |}.

(** ** Editing *)

(** [sub] is a literal substring of [s]. *)
Definition occurs (sub s : str) : Prop := ∃ pre post, s = pre ++ sub ++ post.

(** [s] is [pre ++ old ++ post] and no occurrence of [old] starts
    earlier. *)
Definition first_occurrence (old s pre post : str) : Prop :=
  s = pre ++ old ++ post
  ∧ ∀ pre' post', s = pre' ++ old ++ post' → length pre <= length pre'.

Definition text_not_found (path : str) : str :=
  py "Text not found in " ++ path ++ py ". Cannot apply edit.".

(** A repository with one file, [a.txt]. *)
Definition fs_with (data : str) : Fs.filesystem :=
  <[ [py "repo"; py "a.txt"] := Fs.File data ]> demo_fs.

(** ** Lines *)

(** A complete line: no line boundary before its last character, which
    is a boundary other than a carriage return. *)
Fixpoint complete (l : str) : bool :=
  match l with
  | [] => false
  | [t] => is_linebreak t && negb (t =? CR)%N
  | c :: rest => negb (is_linebreak c) && complete rest
  end.

(** What [insert_lines] with [operation = "replace"] makes of the text
    of a file: the new text, or [None] when it fails. *)
Definition replace_line (line_number : Z) (content text : str) : option str :=
  let lines := Fs.terminate_last (splitlines text) in
  if ((line_number <? 1) || (Z.of_nat (length lines) + 1 <? line_number))%Z
  then None
  else
    match Fs.list_assign (Z.to_nat (line_number - 1))
                         (Fs.terminate_content content) lines with
    | inr lines' => Some (concat lines')
    | inl _ => None
    end.

(** The content is one line: terminated and decoded, it is complete. *)
Definition one_line (content : str) : Prop :=
  complete (universal_newlines (Fs.terminate_content content)) = true.


(** ** File-system invariant *)

(** Every entry lies in a directory: the parent of each key is a
    directory of the file system. *)
Definition well_formed (fs : Fs.filesystem) : Prop :=
  ∀ k, is_Some (fs !! k) → Fs.node_at fs (Fs.parent k) = Some Fs.Dir.

(** The file system after [insert_lines] has put the content at [index]
    of the lines, as the operations [after] and [before] do. *)
Definition inserted_at (self : Fs.FileSystemTool) (fs : Fs.filesystem)
    (path : str) (line_number : Z) (content : str) (index : nat)
  : Fs.filesystem :=
  match Fs.validate_path self path with
  | inr p =>
      match Fs.node_at fs p with
      | Some (Fs.File d) =>
          let lines := Fs.terminate_last (splitlines (universal_newlines d)) in
          if ((line_number <? 1)
              || (Z.of_nat (length lines) + 1 <? line_number))%Z
          then fs
          else <[p := Fs.File (concat (Fs.list_insert_at index
                                         (Fs.terminate_content content) lines))]> fs
      | _ => fs
      end
  | inl _ => fs
  end.

(** ** Actions *)

(** The action works on a file. *)
Definition fs_action (t : Schemas.ActionType) : bool :=
  match t with
  | Schemas.FS_WRITE | Schemas.FS_EDIT | Schemas.FS_INSERT_LINES
  | Schemas.FS_DELETE => true
  | _ => false
  end.

(** ** Bookkeeping of the loop *)

(** The loop a body hands on, whichever way it leaves, and whether it
    left by [return]. *)
Definition outcome_of {A} (f : Agent.flow A) : A :=
  match f with Agent.Next a | Agent.Return a => a end.

Definition returned {A} (f : Agent.flow A) : bool :=
  match f with Agent.Return _ => true | Agent.Next _ => false end.

(** The number of recorded steps that failed. *)
Definition failed_steps (r : Agent.results) : nat :=
  length (filter (λ s, Agent.step_success s = false) (Agent.steps r)).

(** The last recorded step failed. *)
Definition last_step_failed (r : Agent.results) : Prop :=
  ∃ s, last (Agent.steps r) = Some s ∧ Agent.step_success s = false.

(** What the counters of a run and its ghost trace satisfy at any time. *)
Record counted {W} (l : Agent.loop W) : Prop := {
  counted_steps :
    Agent.steps_executed (Agent.res l) = length (Agent.steps (Agent.res l));
  counted_numbers :
    Agent.step <$> Agent.steps (Agent.res l)
    = seq 1 (length (Agent.steps (Agent.res l)));
  counted_calls :
    length (Agent.calls l)
    = length (Agent.steps (Agent.res l)) + Agent.self_corrections (Agent.res l);
  counted_corrections :
    Agent.self_corrections (Agent.res l) <= failed_steps (Agent.res l);
  counted_observations :
    length (Agent.steps (Agent.res l)) <= length (Agent.observations (Agent.res l))
    ∧ length (Agent.observations (Agent.res l)) <= length (Agent.calls l)
}.

(** The session state [s'] continues the log of [s] by the steps [new]:
    one entry for each, and nothing of [s] is lost. *)
Record logged (s s' : Agent.SessionState) (new : list Agent.step_result)
  : Prop := {
  logged_actions :
    ∃ entries, Agent.executed_actions s' = Agent.executed_actions s ++ entries
               ∧ Agent.result <$> entries = new
               ∧ Forall (λ e, Agent.entry_type e
                              = Agent.step_action_type (Agent.result e)) entries;
  logged_diffs : Agent.diffs s `prefix_of` Agent.diffs s';
  logged_messages : Agent.messages s `prefix_of` Agent.messages s';
  logged_verifications :
    Agent.verification_results s `prefix_of` Agent.verification_results s'
}.

Section LoopVocabulary.

Import Schemas Agent.

Context {W : Type}.

(** The step recorded for [action] with result [r] after [n] steps. *)
Definition step_of (n : nat) (action : Action) (r : Executor.ExecutionResult)
  : step_result :=
  {| step := n + 1; step_action_type := value (type action);
     step_success := Executor.success r; step_message := Executor.message r;
     step_diff := diff (observe action r) |}.

(** What one round of the loop body changes: one step and its log entry,
    [k] self-corrections with one call each, and the success flag only on
    the way out. *)
Record advanced (action : Action) (r : Executor.ExecutionResult)
    (l l' : loop W) (out : bool) : Prop := {
  adv_steps : steps (res l')
              = steps (res l) ++ [step_of (steps_executed (res l)) action r];
  adv_count : steps_executed (res l') = steps_executed (res l) + 1;
  adv_iterations : iterations (res l') = iterations (res l);
  adv_actions : ∃ now, executed_actions (state l')
      = executed_actions (state l)
        ++ [{| entry_type := value (type action);
               result := step_of (steps_executed (res l)) action r;
               timestamp := now |}];
  adv_diffs : diffs (state l) `prefix_of` diffs (state l');
  adv_messages : messages (state l') = messages (state l);
  adv_verifications : verification_results (state l')
                      = verification_results (state l);
  adv_plan : current_plan (state l') = current_plan (state l);
  adv_fix : ∃ (k : nat) fixes,
      calls l' = calls l ++ action :: fixes ∧ length fixes = k
      ∧ self_corrections (res l') = self_corrections (res l) + k
      ∧ k <= 1 ∧ (k = 1 → Executor.success r = false)
      ∧ length (observations (res l)) + 1 <= length (observations (res l'))
      ∧ length (observations (res l')) <= length (observations (res l)) + 1 + k;
  adv_success : if out then success (res l') = false ∧ Executor.success r = false
                else success (res l') = success (res l)
}.

(** The steps of [l'] are those of [l] and at most [n] more, and the log
    of the session follows them. *)
Definition follows (s : SessionState) (l l' : loop W) (n : nat) : Prop :=
  (counted l → counted l')
  ∧ (logged s (state l) (steps (res l)) → logged s (state l') (steps (res l')))
  ∧ steps_executed (res l') <= steps_executed (res l) + n
  ∧ iterations (res l') = iterations (res l)
  ∧ current_plan (state l') = current_plan (state l).

End LoopVocabulary.

(** ** Plans run as a whole *)

(** Whether every step of a list succeeded. *)
Definition all_succeeded (l : list Agent.step_result) : bool :=
  forallb Agent.step_success l.

(** ** Verification *)

(** The result of a verification that found nothing. *)
Definition all_checks_passed : Schemas.VerificationResult :=
  {| Schemas.status := py "pass"; Schemas.lint_errors := [];
     Schemas.type_errors := []; Schemas.failing_tests := [];
     Schemas.summary := py "All checks passed" |}.

(** The linters the verifier runs for its language. *)
Definition linters_of (self : Verifier.Verifier) : list str :=
  if bool_decide (Verifier.language self = Some (py "python"))
  then Config.linters_python (Verifier.config self)
  else if bool_decide (Verifier.language self = Some (py "node"))
  then Config.linters_node (Verifier.config self)
  else [].

(** ** Dependencies *)

(** The two commands of [_install_python]. *)
Definition uv_command (packages : list str) : list str :=
  [py "uv"; py "pip"; py "install"] ++ packages.
Definition pip_command (sys_executable : str) (packages : list str) : list str :=
  [sys_executable; py "-m"; py "pip"; py "install"] ++ packages.

(** ** Retrieval *)

(** The snippets and the paths seen agree, and no path is there twice. *)
Definition tidy (acc : list Retriever.snippet * list str) : Prop :=
  acc.2 = acc.1.*1 ∧ NoDup acc.2.

(** ** Instances for the further examples *)

(** A stand-in engine that knows one pattern of the shell table: the
    word [sudo], found by literal search. *)
Definition sudo_search (pattern s : str) : bool :=
  bool_decide (pattern = py "\bsudo\b") && contains (py "sudo") s.

Definition shell_action (command : string) : Schemas.Action :=
  action_of Schemas.SHELL_RUN
    {| Schemas.path := None; Schemas.content := None;
       Schemas.old_text := None; Schemas.new_text := None;
       Schemas.line_number := None; Schemas.operation := Schemas.Absent;
       Schemas.command := Schemas.Bound (py command); Schemas.timeout := None;
       Schemas.language := None; Schemas.packages := None;
       Schemas.branch := None; Schemas.create := Schemas.Absent |}.

(** A shell step whose command is bound to [None], as a JSON [null] in
    the planner's answer is parsed. *)
Definition null_shell_action : Schemas.Action :=
  action_of Schemas.SHELL_RUN
    {| Schemas.path := None; Schemas.content := None;
       Schemas.old_text := None; Schemas.new_text := None;
       Schemas.line_number := None; Schemas.operation := Schemas.Absent;
       Schemas.command := Schemas.Null; Schemas.timeout := None;
       Schemas.language := None; Schemas.packages := None;
       Schemas.branch := None; Schemas.create := Schemas.Absent |}.

(** A write that aims outside the repository. *)
Definition escaping_write : Schemas.Action :=
  action_of Schemas.FS_WRITE
    {| Schemas.path := Some (py "../etc/passwd"); Schemas.content := Some (py "x");
       Schemas.old_text := None; Schemas.new_text := None;
       Schemas.line_number := None; Schemas.operation := Schemas.Absent;
       Schemas.command := Schemas.Absent; Schemas.timeout := None;
       Schemas.language := None; Schemas.packages := None;
       Schemas.branch := None; Schemas.create := Schemas.Absent |}.

(** A request for packages of a language the tool does not know. *)
Definition ruby_install : Schemas.Action :=
  action_of Schemas.DEPS_INSTALL
    {| Schemas.path := None; Schemas.content := None;
       Schemas.old_text := None; Schemas.new_text := None;
       Schemas.line_number := None; Schemas.operation := Schemas.Absent;
       Schemas.command := Schemas.Absent; Schemas.timeout := None;
       Schemas.language := Some (py "ruby"); Schemas.packages := Some [py "rake"];
       Schemas.branch := None; Schemas.create := Schemas.Absent |}.

(** A reflector that raises. *)
Definition demo_reflect_raises (plan : Schemas.Plan) (report : str)
    (diffs : list str) (w : demo_world)
  : option Schemas.ReflectionResult * demo_world := (None, w).

(** Subprocesses for the examples: one that completes at once, one for
    argument lists, and one whose linters fail without a word while the
    tests pass. *)
Definition demo_subprocess (command : str) (cwd : list str) (t : Z)
    (w : demo_world) : Shell.outcome * demo_world :=
  (Shell.Completed 0 [] [], w).

Definition demo_subprocess_argv (cmd : list str) (cwd : list str) (t : Z)
    (w : demo_world) : Deps.outcome * demo_world :=
  (Deps.Completed 0 [] [], w).

Definition quiet_subprocess (command : str) (cwd : list str) (t : Z) (w : unit)
  : Shell.outcome * unit :=
  (Shell.Completed (if startswith (py "pytest") command then 0 else 1) [] [], w).


Definition demo_git (branch : str) (create : bool) (w : demo_world)
  : Executor.GitResult * demo_world :=
  ({| Executor.git_success := false;
      Executor.git_message := py "no repository" |}, w).

Definition demo_clock (x : unit) : Z := 1700000000.

Definition python_verifier : Verifier.Verifier :=
  {| Verifier.repo_root := [py "repo"]; Verifier.config := Config.default;
     Verifier.language := Some (py "python") |}.

(** The loop before its first action, with the plan of the examples. *)
Definition demo_loop : Agent.loop demo_world :=
  {| Agent.res := Agent.initial_results;
     Agent.state := Agent.set_plan (plan_of [edit_action; write_action]) demo_state;
     Agent.context := []; Agent.world := (demo_fs, tt); Agent.calls := [] |}.


(** * Properties *)

(** ** Path jail *)

Section PathJail.

Import Fs.

Variable unified_diff : list str -> list str -> str -> str -> list str.
Variable self : FileSystemTool.

Lemma jail_violation_rejected path :
  jail_violation self path → ∃ msg, validate_path self path = inl (ValueError msg).
Proof.
  intros Hv. unfold validate_path.
  destruct (bool_decide (NUL ∈ path)); [by eexists|].
  destruct (under _ _) eqn:Hu; simpl; [|by eexists].
  destruct Hv as [-> | Hv]; [by eexists | congruence].
Qed.

(** C1.  A path that is absolute, or whose resolved form is not the
    repository root or a descendant of it, is rejected by [_validate_path]
    with a [ValueError]; each of the six operations then returns the failed
    result made from that error alone, whatever the file system holds, and
    the four mutating operations return the file system as it was. *)
Theorem path_jail_rejects_every_operation path :
  jail_violation self path →
  ∃ msg,
    validate_path self path = inl (ValueError msg) ∧
    success (rejection "Error reading " path (ValueError msg)) = false ∧
    (∀ fs, read self fs path
           = rejection "Error reading " path (ValueError msg)) ∧
    (∀ fs content, write unified_diff self fs path content
           = (rejection "Error writing " path (ValueError msg), fs)) ∧
    (∀ fs old_text new_text, edit unified_diff self fs path old_text new_text
           = (rejection "Error editing " path (ValueError msg), fs)) ∧
    (∀ fs line_number content operation,
         insert_lines unified_diff self fs path line_number content operation
           = (rejection "Error inserting in " path (ValueError msg), fs)) ∧
    (∀ fs timestamp, delete self timestamp fs path
           = (rejection "Error deleting " path (ValueError msg), fs)) ∧
    (∀ fs, list_directory self fs path
           = rejection "Error listing " path (ValueError msg)).
Proof.
  intros Hv. destruct (jail_violation_rejected path Hv) as [msg Hmsg].
  exists msg. split; [done|]. split; [done|].
  unfold read, write, edit, insert_lines, delete, list_directory.
  rewrite Hmsg. by repeat split.
Qed.

End PathJail.

Lemma path_jail_rejects_every_operation_witness :
  jail_violation demo_tool (py "../etc/passwd") ∧
  ∃ msg,
    Fs.validate_path demo_tool (py "../etc/passwd") = inl (Fs.ValueError msg) ∧
    Fs.success (rejection "Error reading " (py "../etc/passwd") (Fs.ValueError msg))
      = false ∧
    (∀ fs, Fs.read demo_tool fs (py "../etc/passwd")
           = rejection "Error reading " (py "../etc/passwd") (Fs.ValueError msg)) ∧
    (∀ fs content, Fs.write demo_diff demo_tool fs (py "../etc/passwd") content
           = (rejection "Error writing " (py "../etc/passwd") (Fs.ValueError msg), fs)) ∧
    (∀ fs old_text new_text,
         Fs.edit demo_diff demo_tool fs (py "../etc/passwd") old_text new_text
           = (rejection "Error editing " (py "../etc/passwd") (Fs.ValueError msg), fs)) ∧
    (∀ fs line_number content operation,
         Fs.insert_lines demo_diff demo_tool fs (py "../etc/passwd")
                         line_number content operation
           = (rejection "Error inserting in " (py "../etc/passwd")
                        (Fs.ValueError msg), fs)) ∧
    (∀ fs timestamp, Fs.delete demo_tool timestamp fs (py "../etc/passwd")
           = (rejection "Error deleting " (py "../etc/passwd") (Fs.ValueError msg), fs)) ∧
    (∀ fs, Fs.list_directory demo_tool fs (py "../etc/passwd")
           = rejection "Error listing " (py "../etc/passwd") (Fs.ValueError msg)).
Proof.
  assert (H : jail_violation demo_tool (py "../etc/passwd")).
  { right. vm_compute. reflexivity. }
  split; [exact H|].
  exact (path_jail_rejects_every_operation demo_diff demo_tool (py "../etc/passwd") H).
Defined.

(** ** Shell adapter *)

Section ShellRun.

Import Shell.

Variable W : Type.
Variable re_search : str -> str -> bool.
Variable subprocess_run : str -> list str -> Z -> W -> outcome * W.
Variable self : ShellTool.

(** Without a caller-supplied timeout the configured one is used. *)
Lemma default_timeout_is_max_timeout : actual_timeout self None = max_timeout self.
Proof. reflexivity. Qed.

(** An expired timeout is a failed result with its own message, not an
    exception. *)
Lemma timeout_expiry_is_a_result command timeout w w' :
  validate_command re_search self command = None →
  subprocess_run command (repo_root self) (actual_timeout self timeout) w
    = (TimeoutExpired, w') →
  run W re_search subprocess_run self command timeout w
    = (rejected command (py "Command timed out after "
                           ++ str_of_Z (actual_timeout self timeout) ++ py "s"), w').
Proof. intros Hv Hs. unfold run. by rewrite Hv, Hs. Qed.

(** C3.  When the basename of the first word of the command is not in
    the allowlist, [run] returns the rejection (failed, empty stdout and
    stderr, exit code -1, a message naming the command) and the world it
    was given: the result is the same for every subprocess and every
    regular-expression engine, so neither is consulted. *)
Theorem not_allowlisted_never_runs command timeout w :
  base_command command ∉ allowlist self →
  let r := run W re_search subprocess_run self command timeout w in
  r = (rejected command
         (py "Command rejected: Command '" ++ base_command command
            ++ py "' not in allowlist"), w)
  ∧ success r.1 = false ∧ stdout r.1 = [] ∧ stderr r.1 = []
  ∧ exit_code r.1 = (-1)%Z ∧ r.2 = w.
Proof.
  intros Hn r.
  assert (Hr : r = (rejected command
         (py "Command rejected: Command '" ++ base_command command
            ++ py "' not in allowlist"), w)).
  { unfold r, run, validate_command.
    rewrite bool_decide_eq_false_2 by done. reflexivity. }
  rewrite Hr. by repeat split.
Qed.

End ShellRun.

Lemma not_allowlisted_never_runs_witness :
  (Shell.base_command (py "  /bin/rm -rf /tmp/x") ∉ Shell.allowlist demo_shell) ∧
  (let r := Shell.run unit literal_search echo_timeout demo_shell
                      (py "  /bin/rm -rf /tmp/x") None tt in
   r = (Shell.rejected (py "  /bin/rm -rf /tmp/x")
          (py "Command rejected: Command '"
             ++ Shell.base_command (py "  /bin/rm -rf /tmp/x")
             ++ py "' not in allowlist"), tt)
   ∧ Shell.success r.1 = false ∧ Shell.stdout r.1 = [] ∧ Shell.stderr r.1 = []
   ∧ Shell.exit_code r.1 = (-1)%Z ∧ r.2 = tt).
Proof.
  assert (H : Shell.base_command (py "  /bin/rm -rf /tmp/x")
              ∉ Shell.allowlist demo_shell).
  { apply (bool_decide_unpack _). vm_compute. exact I. }
  split; [exact H|].
  exact (not_allowlisted_never_runs unit literal_search echo_timeout demo_shell
           (py "  /bin/rm -rf /tmp/x") None tt H).
Defined.

Example base_command_examples :
  Shell.base_command (py "/usr/bin/python -m pytest") = py "python"
  ∧ Shell.base_command (py "  git status") = py "git"
  ∧ Shell.base_command [] = [].
Proof. repeat split; vm_compute; reflexivity. Qed.

(** C2, at the input where it fails.  With [max_timeout = 120], a caller
    that asks for 1000 seconds gets 1000 seconds: the subprocess, which
    here prints the timeout it is run with, prints 1000. *)
Theorem caller_timeout_is_not_bounded :
  Shell.max_timeout demo_shell = 120%Z
  ∧ Shell.actual_timeout demo_shell (Some 1000%Z) = 1000%Z
  ∧ (Shell.max_timeout demo_shell
       < Shell.actual_timeout demo_shell (Some 1000%Z))%Z
  ∧ Shell.run unit literal_search echo_timeout demo_shell
              (py "python job.py") (Some 1000%Z) tt
    = ({| Shell.success := true; Shell.command := py "python job.py";
          Shell.stdout := py "1000"; Shell.stderr := [];
          Shell.exit_code := 0;
          Shell.message := py "Command executed successfully" |}, tt).
Proof. repeat split; vm_compute; reflexivity. Qed.

(** ** Observation classifier *)

Section Observe.

Import Schemas Agent.

Lemma classify_first_rule message :
  classify message = first_rule marker_table (lower message).
Proof.
  unfold classify, first_rule, marker_table, existsb.
  repeat match goal with
         | |- context [contains ?m ?t] => destruct (contains m t); simpl
         end; reflexivity.
Qed.

(** The scan does not see the case of letters. *)
Lemma classify_ignores_case m1 m2 :
  lower m1 = lower m2 → classify m1 = classify m2.
Proof. intros H. unfold classify. by rewrite H. Qed.

(** C9.  For a failed result the classifier gives the category of the
    first rule of the table (import, syntax, not found / does not exist,
    permission, else unknown) with a marker in the lower-cased message,
    and the observation cannot be retried exactly when that category is
    [PermissionError]. *)
Theorem observe_classifies_failures action result :
  Executor.success result = false →
  error_type (observe action result)
    = Some (first_rule marker_table (lower (Executor.message result)))
  ∧ (can_retry (observe action result) = false
     ↔ error_type (observe action result) = Some (py "PermissionError")).
Proof.
  intros Hf. unfold observe. rewrite Hf. cbn [negb error_type can_retry].
  rewrite <- classify_first_rule. split; [reflexivity|].
  unfold classify.
  repeat match goal with
         | |- context [contains ?m ?t] => destruct (contains m t); simpl
         end; vm_compute; split; congruence.
Qed.

End Observe.

Lemma observe_classifies_failures_witness :
  Executor.success (failure "Permission denied: cannot IMPORT module") = false ∧
  Schemas.error_type
    (Agent.observe edit_action (failure "Permission denied: cannot IMPORT module"))
    = Some (first_rule marker_table
              (lower (Executor.message
                        (failure "Permission denied: cannot IMPORT module"))))
  ∧ (Schemas.can_retry
       (Agent.observe edit_action (failure "Permission denied: cannot IMPORT module"))
       = false
     ↔ Schemas.error_type
         (Agent.observe edit_action (failure "Permission denied: cannot IMPORT module"))
       = Some (py "PermissionError")).
Proof.
  split; [reflexivity|].
  exact (observe_classifies_failures edit_action
           (failure "Permission denied: cannot IMPORT module") eq_refl).
Defined.

Example classifier_priority :
  Agent.classify (py "Permission denied: cannot IMPORT module") = py "ImportError"
  ∧ Agent.classify (py "Permission denied") = py "PermissionError"
  ∧ Agent.classify (py "File Not Found: a.txt") = py "FileNotFoundError"
  ∧ Agent.classify (py "invalid SYNTAX") = py "SyntaxError"
  ∧ Agent.classify (py "Command failed") = py "UnknownError".
Proof. repeat split; vm_compute; reflexivity. Qed.

(** ** Approval gate *)

Section AssessPlan.

Import Schemas Approvals.

Variable re_search_ignorecase : str -> str -> bool.
Variable self : ApprovalSystem.

Lemma Qgtb_lt a b : Qgtb a b = true ↔ (b < a)%Q.
Proof.
  unfold Qgtb. rewrite negb_true_iff, <- not_true_iff_false, Qle_bool_iff.
  split; [apply Qnot_le_lt | apply Qlt_not_le].
Qed.

Lemma Qgtb_le a b : Qgtb a b = false ↔ (a <= b)%Q.
Proof. unfold Qgtb. by rewrite negb_false_iff, Qle_bool_iff. Qed.

(** [py_max] exceeds a bound exactly when some element does. *)
Lemma py_max_gt a first rest :
  Qgtb (py_max first rest) a
  = Qgtb first a || existsb (fun x => Qgtb x a) rest.
Proof.
  revert first. induction rest as [|x rest IH]; intros first; simpl.
  - by rewrite orb_false_r.
  - unfold py_max in *. simpl. rewrite IH.
    destruct (Qgtb x first) eqn:Hx.
    + apply Qgtb_lt in Hx.
      destruct (Qgtb first a) eqn:Hf; simpl; [|done].
      apply Qgtb_lt in Hf.
      assert (Hxa : Qgtb x a = true) by (apply Qgtb_lt; by eapply Qlt_trans).
      by rewrite Hxa.
    + apply Qgtb_le in Hx.
      destruct (Qgtb x a) eqn:Hxa; simpl; [|done].
      apply Qgtb_lt in Hxa.
      assert (Hf : Qgtb first a = true) by (apply Qgtb_lt; by eapply Qlt_le_trans).
      by rewrite Hf.
Qed.

(** [py_max] is one of the scores and no score is above it. *)
Lemma py_max_is_maximum first rest :
  py_max first rest ∈ first :: rest
  ∧ ∀ x, x ∈ first :: rest → (x <= py_max first rest)%Q.
Proof.
  revert first. induction rest as [|y rest IH]; intros first.
  - split; [left|]. intros x ->%list_elem_of_singleton. apply Qle_refl.
  - unfold py_max in *. simpl.
    destruct (IH (if Qgtb y first then y else first)) as [Hin Hub].
    split.
    + apply elem_of_cons in Hin as [Hin|Hin].
      * rewrite Hin. destruct (Qgtb y first); [right; left | left].
      * by do 2 right.
    + intros x Hx.
      assert (Hm : ((if Qgtb y first then y else first)
                    <= fold_left (λ m x0 : Q, if Qgtb x0 m then x0 else m) rest
                         (if Qgtb y first then y else first))%Q)
        by (apply Hub; left).
      apply elem_of_cons in Hx as [->|Hx];
        [|apply elem_of_cons in Hx as [->|Hx]].
      * eapply Qle_trans; [|exact Hm].
        destruct (Qgtb y first) eqn:Hy; [|apply Qle_refl].
        apply Qgtb_lt in Hy. by apply Qlt_le_weak.
      * eapply Qle_trans; [|exact Hm].
        destruct (Qgtb y first) eqn:Hy; [apply Qle_refl|].
        by apply Qgtb_le in Hy.
      * apply Hub. by right.
Qed.

Lemma risk_trigger_max plan first rest :
  steps plan = first :: rest →
  risk_trigger self plan
  = Qgtb (py_max (Schemas.risk_score first) (Schemas.risk_score <$> rest)) (auto_approve_max self).
Proof.
  intros Hs. unfold risk_trigger. rewrite Hs, py_max_gt.
  cbn [existsb]. f_equal. clear Hs.
  induction rest as [|x rest IH]; [done|].
  rewrite fmap_cons. cbn [existsb]. by rewrite IH.
Qed.

Lemma delete_count_filter plan :
  Z.of_nat (length (filter (λ step, type step = FS_DELETE) (steps plan)))
  = delete_count plan.
Proof.
  unfold delete_count. induction (steps plan) as [|x l IH]; simpl; [done|].
  rewrite filter_cons. case_bool_decide as Hx.
  - rewrite decide_True by done. simpl length. lia.
  - by rewrite decide_False.
Qed.

(** What [_is_dangerous_shell] answers on a shell step. *)
Lemma is_dangerous_shell_step step :
  type step = SHELL_RUN →
  is_dangerous_shell re_search_ignorecase self step
  = if unscannable_step self step then None
    else Some (dangerous_step re_search_ignorecase self step).
Proof.
  intros Ht.
  unfold is_dangerous_shell, is_dangerous_shell_cmd, unscannable_step,
    dangerous_step, scanned_command.
  rewrite !bool_decide_eq_true_2 by done. cbn [negb andb].
  destruct (get_or (command (args step)) []) as [c|]; [done|].
  rewrite (bool_decide_eq_true_2 (None = None)) by done.
  by destruct (dangerous_patterns self).
Qed.

(** The scan of the shell steps: it raises on an unscannable step met
    before any dangerous one, and otherwise tells whether a step is
    dangerous. *)
Lemma shell_scan l :
  py_any (is_dangerous_shell re_search_ignorecase self)
         (filter (λ step, type step = SHELL_RUN) l)
  = if scan_raises re_search_ignorecase self l then None
    else Some (existsb (dangerous_step re_search_ignorecase self) l).
Proof.
  induction l as [|x l IH]; [done|].
  rewrite filter_cons. cbn [scan_raises existsb].
  destruct (decide (type x = SHELL_RUN)) as [Hx|Hx].
  - cbn [py_any]. rewrite (is_dangerous_shell_step x Hx).
    destruct (unscannable_step self x); [done|].
    destruct (dangerous_step re_search_ignorecase self x); [done|].
    by rewrite IH.
  - rewrite IH. unfold unscannable_step, dangerous_step.
    by rewrite (bool_decide_eq_false_2 _ Hx).
Qed.

(** The scan finds nothing exactly when every shell step is searched
    without a match. *)
Lemma shell_scan_clean l :
  py_any (is_dangerous_shell re_search_ignorecase self)
         (filter (λ step, type step = SHELL_RUN) l) = Some false
  ↔ ∀ step, step ∈ l → type step = SHELL_RUN →
            is_dangerous_shell re_search_ignorecase self step = Some false.
Proof.
  induction l as [|x l IH].
  { split; [|done]. by intros _ step ?%elem_of_nil. }
  rewrite filter_cons.
  destruct (decide (type x = SHELL_RUN)) as [Hx|Hx].
  - cbn [py_any].
    destruct (is_dangerous_shell re_search_ignorecase self x) as [[|]|] eqn:Hd.
    + split; [done|]. intros H. specialize (H x (list_elem_of_here _ _) Hx).
      congruence.
    + rewrite IH. split.
      * intros H step [->|Hin]%elem_of_cons; [done|by apply H].
      * intros H step Hin. by apply H, list_elem_of_further.
    + split; [done|]. intros H. specialize (H x (list_elem_of_here _ _) Hx).
      congruence.
  - rewrite IH. split.
    + intros H step [->|Hin]%elem_of_cons; [done|by apply H].
    + intros H step Hin. by apply H, list_elem_of_further.
Qed.

(** The decision of [assess_plan] wherever it returns one.  A plan
    without steps is refused without asking for confirmation.  On a plan
    with steps [assess_plan] raises exactly when the scan of its shell
    steps does; when it returns, the decision is an approval exactly when
    none of the three triggers fires (some step's risk, which is to say
    the maximum risk, above the threshold; more delete steps than allowed;
    a shell step matching a dangerous pattern); an approval carries the
    reason "Low risk, auto-approved" and asks for no confirmation; a
    refusal asks for confirmation and its reason joins, with "; ", the
    reasons of the triggers that fired; the score of the decision is the
    maximum risk. *)
Theorem assess_plan_decision plan :
  match steps plan with
  | [] =>
      ∃ d, assess_plan re_search_ignorecase self plan = Some d
           ∧ approved d = false ∧ requires_confirmation d = false
  | first :: rest =>
      let max_risk := py_max (Schemas.risk_score first) (Schemas.risk_score <$> rest) in
      (assess_plan re_search_ignorecase self plan = None
       ↔ scan_raises re_search_ignorecase self (steps plan) = true)
      ∧ ∀ d, assess_plan re_search_ignorecase self plan = Some d →
        (approved d = true
         ↔ risk_trigger self plan = false ∧ delete_trigger self plan = false
           ∧ shell_trigger re_search_ignorecase self plan = false)
        ∧ (approved d = true
           → reason d = py "Low risk, auto-approved"
             ∧ requires_confirmation d = false)
        ∧ (approved d = false
           → requires_confirmation d = true
             ∧ reason d = join (py "; ")
                            (fired_reasons re_search_ignorecase self plan max_risk))
        ∧ Approvals.risk_score d = max_risk
        ∧ risk_trigger self plan = Qgtb max_risk (auto_approve_max self)
  end.
Proof.
  unfold assess_plan.
  destruct (steps plan) as [|first rest] eqn:Hs; [by eexists|].
  rewrite <- Hs. rewrite delete_count_filter, shell_scan.
  rewrite <- (risk_trigger_max plan first rest Hs).
  fold (shell_trigger re_search_ignorecase self plan).
  cbv zeta.
  destruct (scan_raises re_search_ignorecase self (steps plan));
    [by split; [|intros d [=]]|].
  split; [done|]. intros d [= <-].
  unfold fired_reasons, delete_trigger.
  destruct (risk_trigger self plan), (_ <? _)%Z,
    (shell_trigger re_search_ignorecase self plan);
    simpl; (repeat split; try done; intros; intuition congruence).
Qed.

(** When [assess_plan] approves: the plan has steps, no risk is above
    the threshold, the delete steps are within the allowance and every
    shell step was searched without a match. *)
Lemma assess_plan_approved plan :
  (∃ d, assess_plan re_search_ignorecase self plan = Some d
        ∧ approved d = true)
  ↔ steps plan ≠ []
    ∧ risk_trigger self plan = false ∧ delete_trigger self plan = false
    ∧ ∀ step, step ∈ steps plan → type step = SHELL_RUN →
              is_dangerous_shell re_search_ignorecase self step = Some false.
Proof.
  rewrite <- shell_scan_clean. unfold assess_plan.
  destruct (steps plan) as [|first rest] eqn:Hs.
  { split; [by intros (d & [= <-] & ?)|by intros [? _]]. }
  rewrite <- Hs. rewrite delete_count_filter.
  rewrite <- (risk_trigger_max plan first rest Hs).
  unfold delete_trigger. rewrite Hs at 1.
  destruct (py_any _ _) as [[|]|].
  - split; [|by intros (_ & _ & _ & [=])].
    intros (d & [= <-] & Ha).
    by destruct (risk_trigger self plan), (_ <? _)%Z.
  - destruct (risk_trigger self plan), (_ <? _)%Z; cbn;
      (split; [intros (d & [= <-] & Ha); by try discriminate Ha
              |intros (? & ? & ? & ?); try done]).
    by eexists.
  - split; [by intros (d & [=] & ?)|by intros (_ & _ & _ & [=])].
Qed.

End AssessPlan.

(** C4.  The plan [[null_shell_action]] has one step, a shell step of
    risk 0.1 whose command is bound to [None].  None of the three triggers
    fires on it (no risk above the threshold, no delete step, no shell
    step matching a dangerous pattern), so that the decision should be
    the approval; yet [assess_plan] returns no decision: the search of the
    first pattern raises.  So does [assess_action] on the step, while the
    executor answers the same step with its failed result "Missing
    command", changing nothing. *)
Theorem assess_plan_raises_on_null_command :
  let self := Approvals.init (3 # 10) 3 None in
  let plan := plan_of [null_shell_action] in
  Approvals.assess_plan literal_search self plan = None
  ∧ Schemas.steps plan ≠ []
  ∧ risk_trigger self plan = false
  ∧ delete_trigger self plan = false
  ∧ shell_trigger literal_search self plan = false
  ∧ Approvals.assess_action literal_search self null_shell_action = None
  ∧ ∀ X unified_diff re_search subprocess_run deps_install git_checkout clock
      executor (w : Fs.filesystem * X),
      Executor.execute X unified_diff re_search subprocess_run deps_install
        git_checkout clock executor null_shell_action false w
      = (Executor.missing "Missing command", w).
Proof.
  cbv zeta. split; [by vm_compute|]. split; [done|].
  split; [by vm_compute|]. split; [by vm_compute|]. split; [by vm_compute|].
  split; [by vm_compute|]. done.
Qed.

(** The scenario of the specification: one step of risk 0.9 against a
    threshold of 0.3. *)
Example assess_plan_high_risk :
  Approvals.assess_plan literal_search (Approvals.init (3 # 10) 3 None)
    (plan_of [{| Schemas.type := Schemas.FS_WRITE; Schemas.rationale := [];
                 Schemas.args := Schemas.no_args; Schemas.target_files := [];
                 Schemas.risk_score := 9 # 10 |}])
  = Some
    {| Approvals.approved := false; Approvals.risk_score := 9 # 10;
       Approvals.reason := py "High risk action (score: 0.90)";
       Approvals.requires_confirmation := true |}.
Proof. vm_compute. reflexivity. Qed.

Example assess_plan_low_risk_and_empty :
  Approvals.assess_plan literal_search (Approvals.init (3 # 10) 3 None)
    (plan_of [edit_action; write_action])
  = Some
    {| Approvals.approved := true; Approvals.risk_score := 1 # 10;
       Approvals.reason := py "Low risk, auto-approved";
       Approvals.requires_confirmation := false |}
  ∧ Approvals.assess_plan literal_search (Approvals.init (3 # 10) 3 None)
      (plan_of [])
    = Some
      {| Approvals.approved := false; Approvals.risk_score := 0;
         Approvals.reason := py "Plan has no steps";
         Approvals.requires_confirmation := false |}.
Proof. split; vm_compute; reflexivity. Qed.

Example format_2f_examples :
  Approvals.format_2f (9 # 10) = py "0.90"
  ∧ Approvals.format_2f (1 # 8) = py "0.12"
  ∧ Approvals.format_2f (3 # 8) = py "0.38"
  ∧ Approvals.format_2f 1 = py "1.00"
  ∧ Approvals.format_2f (1 # 3) = py "0.33".
Proof. repeat split; vm_compute; reflexivity. Qed.

(** ** Orchestration loop *)

Section LoopProperties.

Import Schemas Agent.

Variable W : Type.
Variable execute : Action -> W -> Executor.ExecutionResult * W.
Variable fs_read : str -> W -> Fs.FileOperation.
Variable llm_plan : list (str * str) -> list (str * str) -> W -> Plan * W.
Variable llm_reflect :
  Plan -> str -> list str -> W -> option ReflectionResult * W.
Variable retrieve : str -> W -> list (str * str) * W.
Variable verify : W -> VerificationResult * W.
Variable isoformat_now : W -> str.

#[local] Abbreviation run_action' :=
  (run_action W execute fs_read llm_reflect isoformat_now).
#[local] Abbreviation run_actions' :=
  (run_actions W execute fs_read llm_reflect isoformat_now).
#[local] Abbreviation track' := (track W isoformat_now).
#[local] Abbreviation repair' := (reflect_and_repair W execute llm_reflect).
#[local] Abbreviation agent_loop' :=
  (agent_loop W execute fs_read llm_plan llm_reflect retrieve verify isoformat_now).

Lemma observe_success a r :
  Schemas.success (observe a r) = Executor.success r.
Proof. reflexivity. Qed.

Lemma observe_message a r : message (observe a r) = Executor.message r.
Proof. reflexivity. Qed.

Lemma observe_diff_failure a r :
  Executor.success r = false → diff (observe a r) = None.
Proof. intros H. unfold observe. by rewrite H. Qed.

(** What tracking leaves alone. *)
Lemma track_frame a o (l : loop W) :
  world (track' a o l) = world l
  ∧ calls (track' a o l) = calls l
  ∧ context (track' a o l) = context l
  ∧ success (res (track' a o l)) = success (res l)
  ∧ self_corrections (res (track' a o l)) = self_corrections (res l)
  ∧ iterations (res (track' a o l)) = iterations (res l)
  ∧ current_plan (state (track' a o l)) = current_plan (state l).
Proof.
  unfold track. destruct (diff o) as [[|c d]|]; repeat split; try reflexivity.
Qed.

Lemma track_diffs_failure a o (l : loop W) :
  diff o = None → diffs (state (track' a o l)) = diffs (state l).
Proof. intros H. unfold track. by rewrite H. Qed.

(** After a retryable failure the body of the loop is the [try] block. *)
Lemma run_action_retryable action (l : loop W) r w1 :
  execute action (world l) = (r, w1) →
  Executor.success r = false →
  can_retry (observe action r) = true →
  run_action' action l
  = repair' (observe action r)
      (track' action (observe action r)
         {| res := res l; state := state l; context := context l;
            world := w1; calls := calls l ++ [action] |}).
Proof.
  intros He Hf Hr. unfold run_action, call. rewrite He. cbv zeta.
  rewrite observe_success, Hf, Hr. cbn [negb].
  by destruct (repair' _ _).
Qed.

(** The [try] block with a fix plan that has steps: the first fix action
    is executed and decides. *)
Lemma repair_first_fix_decides o (l : loop W) plan refl w2 f more fr w3 :
  current_plan (state l) = Some plan →
  llm_reflect plan (message o) (diffs (state l)) (world l) = (Some refl, w2) →
  Schemas.steps (fix_plan refl) = f :: more →
  execute f w2 = (fr, w3) →
  ∃ l', repair' o l = (if Executor.success fr then Next l' else Return l')
        ∧ success (res l') = success (res l) && Executor.success fr
        ∧ self_corrections (res l') = self_corrections (res l) + 1
        ∧ iterations (res l') = iterations (res l)
        ∧ world l' = w3
        ∧ calls l' = calls l ++ [f].
Proof.
  intros Hp Hrefl Hs Hfix. unfold reflect_and_repair.
  rewrite Hp, Hrefl, Hs. cbn [take]. unfold run_fixes, call.
  cbn [with_res world res state context calls]. rewrite Hfix.
  destruct (Executor.success fr) eqn:Hfr.
  - eexists. split; [reflexivity|].
    destruct (context_update (observe f fr)); cbn; rewrite andb_true_r; done.
  - eexists. split; [reflexivity|]. cbn. by rewrite andb_false_r.
Qed.

(** The [try] block with a fix plan without steps does nothing. *)
Lemma repair_empty_plan o (l : loop W) plan refl w2 :
  current_plan (state l) = Some plan →
  llm_reflect plan (message o) (diffs (state l)) (world l) = (Some refl, w2) →
  Schemas.steps (fix_plan refl) = [] →
  repair' o l
  = Next {| res := res l; state := state l; context := context l;
            world := w2; calls := calls l |}.
Proof.
  intros Hp Hrefl Hs. unfold reflect_and_repair. by rewrite Hp, Hrefl, Hs.
Qed.

Lemma py_take_one {A} k (a : A) : (1 <= k)%Z → py_take k [a] = [a].
Proof.
  intros Hk. unfold py_take. rewrite (proj2 (Z.leb_le 0 k)) by lia.
  destruct (Z.to_nat k) as [|n] eqn:Hn; [lia|]. by destruct n.
Qed.

(** A retryable failure whose fix plan has steps, inside the loop body. *)
Lemma run_action_self_correction action (l : loop W) r w1 plan refl w2 f more fr w3 :
  execute action (world l) = (r, w1) →
  Executor.success r = false →
  can_retry (observe action r) = true →
  current_plan (state l) = Some plan →
  llm_reflect plan (Executor.message r) (diffs (state l)) w1 = (Some refl, w2) →
  Schemas.steps (fix_plan refl) = f :: more →
  execute f w2 = (fr, w3) →
  ∃ l', run_action' action l
        = (if Executor.success fr then Next l' else Return l')
        ∧ success (res l') = success (res l) && Executor.success fr
        ∧ self_corrections (res l') = self_corrections (res l) + 1
        ∧ iterations (res l') = iterations (res l)
        ∧ world l' = w3
        ∧ calls l' = calls l ++ [action; f].
Proof.
  intros He Hf Hr Hp Hrefl Hs Hfix.
  rewrite (run_action_retryable action l r w1 He Hf Hr).
  set (l1 := {| res := res l; state := state l; context := context l;
                world := w1; calls := calls l ++ [action] |}).
  destruct (track_frame action (observe action r) l1)
    as (Hw & Hc & _ & Hsu & Hsc & Hi & Hcp).
  destruct (repair_first_fix_decides (observe action r)
              (track' action (observe action r) l1) plan refl w2 f more fr w3)
    as (l' & Hrun & H1 & H2 & H3 & H4 & H5).
  - by rewrite Hcp.
  - rewrite Hw, track_diffs_failure by by apply observe_diff_failure.
    by rewrite observe_message.
  - done.
  - done.
  - exists l'. rewrite Hrun, H1, H2, H3, H4, H5, Hsu, Hsc, Hi, Hc.
    subst l1. cbn. by rewrite <- app_assoc.
Qed.

(** A retryable failure whose fix plan has no steps, inside the loop body. *)
Lemma run_action_empty_fix_plan action (l : loop W) r w1 plan refl w2 :
  execute action (world l) = (r, w1) →
  Executor.success r = false →
  can_retry (observe action r) = true →
  current_plan (state l) = Some plan →
  llm_reflect plan (Executor.message r) (diffs (state l)) w1 = (Some refl, w2) →
  Schemas.steps (fix_plan refl) = [] →
  ∃ l', run_action' action l = Next l'
        ∧ success (res l') = success (res l)
        ∧ self_corrections (res l') = self_corrections (res l)
        ∧ world l' = w2
        ∧ calls l' = calls l ++ [action].
Proof.
  intros He Hf Hr Hp Hrefl Hs.
  rewrite (run_action_retryable action l r w1 He Hf Hr).
  set (l1 := {| res := res l; state := state l; context := context l;
                world := w1; calls := calls l ++ [action] |}).
  destruct (track_frame action (observe action r) l1)
    as (Hw & Hc & _ & Hsu & Hsc & Hi & Hcp).
  rewrite (repair_empty_plan (observe action r)
             (track' action (observe action r) l1) plan refl w2).
  - eexists. split; [reflexivity|]. cbn [res world calls].
    by rewrite Hsu, Hsc, Hc.
  - by rewrite Hcp.
  - rewrite Hw, track_diffs_failure by by apply observe_diff_failure.
    by rewrite observe_message.
  - done.
Qed.

(** A run of one iteration whose only action fails retryably and whose
    reflector returns a fix plan with steps. *)
Lemma agent_loop_one_iteration s user_message k w ctx w0 plan w1 a r w2
    refl w3 f more fr w4 :
  (1 <= k)%Z →
  retrieve user_message w = (ctx, w0) →
  llm_plan (messages (add_message (py "user") user_message s)) ctx w0
    = (plan, w1) →
  Schemas.steps plan = [a] →
  execute a w1 = (r, w2) →
  Executor.success r = false →
  can_retry (observe a r) = true →
  llm_reflect plan (Executor.message r) (diffs s) w2 = (Some refl, w3) →
  Schemas.steps (fix_plan refl) = f :: more →
  execute f w3 = (fr, w4) →
  let final := agent_loop' s user_message 1 k w in
  success (res final) = Executor.success fr
  ∧ self_corrections (res final) = 1
  ∧ iterations (res final) = 1
  ∧ calls final = [a; f].
Proof.
  intros Hk Hret Hplan Hsteps He Hf Hr Hrefl Hs Hfix final. subst final.
  unfold agent_loop. rewrite Hret, Hplan.
  change (Z.to_nat 1) with 1. cbn [iterate].
  rewrite Hsteps, py_take_one by done. cbn [run_actions].
  set (l0 := with_res W (set_iterations (0 + 1)) _).
  destruct (run_action_self_correction a l0 r w2 plan refl w3 f more fr w4)
    as (l' & Hrun & H1 & H2 & H3 & H4 & H5); try done.
  rewrite Hrun. cbn in H1, H2, H3, H5.
  destruct (Executor.success fr).
  - cbn [run_actions]. unfold verify_changes.
    destruct (verify (world l')) as [v w5].
    case_bool_decide; cbn; by rewrite ?H1, ?H2, ?H3, ?H5.
  - by rewrite H1, H2, H3, H5.
Qed.

Lemma py_take_cons {A} k (a : A) rest :
  (1 <= k)%Z → py_take k (a :: rest) = a :: take (Z.to_nat k - 1) rest.
Proof.
  intros Hk. unfold py_take. rewrite (proj2 (Z.leb_le 0 k)) by lia.
  destruct (Z.to_nat k) as [|n] eqn:Hn; [lia|].
  cbn [take]. do 2 f_equal. lia.
Qed.

(** A failing fix action ends the run, whatever is left of the batch and
    of the iterations. *)
Lemma agent_loop_failing_fix s user_message n k w ctx w0 plan w1 a rest r w2
    refl w3 f more fr w4 :
  (1 <= n)%Z →
  (1 <= k)%Z →
  retrieve user_message w = (ctx, w0) →
  llm_plan (messages (add_message (py "user") user_message s)) ctx w0
    = (plan, w1) →
  Schemas.steps plan = a :: rest →
  execute a w1 = (r, w2) →
  Executor.success r = false →
  can_retry (observe a r) = true →
  llm_reflect plan (Executor.message r) (diffs s) w2 = (Some refl, w3) →
  Schemas.steps (fix_plan refl) = f :: more →
  execute f w3 = (fr, w4) →
  Executor.success fr = false →
  let final := agent_loop' s user_message n k w in
  success (res final) = false
  ∧ self_corrections (res final) = 1
  ∧ iterations (res final) = 1
  ∧ calls final = [a; f]
  ∧ world final = w4.
Proof.
  intros Hn Hk Hret Hplan Hsteps He Hf Hr Hrefl Hs Hfix Hfr final. subst final.
  unfold agent_loop. rewrite Hret, Hplan.
  destruct (Z.to_nat n) as [|todo] eqn:Htodo; [lia|]. cbn [iterate].
  rewrite Hsteps, py_take_cons by done. cbn [run_actions].
  set (l0 := with_res W (set_iterations (0 + 1)) _).
  destruct (run_action_self_correction a l0 r w2 plan refl w3 f more fr w4)
    as (l' & Hrun & H1 & H2 & H3 & H4 & H5); try done.
  rewrite Hrun, Hfr. cbn in H1, H2, H3, H5.
  by rewrite H1, H2, H3, H4, H5, Hfr.
Qed.

(** C5.  When a retryable failure leads the reflector to a fix plan with
    steps, exactly one fix action is executed, the first of the plan (so
    the fix actions executed are among the first two): the executor is
    called for the failed action and for that fix action and for nothing
    else, and the world is the one the fix action leaves.  If the fix
    action succeeds the fix attempt stops there and the batch goes on with
    its next action, the success flag as it was; if it fails the batch
    returns at once with [success = false]; either way one self-correction
    is counted.  A run of at most one iteration whose single action fails
    retryably therefore ends, after one iteration, one self-correction and
    these two calls, with [success = true] when the fix action succeeds and
    with [success = false] when it fails.  And whatever the number of
    iterations allowed and whatever is left of the batch, a failing fix
    action ends the run: with [success = false], in the first iteration,
    with these two calls and in the world the fix action left. *)
Theorem self_correction_runs_first_fix_only :
  (∀ action rest (l : loop W) r w1 plan refl w2 f more fr w3,
      execute action (world l) = (r, w1) →
      Executor.success r = false →
      can_retry (observe action r) = true →
      current_plan (state l) = Some plan →
      llm_reflect plan (Executor.message r) (diffs (state l)) w1
        = (Some refl, w2) →
      Schemas.steps (fix_plan refl) = f :: more →
      execute f w2 = (fr, w3) →
      ∃ l',
        run_action' action l
        = (if Executor.success fr then Next l' else Return l')
        ∧ run_actions' (action :: rest) l
          = (if Executor.success fr then run_actions' rest l' else Return l')
        ∧ calls l' = calls l ++ [action; f]
        ∧ world l' = w3
        ∧ [f] `prefix_of` take 2 (Schemas.steps (fix_plan refl))
        ∧ success (res l') = success (res l) && Executor.success fr
        ∧ self_corrections (res l') = self_corrections (res l) + 1
        ∧ iterations (res l') = iterations (res l))
  ∧
  (∀ s user_message k w ctx w0 plan w1 a r w2 refl w3 f more fr w4,
      (1 <= k)%Z →
      retrieve user_message w = (ctx, w0) →
      llm_plan (messages (add_message (py "user") user_message s)) ctx w0
        = (plan, w1) →
      Schemas.steps plan = [a] →
      execute a w1 = (r, w2) →
      Executor.success r = false →
      can_retry (observe a r) = true →
      llm_reflect plan (Executor.message r) (diffs s) w2 = (Some refl, w3) →
      Schemas.steps (fix_plan refl) = f :: more →
      execute f w3 = (fr, w4) →
      let final := agent_loop' s user_message 1 k w in
      success (res final) = Executor.success fr
      ∧ self_corrections (res final) = 1
      ∧ iterations (res final) = 1
      ∧ calls final = [a; f])
  ∧
  (∀ s user_message n k w ctx w0 plan w1 a rest r w2 refl w3 f more fr w4,
      (1 <= n)%Z →
      (1 <= k)%Z →
      retrieve user_message w = (ctx, w0) →
      llm_plan (messages (add_message (py "user") user_message s)) ctx w0
        = (plan, w1) →
      Schemas.steps plan = a :: rest →
      execute a w1 = (r, w2) →
      Executor.success r = false →
      can_retry (observe a r) = true →
      llm_reflect plan (Executor.message r) (diffs s) w2 = (Some refl, w3) →
      Schemas.steps (fix_plan refl) = f :: more →
      execute f w3 = (fr, w4) →
      Executor.success fr = false →
      let final := agent_loop' s user_message n k w in
      success (res final) = false
      ∧ self_corrections (res final) = 1
      ∧ iterations (res final) = 1
      ∧ calls final = [a; f]
      ∧ world final = w4).
Proof.
  split; [|split].
  - intros action rest l r w1 plan refl w2 f more fr w3 He Hf Hr Hp Hrefl Hs Hfix.
    destruct (run_action_self_correction action l r w1 plan refl w2 f more fr w3)
      as (l' & Hrun & H1 & H2 & H3 & H4 & H5); try done.
    exists l'. cbn [run_actions]. rewrite Hrun, Hs.
    split; [done|]. split; [by destruct (Executor.success fr)|].
    split; [done|]. split; [done|].
    split; [by exists (take 1 more)|]. done.
  - intros s user_message k w ctx w0 plan w1 a r w2 refl w3 f more fr w4
      Hk Hret Hplan Hsteps He Hf Hr Hrefl Hs Hfix.
    by apply (agent_loop_one_iteration s user_message k w ctx w0 plan w1 a r w2
                refl w3 f more fr w4).
  - intros s user_message n k w ctx w0 plan w1 a rest r w2 refl w3 f more fr w4
      Hn Hk Hret Hplan Hsteps He Hf Hr Hrefl Hs Hfix Hfr.
    by apply (agent_loop_failing_fix s user_message n k w ctx w0 plan w1 a rest
                r w2 refl w3 f more fr w4).
Qed.

(** C10.  When a retryable failure leads the reflector to a fix plan
    without steps, the loop body executes nothing more than the failed
    action, counts no self-correction, leaves the success flag as it was
    (so a run that was succeeding still is) and goes on with the rest of
    the batch. *)
Theorem empty_fix_plan_is_tolerated action rest (l : loop W) r w1 plan refl w2 :
  execute action (world l) = (r, w1) →
  Executor.success r = false →
  can_retry (observe action r) = true →
  current_plan (state l) = Some plan →
  llm_reflect plan (Executor.message r) (diffs (state l)) w1 = (Some refl, w2) →
  Schemas.steps (fix_plan refl) = [] →
  ∃ l', run_action' action l = Next l'
        ∧ run_actions' (action :: rest) l = run_actions' rest l'
        ∧ calls l' = calls l ++ [action]
        ∧ world l' = w2
        ∧ self_corrections (res l') = self_corrections (res l)
        ∧ success (res l') = success (res l)
        ∧ (success (res l) = true → success (res l') = true).
Proof.
  intros He Hf Hr Hp Hrefl Hs.
  destruct (run_action_empty_fix_plan action l r w1 plan refl w2)
    as (l' & Hrun & H1 & H2 & H3 & H4); try done.
  exists l'. cbn [run_actions]. rewrite Hrun.
  repeat split; try done. by rewrite H1.
Qed.

End LoopProperties.

(** The examples: the edit of the missing [a.txt] fails with a message
    that classifies as retryable. *)
Example demo_edit_fails_retryably :
  Executor.message (demo_execute edit_action (demo_fs, tt)).1
    = py "File not found: a.txt"
  ∧ Schemas.error_type
      (Agent.observe edit_action (demo_execute edit_action (demo_fs, tt)).1)
    = Some (py "FileNotFoundError")
  ∧ Schemas.can_retry
      (Agent.observe edit_action (demo_execute edit_action (demo_fs, tt)).1)
    = true.
Proof. repeat split; vm_compute; reflexivity. Qed.

Lemma self_correction_runs_first_fix_only_witness :
  let final :=
    Agent.agent_loop demo_world demo_execute demo_fs_read demo_plan
      demo_reflect demo_retrieve demo_verify demo_now
      demo_state (py "say goodbye") 1 3 (demo_fs, tt) in
  Agent.success (Agent.res final)
    = Executor.success (demo_execute write_action (demo_fs, tt)).1
  ∧ Agent.self_corrections (Agent.res final) = 1
  ∧ Agent.iterations (Agent.res final) = 1
  ∧ Agent.calls final = [edit_action; write_action].
Proof.
  refine (proj1 (proj2 (self_correction_runs_first_fix_only demo_world
                          demo_execute demo_fs_read demo_plan demo_reflect
                          demo_retrieve demo_verify demo_now))
            demo_state (py "say goodbye") 3%Z (demo_fs, tt)
            [] (demo_fs, tt) (plan_of [edit_action]) (demo_fs, tt)
            edit_action (demo_execute edit_action (demo_fs, tt)).1 (demo_fs, tt)
            {| Schemas.analysis := py "the file is missing";
               Schemas.fix_plan := plan_of [write_action] |}
            (demo_fs, tt) write_action []
            (demo_execute write_action (demo_fs, tt)).1
            (demo_execute write_action (demo_fs, tt)).2
            _ _ _ _ _ _ _ _ _ _).
  - lia.
  - reflexivity.
  - reflexivity.
  - reflexivity.
  - vm_compute. reflexivity.
  - vm_compute. reflexivity.
  - vm_compute. reflexivity.
  - reflexivity.
  - reflexivity.
  - vm_compute. reflexivity.
Defined.

(** The two scenarios of the specification, run. *)
Example scenario_fix_succeeds :
  let final :=
    Agent.agent_loop demo_world demo_execute demo_fs_read demo_plan
      demo_reflect demo_retrieve demo_verify demo_now
      demo_state (py "say goodbye") 1 3 (demo_fs, tt) in
  Agent.success (Agent.res final) = true
  ∧ Agent.self_corrections (Agent.res final) = 1
  ∧ Agent.iterations (Agent.res final) = 1
  ∧ Agent.calls final = [edit_action; write_action]
  ∧ (Agent.world final).1 !! [py "repo"; py "a.txt"] = Some (Fs.File (py "hello")).
Proof. repeat split; vm_compute; reflexivity. Qed.

(** The first fix action fails; the second, which would have succeeded,
    is not tried. *)
Example scenario_fix_fails :
  let final :=
    Agent.agent_loop demo_world demo_execute demo_fs_read demo_plan
      demo_reflect_again demo_retrieve demo_verify demo_now
      demo_state (py "say goodbye") 1 3 (demo_fs, tt) in
  Agent.success (Agent.res final) = false
  ∧ Agent.self_corrections (Agent.res final) = 1
  ∧ Agent.iterations (Agent.res final) = 1
  ∧ Agent.calls final = [edit_action; edit_action]
  ∧ (Agent.world final).1 !! [py "repo"; py "a.txt"] = None.
Proof. repeat split; vm_compute; reflexivity. Qed.

Lemma empty_fix_plan_is_tolerated_witness :
  let l0 : Agent.loop demo_world :=
    {| Agent.res := Agent.initial_results;
       Agent.state := Agent.set_plan (plan_of [edit_action; write_action]) demo_state;
       Agent.context := []; Agent.world := (demo_fs, tt); Agent.calls := [] |} in
  ∃ l',
    Agent.run_action demo_world demo_execute demo_fs_read demo_reflect_nothing
                     demo_now edit_action l0 = Agent.Next l'
    ∧ Agent.run_actions demo_world demo_execute demo_fs_read
        demo_reflect_nothing demo_now (edit_action :: [write_action]) l0
      = Agent.run_actions demo_world demo_execute demo_fs_read
          demo_reflect_nothing demo_now [write_action] l'
    ∧ Agent.calls l' = Agent.calls l0 ++ [edit_action]
    ∧ Agent.world l' = (demo_fs, tt)
    ∧ Agent.self_corrections (Agent.res l') = Agent.self_corrections (Agent.res l0)
    ∧ Agent.success (Agent.res l') = Agent.success (Agent.res l0)
    ∧ (Agent.success (Agent.res l0) = true → Agent.success (Agent.res l') = true).
Proof.
  intros l0.
  refine (empty_fix_plan_is_tolerated demo_world demo_execute demo_fs_read
            demo_reflect_nothing demo_now edit_action [write_action] l0
            (demo_execute edit_action (demo_fs, tt)).1 (demo_fs, tt)
            (plan_of [edit_action; write_action])
            {| Schemas.analysis := py "the file is missing";
               Schemas.fix_plan := plan_of [] |}
            (demo_fs, tt) _ _ _ _ _ _).
  - vm_compute. reflexivity.
  - vm_compute. reflexivity.
  - vm_compute. reflexivity.
  - reflexivity.
  - reflexivity.
  - reflexivity.
Defined.

(** With an empty fix plan the failed edit is passed over: the run of
    both actions ends with the success flag still set. *)
Example scenario_empty_fix_plan :
  let final :=
    Agent.agent_loop demo_world demo_execute demo_fs_read
      (fun _ _ w => (plan_of [edit_action; write_action], w))
      demo_reflect_nothing demo_retrieve demo_verify demo_now
      demo_state (py "say goodbye") 1 3 (demo_fs, tt) in
  Agent.success (Agent.res final) = true
  ∧ Agent.self_corrections (Agent.res final) = 0
  ∧ Agent.steps_executed (Agent.res final) = 2
  ∧ Agent.calls final = [edit_action; write_action].
Proof. repeat split; vm_compute; reflexivity. Qed.

(** ** Strings *)

Section Strings.

Lemma startswith_spec p s : startswith p s = true ↔ ∃ t, s = p ++ t.
Proof.
  revert s. induction p as [|a p IH]; intros s; simpl.
  - split; [by exists s | done].
  - destruct s as [|b s].
    + split; [done | by intros [t Ht]].
    + rewrite andb_true_iff, N.eqb_eq, IH. split.
      * intros [-> [t ->]]. by exists t.
      * intros [t Ht]. injection Ht as -> ->. split; [done | by exists t].
Qed.

Lemma startswith_drop p s :
  startswith p s = true → s = p ++ drop (length p) s.
Proof.
  intros [t ->]%startswith_spec. by rewrite drop_app_length.
Qed.

Lemma contains_spec sub s : contains sub s = true ↔ occurs sub s.
Proof.
  unfold occurs. induction s as [|c s IH].
  - simpl. rewrite orb_false_r, startswith_spec. split.
    + intros [t Ht]. by exists [], t.
    + intros (pre & post & H). symmetry in H.
      apply app_eq_nil in H as [-> H]. apply app_eq_nil in H as [-> ->].
      by exists [].
  - simpl. rewrite orb_true_iff, startswith_spec, IH. split.
    + intros [[t Ht] | (pre & post & Hs)].
      * by exists [], t.
      * exists (c :: pre), post. by rewrite Hs.
    + intros (pre & post & H). destruct pre as [|c' pre].
      * left. by exists post.
      * right. injection H as -> ->. by exists pre, post.
Qed.

(** [replace(old, new, 1)] rewrites the first occurrence and keeps all
    that comes before and after it. *)
Lemma replace_first_spec old new s :
  contains old s = true →
  ∃ pre post, first_occurrence old s pre post
              ∧ replace_first old new s = pre ++ new ++ post.
Proof.
  unfold first_occurrence. induction s as [|c s IH]; intros Hc.
  - simpl in *. rewrite orb_false_r in Hc. rewrite Hc.
    exists [], (drop (length old) []). split; [split|done].
    + by apply startswith_drop.
    + intros; simpl; lia.
  - cbn [replace_first]. destruct (startswith old (c :: s)) eqn:Hs.
    + exists [], (drop (length old) (c :: s)). split; [split|done].
      * by apply startswith_drop.
      * intros; simpl; lia.
    + cbn [contains] in Hc. rewrite Hs in Hc. simpl in Hc.
      destruct (IH Hc) as (pre & post & [Heq Hmin] & Hr).
      exists (c :: pre), post. split; [split|].
      * by rewrite Heq at 1.
      * intros pre' post' H'. destruct pre' as [|c' pre'].
        -- assert (startswith old (c :: s) = true)
             by (apply startswith_spec; by exists post').
           congruence.
        -- injection H' as -> H'. simpl. apply le_n_S. by eapply Hmin.
      * by rewrite Hr.
Qed.

Lemma replace_first_absent old new s :
  contains old s = false → replace_first old new s = s.
Proof.
  induction s as [|c s IH]; cbn [contains replace_first];
    intros [Hs Hc]%orb_false_iff; rewrite Hs; [done|].
  by rewrite IH.
Qed.

(** Text without a carriage return is decoded to itself. *)
Lemma universal_newlines_no_cr s : CR ∉ s → universal_newlines s = s.
Proof.
  induction s as [|c s IH]; [done|]. intros Hn.
  apply not_elem_of_cons in Hn as [Hc Hs]. cbn [universal_newlines].
  destruct (c =? CR)%N eqn:Hcr; [by apply N.eqb_eq in Hcr|].
  by rewrite IH.
Qed.

End Strings.

(** ** Editing a file *)

Section Edit.

Import Fs.

Variable unified_diff : list str -> list str -> str -> str -> list str.
Variable self : FileSystemTool.

(** C8, amended.  For an existing regular file, [edit] looks for
    [old_text] in the content as text mode decodes it (CR LF and a lone CR
    read as LF), which is the file's content itself when that holds no
    carriage return.  [edit] fails with the text-not-found message exactly
    when [old_text] does not occur in the decoded content, and then leaves
    the file system alone; when it occurs, [edit] succeeds and the file
    becomes the decoded content with the first occurrence replaced by
    [new_text], the text before and after it, later occurrences included,
    kept as it was. *)
Theorem edit_replaces_first_occurrence fs path old_text new_text p d :
  validate_path self path = inr p →
  node_at fs p = Some (File d) →
  let content := universal_newlines d in
  let r := edit unified_diff self fs path old_text new_text in
  (success r.1 = false ∧ message r.1 = text_not_found path
   ↔ ¬ occurs old_text content)
  ∧ (¬ occurs old_text content → r.2 = fs)
  ∧ (occurs old_text content →
     ∃ pre post,
       first_occurrence old_text content pre post
       ∧ success r.1 = true
       ∧ r.2 = <[p := File (pre ++ new_text ++ post)]> fs)
  ∧ (CR ∉ d → content = d).
Proof.
  intros Hv Hn content r. subst r. unfold edit.
  rewrite Hv. unfold exists_, read_text, write_text. rewrite Hn.
  cbn [negb]. fold content.
  assert (Hcr : CR ∉ d → content = d) by apply universal_newlines_no_cr.
  destruct (contains old_text content) eqn:Hc; cbn [negb fst snd].
  - assert (Ho : occurs old_text content) by by apply contains_spec.
    destruct (replace_first_spec old_text new_text content Hc)
      as (pre & post & Hfirst & Hr).
    split; [|split; [|split]].
    + split; [by intros [? _] | done].
    + done.
    + intros _. exists pre, post. by rewrite Hr.
    + done.
  - assert (Ho : ¬ occurs old_text content).
    { rewrite <- contains_spec. congruence. }
    split; [|split; [|split]]; done.
Qed.

End Edit.

(** C8 as it is stated fails in both directions on a file that holds a
    carriage return: for the file content [a CR LF b], an [old_text] that
    is the whole content, a literal substring of it, is not found; and the
    [old_text] [a LF b], which is no substring of the content, is found
    and replaced. *)
Lemma edit_misses_a_literal_carriage_return :
  let d := py "a" ++ [CR; LF] ++ py "b" in
  let fs := fs_with d in
  let literal := Fs.edit demo_diff demo_tool fs (py "a.txt") d (py "x") in
  let decoded :=
    Fs.edit demo_diff demo_tool fs (py "a.txt") (py "a" ++ [LF] ++ py "b")
            (py "x") in
  Fs.validate_path demo_tool (py "a.txt") = inr [py "repo"; py "a.txt"]
  ∧ Fs.node_at fs [py "repo"; py "a.txt"] = Some (Fs.File d)
  ∧ occurs d d
  ∧ Fs.success literal.1 = false
  ∧ Fs.message literal.1 = text_not_found (py "a.txt")
  ∧ literal.2 = fs
  ∧ ¬ occurs (py "a" ++ [LF] ++ py "b") d
  ∧ Fs.success decoded.1 = true
  ∧ decoded.2 !! [py "repo"; py "a.txt"] = Some (Fs.File (py "x")).
Proof.
  cbv zeta.
  split; [vm_compute; reflexivity|].
  split; [vm_compute; reflexivity|].
  split; [by exists [], []|].
  split; [vm_compute; reflexivity|].
  split; [vm_compute; reflexivity|].
  split; [vm_compute; reflexivity|].
  split; [rewrite <- contains_spec; vm_compute; discriminate|].
  split; vm_compute; reflexivity.
Qed.

Lemma edit_replaces_first_occurrence_witness :
  let fs := fs_with (py "hello hello") in
  let r := Fs.edit demo_diff demo_tool fs (py "a.txt") (py "hello") (py "goodbye") in
  (Fs.success r.1 = false ∧ Fs.message r.1 = text_not_found (py "a.txt")
   ↔ ¬ occurs (py "hello") (universal_newlines (py "hello hello")))
  ∧ (¬ occurs (py "hello") (universal_newlines (py "hello hello")) → r.2 = fs)
  ∧ (occurs (py "hello") (universal_newlines (py "hello hello")) →
     ∃ pre post,
       first_occurrence (py "hello") (universal_newlines (py "hello hello"))
                        pre post
       ∧ Fs.success r.1 = true
       ∧ r.2 = <[ [py "repo"; py "a.txt"]
                  := Fs.File (pre ++ py "goodbye" ++ post) ]> fs)
  ∧ (CR ∉ py "hello hello"
     → universal_newlines (py "hello hello") = py "hello hello").
Proof.
  intros fs.
  exact (edit_replaces_first_occurrence demo_diff demo_tool fs (py "a.txt")
           (py "hello") (py "goodbye") [py "repo"; py "a.txt"]
           (py "hello hello") eq_refl eq_refl).
Defined.

Example edit_examples :
  (Fs.edit demo_diff demo_tool (fs_with (py "hello hello")) (py "a.txt")
           (py "hello") (py "goodbye")).2 !! [py "repo"; py "a.txt"]
    = Some (Fs.File (py "goodbye hello"))
  ∧ Fs.message (Fs.edit demo_diff demo_tool (fs_with (py "hello hello"))
                        (py "a.txt") (py "help") (py "x")).1
    = py "Text not found in a.txt. Cannot apply edit.".
Proof. split; vm_compute; reflexivity. Qed.

(** ** Writing, then reading *)

Section WriteRead.

Import Fs.

Variable unified_diff : list str -> list str -> str -> str -> list str.
Variable self : FileSystemTool.

(** [mkdir(parents=True)] succeeds when no prefix it walks is a regular
    file; it changes nothing but those prefixes, and its target is a
    directory afterwards. *)
Lemma mkdir_chain_ok target todo : ∀ (fs : filesystem) done,
  (∀ q, q `prefix_of` done ++ todo → length done < length q →
        is_file fs q = false) →
  ∃ fs', mkdir_chain target fs done todo = inr fs'
         ∧ (∀ q, ¬ (q `prefix_of` done ++ todo ∧ length done < length q) →
                 fs' !! q = fs !! q)
         ∧ (todo ≠ [] → fs' !! (done ++ todo) = Some Dir).
Proof.
  induction todo as [|c rest IH]; intros fs done Hfiles.
  - exists fs. by repeat split.
  - cbn [mkdir_chain].
    assert (Hq0 : is_file fs (done ++ [c]) = false).
    { apply Hfiles.
      - rewrite (cons_middle c done rest), app_assoc. by apply prefix_app_r.
      - rewrite length_app. simpl. lia. }
    assert (Hne : done ++ [c] ≠ []) by by destruct done.
    unfold is_file, node_at in Hq0.
    destruct (done ++ [c]) as [|x q0'] eqn:Hq0e; [done|]. rewrite <- Hq0e in *.
    clear Hq0e x q0'.
    destruct (fs !! (done ++ [c])) as [[d|]|] eqn:Hl; [done| |].
    + destruct (IH fs (done ++ [c])) as (fs' & Hrun & Hsame & Hdir).
      { intros q Hp Hlen. rewrite <- app_assoc in Hp. apply Hfiles; [done|].
        rewrite length_app in Hlen. simpl in Hlen. lia. }
      exists fs'. split; [done|]. split.
      * intros q Hq. apply Hsame. intros [Hp Hlen]. apply Hq.
        rewrite <- app_assoc in Hp. split; [done|].
        rewrite length_app in Hlen. simpl in Hlen. lia.
      * intros _. rewrite (cons_middle c done rest), app_assoc.
        destruct rest as [|c' rest'].
        -- rewrite app_nil_r. simpl in Hrun. injection Hrun as <-. done.
        -- by apply Hdir.
    + destruct (IH (<[done ++ [c] := Dir]> fs) (done ++ [c]))
        as (fs' & Hrun & Hsame & Hdir).
      { intros q Hp Hlen. unfold is_file, node_at.
        destruct q as [|x q']; [done|].
        rewrite lookup_insert_ne.
        - rewrite <- app_assoc in Hp.
          assert (Hf := Hfiles (x :: q') Hp). unfold is_file, node_at in Hf.
          apply Hf. rewrite length_app in Hlen. simpl in *. lia.
        - intros Heq. rewrite <- Heq in Hlen. lia. }
      exists fs'. split; [done|]. split.
      * intros q Hq. rewrite Hsame.
        -- apply lookup_insert_ne. intros <-. apply Hq. split.
           ++ rewrite (cons_middle c done rest), app_assoc. by apply prefix_app_r.
           ++ rewrite length_app. simpl. lia.
        -- intros [Hp Hlen]. apply Hq. rewrite <- app_assoc in Hp.
           split; [done|]. rewrite length_app in Hlen. simpl in Hlen. lia.
      * intros _. rewrite (cons_middle c done rest), app_assoc.
        destruct rest as [|c' rest'].
        -- rewrite app_nil_r. simpl in Hrun. injection Hrun as <-.
           by rewrite lookup_insert_eq.
        -- by apply Hdir.
Qed.

Lemma parent_name p : p ≠ [] → p = parent p ++ [name p].
Proof.
  intros Hp. unfold parent, name.
  destruct (last p) as [x|] eqn:Hl.
  - apply last_Some in Hl as [l' ->]. by rewrite removelast_last.
  - by apply last_None in Hl.
Qed.

(** The file system after [write] created the parents of [p] and stored
    [content] there. *)
Lemma write_succeeds fs path content p :
  validate_path self path = inr p →
  is_dir fs p = false →
  (∀ q, q `prefix_of` p → q ≠ p → is_file fs q = false) →
  (utf8_len content <= max_file_size self)%Z →
  ∃ fs1, mkdir_parents fs (parent p) = inr fs1
         ∧ success (write unified_diff self fs path content).1 = true
         ∧ (write unified_diff self fs path content).2
           = <[p := File content]> fs1.
Proof.
  intros Hv Hd Hfiles Hsize.
  assert (Hp : p ≠ []) by (intros ->; done).
  destruct (mkdir_chain_ok (parent p) (parent p) fs []) as (fs1 & Hmk & Hsame & Hdir).
  { intros q Hq _. apply Hfiles.
    - etrans; [exact Hq|]. rewrite (parent_name p Hp) at 2. by apply prefix_app_r.
    - intros ->. apply prefix_length in Hq.
      rewrite (parent_name p Hp) in Hq at 1. rewrite length_app in Hq.
      simpl in Hq. lia. }
  exists fs1. split; [done|].
  assert (Hnode : fs1 !! p = fs !! p).
  { apply Hsame. intros [Hq _]. apply prefix_length in Hq.
    rewrite (parent_name p Hp) in Hq at 1. rewrite length_app in Hq.
    simpl in Hq. lia. }
  assert (Hpar : node_at fs1 (parent p) = Some Dir).
  { unfold node_at. destruct (parent p) as [|x q] eqn:Hpp; [done|].
    by apply Hdir. }
  unfold write. rewrite Hv.
  rewrite (proj2 (Z.ltb_ge _ _)) by lia.
  unfold mkdir_parents in Hmk. unfold mkdir_parents. rewrite Hmk.
  unfold exists_, read_text, write_text, create, is_dir, node_at in *.
  destruct p as [|x q]; [done|]. rewrite Hnode.
  destruct (fs !! (x :: q)) as [[d|]|]; [done|done|].
  by rewrite Hpar.
Qed.

(** C7, amended.  For a relative path that resolves, inside the
    repository root, to a place that is not a directory and has no regular
    file among its ancestors, and for content within the size ceiling,
    [write] succeeds and a following [read] succeeds with the content as
    text mode decodes it: CR LF and a lone CR come back as LF.  The content
    comes back exactly when it holds no carriage return. *)
Theorem write_then_read_decodes_newlines fs path content p :
  validate_path self path = inr p →
  is_dir fs p = false →
  (∀ q, q `prefix_of` p → q ≠ p → is_file fs q = false) →
  (utf8_len content <= max_file_size self)%Z →
  let w := write unified_diff self fs path content in
  success w.1 = true
  ∧ read self w.2 path
    = {| success := true;
         message := py "Read "
                      ++ str_of_nat (length (universal_newlines content))
                      ++ py " bytes";
         diff := None; path := Some (render p);
         data := Some (universal_newlines content) |}
  ∧ (CR ∉ content → data (read self w.2 path) = Some content).
Proof.
  intros Hv Hd Hfiles Hsize w. subst w.
  destruct (write_succeeds fs path content p Hv Hd Hfiles Hsize)
    as (fs1 & _ & Hok & Hfs).
  assert (Hp : p ≠ []) by (intros ->; done).
  split; [done|]. rewrite Hfs.
  assert (Hread : read self (<[p := File content]> fs1) path
    = {| success := true;
         message := py "Read "
                      ++ str_of_nat (length (universal_newlines content))
                      ++ py " bytes";
         diff := None; path := Some (render p);
         data := Some (universal_newlines content) |}).
  { unfold read. rewrite Hv.
    unfold exists_, is_file, st_size, read_text, node_at.
    destruct p as [|x q]; [done|]. rewrite lookup_insert_eq. cbn [negb].
    by rewrite (proj2 (Z.ltb_ge _ _)) by lia. }
  split; [done|]. intros Hcr. rewrite Hread. cbn [data].
  by rewrite universal_newlines_no_cr.
Qed.

End WriteRead.

(** C7 as it is stated fails: a carriage return that was written is read
    back as a line feed. *)
Lemma write_then_read_changes_carriage_return :
  let w := Fs.write demo_diff demo_tool demo_fs (py "a.txt") (py "one" ++ [CR]) in
  Fs.validate_path demo_tool (py "a.txt") = inr [py "repo"; py "a.txt"]
  ∧ (utf8_len (py "one" ++ [CR]) <= Fs.max_file_size demo_tool)%Z
  ∧ Fs.success w.1 = true
  ∧ Fs.success (Fs.read demo_tool w.2 (py "a.txt")) = true
  ∧ Fs.data (Fs.read demo_tool w.2 (py "a.txt")) = Some (py "one" ++ [LF])
  ∧ Fs.data (Fs.read demo_tool w.2 (py "a.txt")) ≠ Some (py "one" ++ [CR]).
Proof.
  intros w. subst w.
  split; [vm_compute; reflexivity|].
  split; [vm_compute; discriminate|].
  split; [vm_compute; reflexivity|].
  split; [vm_compute; reflexivity|].
  split; [vm_compute; reflexivity|].
  vm_compute. discriminate.
Qed.

(** Nor does [write] succeed on every path inside the root: a path that
    names a directory cannot be written. *)
Example write_to_directory_fails :
  let fs := <[ [py "repo"; py "src"] := Fs.Dir ]> demo_fs in
  Fs.write demo_diff demo_tool fs (py "src") (py "x")
  = (Fs.failed (py "Error writing src: [Errno 21] Is a directory: '/repo/src'")
               None, fs).
Proof. vm_compute. reflexivity. Qed.

Lemma write_then_read_decodes_newlines_witness :
  let w := Fs.write demo_diff demo_tool demo_fs (py "src/a.txt")
                    (py "one" ++ [CR; LF] ++ py "two") in
  Fs.success w.1 = true
  ∧ Fs.read demo_tool w.2 (py "src/a.txt")
    = {| Fs.success := true;
         Fs.message :=
           py "Read "
             ++ str_of_nat (length (universal_newlines
                                      (py "one" ++ [CR; LF] ++ py "two")))
             ++ py " bytes";
         Fs.diff := None;
         Fs.path := Some (Fs.render [py "repo"; py "src"; py "a.txt"]);
         Fs.data := Some (universal_newlines (py "one" ++ [CR; LF] ++ py "two")) |}
  ∧ (CR ∉ py "one" ++ [CR; LF] ++ py "two" →
     Fs.data (Fs.read demo_tool w.2 (py "src/a.txt"))
     = Some (py "one" ++ [CR; LF] ++ py "two")).
Proof.
  refine (write_then_read_decodes_newlines demo_diff demo_tool demo_fs
            (py "src/a.txt") (py "one" ++ [CR; LF] ++ py "two")
            [py "repo"; py "src"; py "a.txt"] eq_refl eq_refl _ _).
  - intros q _ _. unfold Fs.is_file, Fs.node_at, demo_fs.
    destruct q as [|a q]; [reflexivity|].
    destruct (decide ([py "repo"] = a :: q)) as [<-|Hne].
    + by rewrite lookup_singleton_eq.
    + by rewrite lookup_singleton_ne.
  - vm_compute. discriminate.
Defined.

(** ** Replacing a line *)

Section Lines.

Lemma list_pair_ind {A} (P : list A → Prop) :
  P [] → (∀ a, P [a]) → (∀ a b l, P l → P (b :: l) → P (a :: b :: l)) →
  ∀ l, P l.
Proof.
  intros H0 H1 H2 l.
  assert (H : P l ∧ ∀ a, P (a :: l)); [|by destruct H].
  induction l as [|b l [IH1 IH2]]; [by split|].
  split; [apply IH2|]. intros a. by apply H2.
Qed.

Lemma is_linebreak_CR : is_linebreak CR = true.
Proof. reflexivity. Qed.

Lemma not_linebreak_not_CR c : is_linebreak c = false → (c =? CR)%N = false.
Proof.
  intros H. destruct (c =? CR)%N eqn:E; [|done].
  apply N.eqb_eq in E. subst. by rewrite is_linebreak_CR in H.
Qed.

Lemma splitlines_from_cons cur c rest :
  splitlines_from cur (c :: rest)
  = if (c =? CR)%N then
      match rest with
      | d :: rest' =>
          if (d =? LF)%N then rev (d :: c :: cur) :: splitlines_from [] rest'
          else rev (c :: cur) :: splitlines_from [] rest
      | [] => [rev (c :: cur)]
      end
    else if is_linebreak c then rev (c :: cur) :: splitlines_from [] rest
    else splitlines_from (c :: cur) rest.
Proof. reflexivity. Qed.

(** A complete line at the front of a text is its first line. *)
Lemma splitlines_from_complete l : ∀ cur s,
  complete l = true →
  splitlines_from cur (l ++ s) = (rev cur ++ l) :: splitlines_from [] s.
Proof.
  induction l as [|c l IH]; intros cur s Hc; [done|].
  destruct l as [|c' l].
  - cbn [complete] in Hc. apply andb_true_iff in Hc as [Hb Hcr].
    apply negb_true_iff in Hcr. cbn [app splitlines_from].
    by rewrite Hcr, Hb.
  - cbn [complete] in Hc. apply andb_true_iff in Hc as [Hb Hc].
    apply negb_true_iff in Hb.
    change ((c :: c' :: l) ++ s) with (c :: (c' :: l) ++ s).
    cbn [splitlines_from]. rewrite (not_linebreak_not_CR c Hb), Hb.
    rewrite IH by done. cbn [rev]. by rewrite <- app_assoc.
Qed.

Lemma splitlines_complete_lines L s :
  Forall (λ l, complete l = true) L →
  splitlines (concat L ++ s) = L ++ splitlines s.
Proof.
  induction 1 as [|l L Hl _ IH]; [done|].
  cbn [concat]. rewrite <- app_assoc. unfold splitlines in *.
  rewrite splitlines_from_complete by done. by rewrite IH.
Qed.

Lemma concat_splitlines_from s : ∀ cur,
  concat (splitlines_from cur s) = rev cur ++ s.
Proof.
  induction s as [|a|a b l IH1 IH2] using list_pair_ind; intros cur.
  - cbn. destruct cur as [|c cur]; [done|]. cbn. by rewrite !app_nil_r.
  - rewrite splitlines_from_cons.
    destruct (a =? CR)%N; [|destruct (is_linebreak a)];
      cbn; by rewrite ?app_nil_r.
  - rewrite splitlines_from_cons. destruct (a =? CR)%N.
    + destruct (b =? LF)%N; cbn [concat]; rewrite ?IH1, ?IH2; cbn;
        by rewrite <- !app_assoc.
    + destruct (is_linebreak a); cbn [concat]; rewrite IH2; cbn;
        by rewrite <- !app_assoc.
Qed.

Lemma concat_splitlines s : concat (splitlines s) = s.
Proof. apply (concat_splitlines_from s []). Qed.

Lemma rev_cons_nonempty (c : N) cur : rev (c :: cur) ≠ [].
Proof. cbn. by destruct (rev cur). Qed.

Lemma splitlines_from_nonempty s : ∀ cur,
  Forall (λ l, l ≠ []) (splitlines_from cur s).
Proof.
  induction s as [|a|a b l IH1 IH2] using list_pair_ind; intros cur.
  - cbn. destruct cur; repeat constructor. apply rev_cons_nonempty.
  - rewrite splitlines_from_cons.
    destruct (a =? CR)%N; [|destruct (is_linebreak a)];
      cbn [splitlines_from]; repeat constructor; apply rev_cons_nonempty.
  - rewrite splitlines_from_cons. destruct (a =? CR)%N.
    + destruct (b =? LF)%N; constructor;
        [apply rev_cons_nonempty|apply IH1|apply rev_cons_nonempty|apply IH2].
    + destruct (is_linebreak a);
        [constructor; [apply rev_cons_nonempty|apply IH2]|apply IH2].
Qed.

Lemma universal_newlines_cons c rest :
  universal_newlines (c :: rest)
  = if (c =? CR)%N then
      match rest with
      | d :: rest' =>
          if (d =? LF)%N then LF :: universal_newlines rest'
          else LF :: universal_newlines rest
      | [] => [LF]
      end
    else c :: universal_newlines rest.
Proof. reflexivity. Qed.

Lemma universal_newlines_clean s : CR ∉ universal_newlines s.
Proof.
  assert (Hlf : LF ≠ CR) by done.
  induction s as [|a|a b l IH1 IH2] using list_pair_ind.
  - apply not_elem_of_nil.
  - rewrite universal_newlines_cons. destruct (a =? CR)%N eqn:E.
    + apply not_elem_of_cons. split; [done|apply not_elem_of_nil].
    + apply N.eqb_neq in E. apply not_elem_of_cons. split; [done|].
      apply not_elem_of_nil.
  - rewrite universal_newlines_cons. destruct (a =? CR)%N eqn:E.
    + destruct (b =? LF)%N; apply not_elem_of_cons; by split.
    + apply N.eqb_neq in E. apply not_elem_of_cons. by split.
Qed.

Lemma universal_newlines_app_clean a b :
  CR ∉ a → universal_newlines (a ++ b) = a ++ universal_newlines b.
Proof.
  induction a as [|c a IH]; [done|]. intros Hn.
  apply not_elem_of_cons in Hn as [Hc Hs].
  change ((c :: a) ++ b) with (c :: (a ++ b)). rewrite universal_newlines_cons.
  destruct (c =? CR)%N eqn:Hcr; [by apply N.eqb_eq in Hcr|].
  by rewrite IH.
Qed.

(** Decoding does not look across a line feed. *)
Lemma universal_newlines_app_lf x y :
  universal_newlines (x ++ LF :: y)
  = universal_newlines (x ++ [LF]) ++ universal_newlines y.
Proof.
  induction x as [|a|a b l IH1 IH2] using list_pair_ind.
  - done.
  - cbn [app]. rewrite !(universal_newlines_cons a).
    destruct (a =? CR)%N; [done|]. done.
  - change ((a :: b :: l) ++ LF :: y) with (a :: b :: (l ++ LF :: y)).
    change ((a :: b :: l) ++ [LF]) with (a :: b :: (l ++ [LF])).
    rewrite !(universal_newlines_cons a).
    destruct (a =? CR)%N.
    + destruct (b =? LF)%N.
      * by rewrite IH1.
      * change (b :: l ++ LF :: y) with ((b :: l) ++ LF :: y).
        change (b :: l ++ [LF]) with ((b :: l) ++ [LF]). by rewrite IH2.
    + change (b :: l ++ LF :: y) with ((b :: l) ++ LF :: y).
      change (b :: l ++ [LF]) with ((b :: l) ++ [LF]). by rewrite IH2.
Qed.

Lemma complete_snoc body t :
  Forall (λ c, is_linebreak c = false) body →
  is_linebreak t = true → (t =? CR)%N = false →
  complete (body ++ [t]) = true.
Proof.
  intros Hb Ht Hcr. induction Hb as [|c body Hc _ IH].
  - cbn. by rewrite Ht, Hcr.
  - cbn [app complete]. rewrite Hc, IH. cbn. by destruct (body ++ [t]).
Qed.

(** In a text without carriage returns every line but the last is
    complete. *)
Lemma splitlines_from_shape s : ∀ cur A x,
  CR ∉ s →
  Forall (λ c, is_linebreak c = false) cur →
  splitlines_from cur s = A ++ [x] →
  Forall (λ l, complete l = true) A.
Proof.
  induction s as [|c s IH]; intros cur A x Hcr Hcur Heq.
  - cbn in Heq. destruct cur.
    + by destruct A.
    + destruct A as [|a A]; [constructor|].
      injection Heq as _ Heq. by destruct A.
  - apply not_elem_of_cons in Hcr as [Hc Hs].
    rewrite splitlines_from_cons in Heq.
    rewrite (proj2 (N.eqb_neq c CR)) in Heq by done.
    destruct (is_linebreak c) eqn:Hb.
    + destruct A as [|a A]; [constructor|].
      injection Heq as <- Heq. constructor.
      * cbn [rev]. apply complete_snoc; [|done|by apply N.eqb_neq].
        by apply Forall_rev.
      * by eapply (IH []).
    + eapply (IH (c :: cur)); [done| |done]. by constructor.
Qed.

(** *** The last line *)

Lemma terminate_last_snoc A x :
  Fs.terminate_last (A ++ [x])
  = A ++ [if endswith_nl x then x else x ++ [LF]].
Proof.
  unfold Fs.terminate_last. rewrite last_snoc, removelast_last.
  by destruct (endswith_nl x).
Qed.

Lemma endswith_nl_app a y : y ≠ [] → endswith_nl (a ++ y) = endswith_nl y.
Proof.
  intros Hy. unfold endswith_nl.
  destruct (exists_last Hy) as (y' & c & ->).
  by rewrite app_assoc, !last_snoc.
Qed.

Lemma endswith_nl_snoc a : endswith_nl (a ++ [LF]) = true.
Proof. unfold endswith_nl. by rewrite last_snoc. Qed.

Lemma endswith_nl_nonempty y : endswith_nl y = true → y ≠ [].
Proof. by intros H ->. Qed.

Lemma terminate_content_ends content :
  content ≠ [] → endswith_nl (Fs.terminate_content content) = true.
Proof.
  intros Hc. unfold Fs.terminate_content. destruct content as [|c l]; [done|].
  destruct (endswith_nl (c :: l)) eqn:E; [done|]. apply endswith_nl_snoc.
Qed.

(** The lines the adapter works on, for a text without carriage
    returns: complete lines, then a last line that ends with a line feed. *)
Lemma terminated_lines_shape text :
  CR ∉ text →
  Fs.terminate_last (splitlines text) = []
  ∨ ∃ A x, Fs.terminate_last (splitlines text) = A ++ [x]
           ∧ Forall (λ l, complete l = true) A
           ∧ endswith_nl x = true
           ∧ CR ∉ concat (A ++ [x]).
Proof.
  intros Hcr. destruct (splitlines text) as [|l0 L] eqn:Hs using rev_ind.
  - by left.
  - right. clear IHL. rewrite terminate_last_snoc.
    eexists L, _. split; [done|].
    split; [by eapply (splitlines_from_shape text [])|].
    assert (Ht : concat (L ++ [l0]) = text)
      by (rewrite <- Hs; apply concat_splitlines).
    rewrite concat_app in Ht. cbn in Ht. rewrite app_nil_r in Ht.
    destruct (endswith_nl l0) eqn:E.
    + split; [done|]. rewrite concat_app. cbn. by rewrite app_nil_r, Ht.
    + split; [apply endswith_nl_snoc|].
      rewrite concat_app. cbn. rewrite app_nil_r, app_assoc, Ht.
      apply not_elem_of_app. split; [done|].
      apply not_elem_of_cons. split; [done|apply not_elem_of_nil].
Qed.

Lemma concat_ends_nl (D : list str) y :
  last D = Some y → endswith_nl y = true → endswith_nl (concat D) = true.
Proof.
  intros Hl Hy. apply last_Some in Hl as [D' ->].
  rewrite concat_app. cbn. rewrite app_nil_r.
  rewrite endswith_nl_app; [done|by apply endswith_nl_nonempty].
Qed.

Lemma terminate_last_app X B :
  B ≠ [] → Fs.terminate_last (X ++ B) = X ++ Fs.terminate_last B.
Proof.
  intros HB. destruct (exists_last HB) as (B' & y & ->).
  by rewrite app_assoc, !terminate_last_snoc, <- app_assoc.
Qed.

Lemma terminate_last_cons x B :
  B ≠ [] → Fs.terminate_last (x :: B) = x :: Fs.terminate_last B.
Proof. apply (terminate_last_app [x]). Qed.

(** Lines that end with a line feed are not touched again. *)
Lemma terminate_last_splitlines_ends Q :
  endswith_nl Q = true →
  Fs.terminate_last (splitlines Q) = splitlines Q.
Proof.
  intros HQ. destruct (splitlines Q) as [|y B] eqn:Hs using rev_ind; [done|].
  clear IHB. rewrite terminate_last_snoc.
  assert (Hy : y ≠ []).
  { pose proof (splitlines_from_nonempty Q []) as Hne. unfold splitlines in Hs.
    rewrite Hs in Hne. apply Forall_app in Hne as [_ Hne]. by inversion Hne. }
  assert (HQ' : Q = concat B ++ y).
  { rewrite <- (concat_splitlines Q), Hs, concat_app. cbn. by rewrite app_nil_r. }
  rewrite HQ', endswith_nl_app in HQ by done. by rewrite HQ.
Qed.

(** Replacing a line by one line a second time gives the same text. *)
Lemma replace_line_stable line_number content text new_text :
  one_line content →
  CR ∉ text →
  replace_line line_number content text = Some new_text →
  ∀ again,
    replace_line line_number content (universal_newlines new_text) = Some again →
    again = new_text.
Proof.
  unfold one_line. intros Hone Hcr Hfirst again Hsecond.
  set (c := Fs.terminate_content content) in *.
  assert (Hcne : content ≠ []) by (intros ->; done).
  assert (Hcend : endswith_nl c = true) by by apply terminate_content_ends.
  unfold replace_line in Hfirst. fold c in Hfirst.
  destruct (_ || _)%bool eqn:Hrange in Hfirst; [done|].
  apply orb_false_iff in Hrange as [Hlo _]. apply Z.ltb_ge in Hlo.
  unfold Fs.list_assign in Hfirst.
  destruct (_ <? _)%nat eqn:Hi in Hfirst; [|done].
  apply Nat.ltb_lt in Hi. injection Hfirst as <-.
  set (i := Z.to_nat (line_number - 1)) in *.
  destruct (terminated_lines_shape text Hcr) as [Hnil | (A & x & Hlines & HA & Hx & Hclean)].
  { rewrite Hnil in Hi. cbn in Hi. lia. }
  rewrite Hlines in *. rewrite length_app in Hi. cbn in Hi.
  (* the text before and after the line that is replaced *)
  rewrite insert_take_drop in Hsecond |- * by (rewrite length_app; cbn; lia).
  set (P := take i (A ++ [x])) in *. set (D := drop (S i) (A ++ [x])) in *.
  assert (HP : Forall (λ l, complete l = true) P).
  { unfold P. rewrite take_app_le by lia. by apply Forall_take. }
  assert (HlenP : length P = i).
  { unfold P. rewrite length_take, length_app. cbn. lia. }
  assert (Hparts : (CR ∉ concat P) ∧ (CR ∉ concat D)).
  { rewrite <- (take_drop_middle (A ++ [x]) i ((A ++ [x]) !!! i)) in Hclean.
    - rewrite concat_app in Hclean. apply not_elem_of_app in Hclean as [H1 H2].
      split; [done|]. cbn in H2. by apply not_elem_of_app in H2 as [_ H2].
    - apply list_lookup_lookup_total_lt. rewrite length_app. cbn. lia. }
  destruct Hparts as [HcP HcD].
  assert (HD : D = [] ∨ endswith_nl (concat D) = true).
  { destruct (last D) as [y|] eqn:Hl.
    - right. apply (concat_ends_nl D y Hl).
      assert (Hx' : last (take (S i) (A ++ [x]) ++ D) = Some x)
        by (unfold D; by rewrite take_drop, last_snoc).
      rewrite last_app, Hl in Hx'. by injection Hx' as ->.
    - left. by apply last_None in Hl. }
  (* the new text, decoded, and its lines *)
  rewrite concat_app in Hsecond |- *. cbn [concat] in Hsecond |- *.
  destruct (exists_last (endswith_nl_nonempty c Hcend)) as (c0 & t & Hc0).
  assert (Ht : t = LF).
  { unfold endswith_nl in Hcend. rewrite Hc0, last_snoc in Hcend.
    by apply N.eqb_eq in Hcend. }
  subst t.
  assert (Hdec : universal_newlines (concat P ++ c ++ concat D)
                 = concat P ++ universal_newlines c ++ concat D).
  { rewrite universal_newlines_app_clean by done. f_equal.
    rewrite Hc0, <- app_assoc. cbn [app].
    rewrite universal_newlines_app_lf. f_equal.
    by apply universal_newlines_no_cr. }
  rewrite Hdec in Hsecond. unfold replace_line in Hsecond. fold c in Hsecond.
  rewrite splitlines_complete_lines in Hsecond by done.
  unfold splitlines in Hsecond.
  rewrite (splitlines_from_complete _ [] _ Hone) in Hsecond.
  cbn [rev app] in Hsecond. fold (splitlines (concat D)) in Hsecond.
  destruct (_ || _)%bool in Hsecond; [done|].
  unfold Fs.list_assign in Hsecond.
  destruct (_ <? _)%nat in Hsecond; [|done].
  injection Hsecond as <-. fold i.
  destruct HD as [HD | HD].
  - rewrite HD. cbn [concat splitlines splitlines_from].
    rewrite terminate_last_snoc, <- HlenP.
    rewrite (insert_app_r_alt P _ (length P)) by lia.
    rewrite Nat.sub_diag. cbn [insert list_insert]. 
    rewrite concat_app. cbn. by rewrite !app_nil_r.
  - assert (HB : splitlines (concat D) ≠ []).
    { intros HB. pose proof (concat_splitlines (concat D)) as Hcs.
      rewrite HB in Hcs. cbn in Hcs. rewrite <- Hcs in HD. done. }
    rewrite terminate_last_app by done.
    rewrite terminate_last_cons by done.
    rewrite terminate_last_splitlines_ends by done.
    rewrite <- HlenP. rewrite (insert_app_r_alt P _ (length P)) by lia.
    rewrite Nat.sub_diag. cbn [insert list_insert app].
    rewrite concat_app. cbn [concat]. by rewrite concat_splitlines.
Qed.

End Lines.

Section InsertLines.

Import Fs.

Variable unified_diff : list str -> list str -> str -> str -> list str.
Variable self : FileSystemTool.

(** A content without line boundaries is one line, with or without its
    line feed. *)
Lemma one_line_plain body :
  body ≠ [] → Forall (λ c, is_linebreak c = false) body → one_line body.
Proof.
  intros Hne Hb. unfold one_line, terminate_content.
  destruct body as [|c0 body0] eqn:Hbody; [done|]. rewrite <- Hbody in *.
  assert (Hcr : CR ∉ body).
  { intros Hin. rewrite Forall_forall in Hb. by apply Hb in Hin. }
  assert (Hend : endswith_nl body = false).
  { unfold endswith_nl. destruct (last body) as [t|] eqn:Hl; [|done].
    apply last_Some_elem_of in Hl. rewrite Forall_forall in Hb.
    apply Hb in Hl. destruct (t =? LF)%N eqn:E; [|done].
    apply N.eqb_eq in E. by subst. }
  rewrite Hend, universal_newlines_no_cr.
  - by apply complete_snoc.
  - apply not_elem_of_app. split; [done|].
    apply not_elem_of_cons. split; [done|apply not_elem_of_nil].
Qed.

Lemma one_line_terminated body :
  Forall (λ c, is_linebreak c = false) body → one_line (body ++ [LF]).
Proof.
  intros Hb. unfold one_line, terminate_content.
  destruct (body ++ [LF]) as [|c0 l0] eqn:Hbody; [by destruct body|].
  rewrite <- Hbody. rewrite endswith_nl_snoc.
  assert (Hcr : CR ∉ body).
  { intros Hin. rewrite Forall_forall in Hb. by apply Hb in Hin. }
  rewrite universal_newlines_no_cr.
  - by apply complete_snoc.
  - apply not_elem_of_app. split; [done|].
    apply not_elem_of_cons. split; [done|apply not_elem_of_nil].
Qed.

(** The file system after [insert_lines] with [operation = "replace"]. *)
Lemma insert_lines_replace fs path line_number content :
  (insert_lines unified_diff self fs path line_number content (py "replace")).2
  = match validate_path self path with
    | inr p =>
        match node_at fs p with
        | Some (File d) =>
            match replace_line line_number content (universal_newlines d) with
            | Some text => <[p := File text]> fs
            | None => fs
            end
        | _ => fs
        end
    | inl _ => fs
    end.
Proof.
  unfold insert_lines, replace_line.
  destruct (validate_path self path) as [e|p]; [done|].
  unfold exists_, read_text, write_text.
  destruct (node_at fs p) as [[d|]|] eqn:Hn; cbn [negb snd]; [|done|done].
  destruct (_ || _)%bool; [done|].
  rewrite (bool_decide_eq_false_2 (py "replace" = py "after")) by done.
  rewrite (bool_decide_eq_false_2 (py "replace" = py "before")) by done.
  rewrite (bool_decide_eq_true_2 (py "replace" = py "replace")) by done.
  by destruct (list_assign _ _ _) as [e|lines'].
Qed.

(** C6, amended.  For a content that is one line, [insert_lines] with
    [operation = "replace"] applied twice with the same line number and
    content leaves the file system, and so the file, as one application
    leaves it.  This holds for every file system, path and line number. *)
Theorem insert_lines_replace_one_line_idempotent fs path line_number content :
  one_line content →
  let once :=
    (insert_lines unified_diff self fs path line_number content
                  (py "replace")).2 in
  (insert_lines unified_diff self once path line_number content
                (py "replace")).2 = once.
Proof.
  intros Hone once. subst once. rewrite !insert_lines_replace.
  destruct (validate_path self path) as [e|p]; [done|].
  destruct (node_at fs p) as [[d|]|] eqn:Hn; [|by rewrite Hn..].
  destruct (replace_line line_number content (universal_newlines d))
    as [text|] eqn:Hfirst; [|by rewrite Hn, Hfirst].
  assert (Hp : p ≠ []) by (intros ->; done).
  assert (Hn' : node_at (<[p := File text]> fs) p = Some (File text)).
  { unfold node_at. destruct p; [done|]. by rewrite lookup_insert_eq. }
  rewrite Hn'.
  destruct (replace_line line_number content (universal_newlines text))
    as [again|] eqn:Hsecond; [|done].
  rewrite (replace_line_stable line_number content (universal_newlines d)
             text Hone (universal_newlines_clean d) Hfirst again Hsecond).
  by rewrite insert_insert_eq.
Qed.

End InsertLines.

(** C6 as it is stated fails: a content of two lines replaces one line
    the first time and only the first of its own two lines the second
    time. *)
Lemma insert_lines_replace_not_idempotent :
  let content := py "a" ++ [LF] ++ py "b" in
  let once :=
    Fs.insert_lines demo_diff demo_tool (fs_with (py "x" ++ [LF]))
                    (py "a.txt") 1 content (py "replace") in
  let twice :=
    Fs.insert_lines demo_diff demo_tool once.2
                    (py "a.txt") 1 content (py "replace") in
  Fs.success once.1 = true
  ∧ Fs.success twice.1 = true
  ∧ once.2 !! [py "repo"; py "a.txt"]
    = Some (Fs.File (py "a" ++ [LF] ++ py "b" ++ [LF]))
  ∧ twice.2 !! [py "repo"; py "a.txt"]
    = Some (Fs.File (py "a" ++ [LF] ++ py "b" ++ [LF] ++ py "b" ++ [LF]))
  ∧ twice.2 !! [py "repo"; py "a.txt"] ≠ once.2 !! [py "repo"; py "a.txt"].
Proof.
  intros content once twice. subst content once twice.
  split; [vm_compute; reflexivity|].
  split; [vm_compute; reflexivity|].
  split; [vm_compute; reflexivity|].
  split; [vm_compute; reflexivity|].
  vm_compute. discriminate.
Qed.

(** An empty content is not idempotent either: it removes a line each
    time. *)
Example insert_lines_replace_with_nothing :
  let once :=
    Fs.insert_lines demo_diff demo_tool (fs_with (py "x" ++ [LF] ++ py "y" ++ [LF]))
                    (py "a.txt") 1 [] (py "replace") in
  let twice :=
    Fs.insert_lines demo_diff demo_tool once.2 (py "a.txt") 1 [] (py "replace") in
  once.2 !! [py "repo"; py "a.txt"] = Some (Fs.File (py "y" ++ [LF]))
  ∧ twice.2 !! [py "repo"; py "a.txt"] = Some (Fs.File []).
Proof. split; vm_compute; reflexivity. Qed.

Lemma insert_lines_replace_one_line_idempotent_witness :
  one_line (py "second") ∧
  (let once :=
     (Fs.insert_lines demo_diff demo_tool
        (fs_with (py "one" ++ [CR; LF] ++ py "two" ++ [LF] ++ py "three"))
        (py "a.txt") 2 (py "second") (py "replace")).2 in
   (Fs.insert_lines demo_diff demo_tool once (py "a.txt") 2 (py "second")
                    (py "replace")).2 = once).
Proof.
  assert (H : one_line (py "second")) by (vm_compute; reflexivity).
  split; [exact H|].
  exact (insert_lines_replace_one_line_idempotent demo_diff demo_tool
           (fs_with (py "one" ++ [CR; LF] ++ py "two" ++ [LF] ++ py "three"))
           (py "a.txt") 2 (py "second") H).
Defined.

Example insert_lines_replace_example :
  (Fs.insert_lines demo_diff demo_tool
     (fs_with (py "one" ++ [CR; LF] ++ py "two" ++ [LF] ++ py "three"))
     (py "a.txt") 2 (py "second") (py "replace")).2 !! [py "repo"; py "a.txt"]
  = Some (Fs.File (py "one" ++ [LF] ++ py "second" ++ [LF] ++ py "three" ++ [LF])).
Proof. vm_compute. reflexivity. Qed.

(** The insertion scenario of the specification: a line after the sixth
    of six. *)
Example insert_after_last_line :
  (Fs.insert_lines demo_diff demo_tool
     (fs_with (py "1" ++ [LF] ++ py "2" ++ [LF] ++ py "3" ++ [LF] ++ py "4"
                 ++ [LF] ++ py "5" ++ [LF] ++ py "6" ++ [LF]))
     (py "a.txt") 6 (py "x") (py "after")).2 !! [py "repo"; py "a.txt"]
  = Some (Fs.File (py "1" ++ [LF] ++ py "2" ++ [LF] ++ py "3" ++ [LF] ++ py "4"
                     ++ [LF] ++ py "5" ++ [LF] ++ py "6" ++ [LF] ++ py "x" ++ [LF])).
Proof. vm_compute. reflexivity. Qed.

(** ** The file scenarios of the specification *)

(** Writing [a.txt] where there is no such file creates it. *)
Example write_creates_file :
  let w := Fs.write demo_diff demo_tool demo_fs (py "a.txt") (py "hello") in
  Fs.success w.1 = true
  ∧ Fs.message w.1 = py "Created a.txt (5 bytes)"
  ∧ w.2 !! [py "repo"; py "a.txt"] = Some (Fs.File (py "hello"))
  ∧ Fs.data (Fs.read demo_tool w.2 (py "a.txt")) = Some (py "hello").
Proof. repeat split; vm_compute; reflexivity. Qed.

(** Editing it afterwards replaces the text. *)
Example edit_after_write :
  let e := Fs.edit demo_diff demo_tool (fs_with (py "hello")) (py "a.txt")
                   (py "hello") (py "goodbye") in
  Fs.success e.1 = true
  ∧ Fs.message e.1 = py "Edited a.txt"
  ∧ e.2 !! [py "repo"; py "a.txt"] = Some (Fs.File (py "goodbye")).
Proof. repeat split; vm_compute; reflexivity. Qed.

(** Deleting moves the file to the trash directory under the root. *)
Example delete_moves_to_trash :
  let d := Fs.delete demo_tool 1700000000 (fs_with (py "hello")) (py "a.txt") in
  Fs.success d.1 = true
  ∧ d.2 !! [py "repo"; py "a.txt"] = None
  ∧ d.2 !! [py "repo"; py ".agent_trash"; py "1700000000_a.txt"]
    = Some (Fs.File (py "hello")).
Proof. repeat split; vm_compute; reflexivity. Qed.

(** Absolute paths are refused even inside the root, and [..] cannot
    leave it. *)
Example path_jail_examples :
  Fs.validate_path demo_tool (py "/repo/a.txt")
    = inl (Fs.ValueError (py "Absolute paths not allowed: /repo/a.txt"))
  ∧ Fs.validate_path demo_tool (py "src/../../etc/passwd")
    = inl (Fs.ValueError
             (py "Path src/../../etc/passwd is outside repository root"))
  ∧ Fs.validate_path demo_tool (py "src/./../a.txt")
    = inr [py "repo"; py "a.txt"]
  ∧ Fs.validate_path demo_tool (py "//repo/a.txt")
    = inl (Fs.ValueError (py "Absolute paths not allowed: //repo/a.txt")).
Proof. repeat split; vm_compute; reflexivity. Qed.

(** An operation bound to [None] is not defaulted: it reaches
    [insert_lines], which refuses it by name. *)
Example insert_lines_operation_none :
  let action :=
    action_of Schemas.FS_INSERT_LINES
      {| Schemas.path := Some (py "a.txt"); Schemas.content := Some (py "x");
         Schemas.old_text := None; Schemas.new_text := None;
         Schemas.line_number := Some 1%Z; Schemas.operation := Schemas.Null;
         Schemas.command := Schemas.Absent; Schemas.timeout := None;
         Schemas.language := None; Schemas.packages := None;
         Schemas.branch := None; Schemas.create := Schemas.Absent |} in
  demo_execute action (fs_with (py "hello"), tt)
  = ({| Executor.success := false;
        Executor.message :=
          py "Invalid operation: None. Must be 'after', 'before', or 'replace'";
        Executor.diff := [];
        Executor.data := Executor.PathLineData (py "a.txt") 1 |},
     (fs_with (py "hello"), tt)).
Proof. vm_compute. reflexivity. Qed.

(** ** File system: what the operations change *)

Section FileSystem.
Import Fs.
Variable unified_diff : list str -> list str -> str -> str -> list str.
Variable self : FileSystemTool.

(** X1.  [read] succeeds exactly when the path passes the jail and names
    a regular file whose encoded size is within the ceiling; the data it
    then returns is the text of the file as text mode decodes it. *)
Theorem read_succeeds_iff fs path :
  (success (read self fs path) = true
   ↔ ∃ p d, validate_path self path = inr p
            ∧ node_at fs p = Some (File d)
            ∧ (utf8_len d <= max_file_size self)%Z)
  ∧ (∀ p d, validate_path self path = inr p →
            node_at fs p = Some (File d) →
            (utf8_len d <= max_file_size self)%Z →
            data (read self fs path) = Some (universal_newlines d)).
Proof.
  unfold read. destruct (validate_path self path) as [e|p] eqn:Hv.
  - split; [|done]. split; [done|]. by intros (p & d & ? & _).
  - unfold exists_, is_file, st_size, read_text.
    destruct (node_at fs p) as [[d|]|] eqn:Hn; cbn [negb].
    + destruct (max_file_size self <? utf8_len d)%Z eqn:Hs.
      * apply Z.ltb_lt in Hs. split.
        -- split; [done|]. intros (p' & d' & Hp & Hd & Hle). simplify_eq. lia.
        -- intros p' d' Hp Hd Hle. simplify_eq. lia.
      * apply Z.ltb_ge in Hs. split.
        -- split; [|done]. intros _. by exists p, d.
        -- intros p' d' Hp Hd Hle. by simplify_eq.
    + split; [|by intros; simplify_eq]. split; [done|].
      intros (p' & d' & Hp & Hd & _). by simplify_eq.
    + split; [|by intros; simplify_eq]. split; [done|].
      intros (p' & d' & Hp & Hd & _). by simplify_eq.
Qed.

(** [mkdir(parents=True)] only adds directories along its way. *)
Lemma mkdir_chain_adds target todo : ∀ (fs fs' : filesystem) done,
  mkdir_chain target fs done todo = inr fs' →
  ∀ q, fs' !! q = fs !! q
       ∨ (fs !! q = None ∧ fs' !! q = Some Dir
          ∧ q `prefix_of` done ++ todo ∧ length done < length q).
Proof.
  induction todo as [|c rest IH]; intros fs fs' done Hrun q.
  - injection Hrun as <-. by left.
  - cbn [mkdir_chain] in Hrun.
    destruct (fs !! (done ++ [c])) as [[d|]|] eqn:Hl; [done| |].
    + destruct (IH _ _ _ Hrun q) as [H|(H1 & H2 & H3 & H4)]; [by left|].
      right. rewrite <- app_assoc in H3. repeat split; try done.
      rewrite length_app in H4. simpl in H4. lia.
    + destruct (IH _ _ _ Hrun q) as [H|(H1 & H2 & H3 & H4)].
      * destruct (decide (q = done ++ [c])) as [->|Hne].
        -- right. rewrite H, lookup_insert_eq. repeat split; try done.
           ++ rewrite (cons_middle c done rest), app_assoc. by apply prefix_app_r.
           ++ rewrite length_app. simpl. lia.
        -- left. by rewrite H, lookup_insert_ne.
      * right. rewrite <- app_assoc in H3.
        destruct (decide (q = done ++ [c])) as [->|Hne].
        -- rewrite length_app in H4. lia.
        -- rewrite lookup_insert_ne in H1 by done. repeat split; try done.
           rewrite length_app in H4. simpl in H4. lia.
Qed.

Lemma node_at_lookup (fs : filesystem) p : p ≠ [] → node_at fs p = fs !! p.
Proof. by destruct p. Qed.

Lemma node_at_insert_ne (fs : filesystem) p q n :
  q ≠ p → node_at (<[p := n]> fs) q = node_at fs q.
Proof.
  intros Hne. unfold node_at. destruct q; [done|]. by rewrite lookup_insert_ne.
Qed.

Lemma node_at_insert_eq (fs : filesystem) p n :
  p ≠ [] → node_at (<[p := n]> fs) p = Some n.
Proof. intros Hp. unfold node_at. destruct p; [done|]. by rewrite lookup_insert_eq. Qed.

Lemma parent_shorter p : p ≠ [] → length (parent p) < length p.
Proof.
  intros Hp. rewrite (parent_name p Hp) at 2. rewrite length_app. simpl. lia.
Qed.

Lemma parent_ne p : p ≠ [] → parent p ≠ p.
Proof. intros Hp Heq. pose proof (parent_shorter p Hp). rewrite Heq in H. lia. Qed.

Lemma prefix_parent q p :
  q `prefix_of` p → q ≠ p → q `prefix_of` parent p.
Proof.
  intros [k Hk] Hne. destruct k as [|x k _] using rev_ind.
  - rewrite app_nil_r in Hk. by subst.
  - subst p. unfold parent. rewrite app_assoc, removelast_last.
    by apply prefix_app_r.
Qed.

(** After [mkdir(parents=True)] the target is a directory. *)
Lemma mkdir_chain_target target todo : ∀ (fs fs' : filesystem) above,
  mkdir_chain target fs above todo = inr fs' →
  todo ≠ [] → fs' !! (above ++ todo) = Some Dir.
Proof.
  induction todo as [|c rest IH]; intros fs fs' above Hrun Hne; [done|].
  cbn [mkdir_chain] in Hrun.
  rewrite (cons_middle c above rest), app_assoc.
  destruct (fs !! (above ++ [c])) as [[d|]|] eqn:Hl; [done| |].
  - destruct rest as [|c' rest'].
    + injection Hrun as <-. by rewrite app_nil_r.
    + by eapply IH.
  - destruct rest as [|c' rest'].
    + injection Hrun as <-. by rewrite app_nil_r, lookup_insert_eq.
    + by eapply IH.
Qed.

Lemma mkdir_parents_parent (fs fs1 : filesystem) p :
  mkdir_parents fs p = inr fs1 → node_at fs1 p = Some Dir.
Proof.
  intros Hmk. unfold node_at. destruct p as [|x q] eqn:Hp; [done|].
  rewrite <- Hp in *. apply (mkdir_chain_target p p fs fs1 [] Hmk). by subst.
Qed.

(** What [write] can make of the file system. *)
Lemma write_cases fs path content p :
  validate_path self path = inr p →
  let w := write unified_diff self fs path content in
  (success w.1 = false ∧ w.2 = fs)
  ∨ (∃ fs1, mkdir_parents fs (parent p) = inr fs1
            ∧ success w.1 = false ∧ w.2 = fs1 ∧ node_at fs1 p = Some Dir)
  ∨ (∃ fs1, mkdir_parents fs (parent p) = inr fs1
            ∧ success w.1 = true ∧ w.2 = <[p := File content]> fs1
            ∧ p ≠ [] ∧ fs1 !! p ≠ Some Dir).
Proof.
  intros Hv w. subst w. unfold write. rewrite Hv.
  destruct (_ <? _)%Z; [by left|].
  destruct (mkdir_parents fs (parent p)) as [e|fs1] eqn:Hmk; [by left|].
  pose proof (mkdir_parents_parent fs fs1 (parent p) Hmk) as Hpar.
  right. unfold exists_, read_text, write_text, create.
  destruct (node_at fs1 p) as [[d|]|] eqn:Hn.
  - right. exists fs1. repeat split; try done.
    + intros ->. done.
    + intros Hd. unfold node_at in Hn. destruct p; [done|]. congruence.
  - left. by exists fs1.
  - rewrite Hpar. right. exists fs1. repeat split; try done.
    + intros ->. done.
    + intros Hd. unfold node_at in Hn. destruct p; [done|]. congruence.
Qed.

(** X2.  Whatever [write] does to a path inside the jail, every other
    entry of the file system stays as it was; the only new entries are
    directories on the way to the target. *)
Theorem write_keeps_other_entries fs path content p :
  validate_path self path = inr p →
  ∀ q, q ≠ p →
    (write unified_diff self fs path content).2 !! q = fs !! q
    ∨ (fs !! q = None
       ∧ (write unified_diff self fs path content).2 !! q = Some Dir
       ∧ q `prefix_of` parent p).
Proof.
  intros Hv q Hq.
  destruct (write_cases fs path content p Hv)
    as [[_ ->] | [(fs1 & Hmk & _ & -> & _) | (fs1 & Hmk & _ & -> & _)]].
  - by left.
  - destruct (mkdir_chain_adds _ _ _ _ _ Hmk q) as [H|(H1 & H2 & H3 & _)];
      [by left | by right].
  - rewrite lookup_insert_ne by done.
    destruct (mkdir_chain_adds _ _ _ _ _ Hmk q) as [H|(H1 & H2 & H3 & _)];
      [by left | by right].
Qed.

(** What [edit] and [insert_lines] can make of the file system. *)
Lemma edit_cases fs path old_text new_text :
  let r := edit unified_diff self fs path old_text new_text in
  (success r.1 = false ∧ r.2 = fs)
  ∨ (∃ p d text, validate_path self path = inr p
                 ∧ node_at fs p = Some (File d)
                 ∧ success r.1 = true ∧ r.2 = <[p := File text]> fs).
Proof.
  intros r. subst r. unfold edit.
  destruct (validate_path self path) as [e|p]; [by left|].
  unfold exists_, read_text, write_text.
  destruct (node_at fs p) as [[d|]|] eqn:Hn; cbn [negb]; [|by left..].
  destruct (contains _ _); cbn [negb]; [|by left].
  right. by eexists p, d, _.
Qed.

Lemma insert_lines_cases fs path line_number content operation :
  let r := insert_lines unified_diff self fs path line_number content operation in
  (success r.1 = false ∧ r.2 = fs)
  ∨ (∃ p d text, validate_path self path = inr p
                 ∧ node_at fs p = Some (File d)
                 ∧ success r.1 = true ∧ r.2 = <[p := File text]> fs).
Proof.
  intros r. subst r. unfold insert_lines.
  destruct (validate_path self path) as [e|p]; [by left|].
  unfold exists_, read_text, write_text.
  destruct (node_at fs p) as [[d|]|] eqn:Hn; cbn [negb]; [|by left..].
  destruct (_ || _)%bool; [by left|].
  destruct (bool_decide (operation = py "after")).
  { right. by eexists p, d, _. }
  destruct (bool_decide (operation = py "before")).
  { right. by eexists p, d, _. }
  destruct (bool_decide (operation = py "replace")); [|by left].
  destruct (list_assign _ _ _); [by left|].
  right. by eexists p, d, _.
Qed.

(** X3.  [edit] and [insert_lines] never touch an entry other than the
    file the path resolves to, and create nothing: whatever they answer,
    the file system is as it was but for the content of that one file,
    which was a regular file before. *)
Theorem edit_and_insert_lines_change_only_the_target
    fs path old_text new_text line_number content operation :
  let e := edit unified_diff self fs path old_text new_text in
  let i := insert_lines unified_diff self fs path line_number content operation in
  (∀ q, validate_path self path ≠ inr q → e.2 !! q = fs !! q ∧ i.2 !! q = fs !! q)
  ∧ (e.2 = fs
     ∨ ∃ p d text, validate_path self path = inr p
                   ∧ node_at fs p = Some (File d)
                   ∧ e.2 = <[p := File text]> fs)
  ∧ (i.2 = fs
     ∨ ∃ p d text, validate_path self path = inr p
                   ∧ node_at fs p = Some (File d)
                   ∧ i.2 = <[p := File text]> fs).
Proof.
  intros e i. subst e i.
  assert (He : (edit unified_diff self fs path old_text new_text).2 = fs
               ∨ ∃ p d text, validate_path self path = inr p
                             ∧ node_at fs p = Some (File d)
                             ∧ (edit unified_diff self fs path old_text new_text).2
                               = <[p := File text]> fs).
  { destruct (edit_cases fs path old_text new_text)
      as [[_ H] | (p & d & text & Hv & Hn & _ & H)]; [by left|].
    right. exists p, d, text. by rewrite H. }
  assert (Hi : (insert_lines unified_diff self fs path line_number content
                             operation).2 = fs
               ∨ ∃ p d text, validate_path self path = inr p
                             ∧ node_at fs p = Some (File d)
                             ∧ (insert_lines unified_diff self fs path line_number
                                             content operation).2
                               = <[p := File text]> fs).
  { destruct (insert_lines_cases fs path line_number content operation)
      as [[_ H] | (p & d & text & Hv & Hn & _ & H)]; [by left|].
    right. exists p, d, text. by rewrite H. }
  split; [|by split].
  intros q Hq. split.
  - destruct He as [->|(p & d & text & Hv & _ & ->)]; [done|].
    rewrite lookup_insert_ne; [done|congruence].
  - destruct Hi as [->|(p & d & text & Hv & _ & ->)]; [done|].
    rewrite lookup_insert_ne; [done|congruence].
Qed.

Lemma well_formed_insert (fs : filesystem) p n :
  well_formed fs → p ≠ [] → node_at fs (parent p) = Some Dir →
  (n = Dir ∨ fs !! p ≠ Some Dir) →
  well_formed (<[p := n]> fs).
Proof.
  intros Hwf Hp Hpar Hn k Hk.
  destruct (decide (k = p)) as [->|Hkp].
  - rewrite node_at_insert_ne by by apply parent_ne. done.
  - rewrite lookup_insert_ne in Hk by done. pose proof (Hwf k Hk) as Hd.
    destruct (decide (parent k = p)) as [Heq|Hne].
    + rewrite Heq in *. rewrite node_at_insert_eq by done.
      unfold node_at in Hd. destruct p; [done|].
      destruct Hn as [->|Hn]; [done|]. congruence.
    + by rewrite node_at_insert_ne.
Qed.

Lemma mkdir_chain_well_formed target todo : ∀ (fs fs' : filesystem) above,
  well_formed fs → node_at fs above = Some Dir →
  mkdir_chain target fs above todo = inr fs' → well_formed fs'.
Proof.
  induction todo as [|c rest IH]; intros fs fs' above Hwf Habove Hrun.
  - by injection Hrun as <-.
  - cbn [mkdir_chain] in Hrun.
    assert (Hne : above ++ [c] ≠ []) by by destruct above.
    assert (Hparent : parent (above ++ [c]) = above)
      by apply removelast_last.
    destruct (fs !! (above ++ [c])) as [[d|]|] eqn:Hl; [done| |].
    + eapply (IH fs fs' (above ++ [c])); [done| |done].
      unfold node_at. by destruct (above ++ [c]).
    + eapply (IH _ fs' (above ++ [c])); [| |done].
      * apply well_formed_insert; [done|done| |by left]. by rewrite Hparent.
      * by apply node_at_insert_eq.
Qed.

(** X4.  [write], [edit] and [insert_lines] keep the file system well
    formed: after them every entry still lies in a directory. *)
Theorem operations_keep_well_formed
    fs path content old_text new_text line_number operation :
  well_formed fs →
  well_formed (write unified_diff self fs path content).2
  ∧ well_formed (edit unified_diff self fs path old_text new_text).2
  ∧ well_formed
      (insert_lines unified_diff self fs path line_number content operation).2.
Proof.
  intros Hwf. split; [|split].
  - destruct (validate_path self path) as [e|p] eqn:Hv.
    { unfold write. by rewrite Hv. }
    destruct (write_cases fs path content p Hv)
      as [[_ ->] | [(fs1 & Hmk & _ & -> & _) | (fs1 & Hmk & _ & -> & Hp & Hd)]].
    + done.
    + by eapply (mkdir_chain_well_formed _ _ fs fs1 []).
    + apply well_formed_insert; [|done| |by right].
      * by eapply (mkdir_chain_well_formed _ _ fs fs1 []).
      * by eapply mkdir_parents_parent.
  - destruct (edit_cases fs path old_text new_text)
      as [[_ ->] | (p & d & text & Hv & Hn & _ & ->)]; [done|].
    assert (Hp : p ≠ []) by (intros ->; done).
    assert (Hl : fs !! p = Some (File d)) by (unfold node_at in Hn; by destruct p).
    apply well_formed_insert; [done|done| |right; congruence].
    apply Hwf. by rewrite Hl.
  - destruct (insert_lines_cases fs path line_number content operation)
      as [[_ ->] | (p & d & text & Hv & Hn & _ & ->)]; [done|].
    assert (Hp : p ≠ []) by (intros ->; done).
    assert (Hl : fs !! p = Some (File d)) by (unfold node_at in Hn; by destruct p).
    apply well_formed_insert; [done|done| |right; congruence].
    apply Hwf. by rewrite Hl.
Qed.

(** In a well-formed file system everything above an entry is a
    directory. *)
Lemma well_formed_ancestors (fs : filesystem) k :
  well_formed fs → is_Some (fs !! k) →
  ∀ q, q `prefix_of` k → q ≠ k → node_at fs q = Some Dir.
Proof.
  intros Hwf. induction k as [|x k IH] using rev_ind; intros Hk q Hq Hne.
  - apply prefix_nil_inv in Hq. by subst.
  - pose proof (Hwf _ Hk) as Hpar. unfold parent in Hpar.
    rewrite removelast_last in Hpar.
    apply prefix_parent in Hq; [|done]. unfold parent in Hq.
    rewrite removelast_last in Hq.
    destruct (decide (q = k)) as [->|Hqk]; [done|].
    apply IH; [|done|done].
    unfold node_at in Hpar. destruct k; [by apply prefix_nil_inv in Hq|].
    by rewrite Hpar.
Qed.

(** X5.  On a well-formed file system a [write] that fails leaves no
    trace: no directory is made on the way to the failure. *)
Theorem failed_write_changes_nothing fs path content :
  well_formed fs →
  success (write unified_diff self fs path content).1 = false →
  (write unified_diff self fs path content).2 = fs.
Proof.
  intros Hwf Hfail. destruct (validate_path self path) as [e|p] eqn:Hv.
  { unfold write. by rewrite Hv. }
  destruct (write_cases fs path content p Hv)
    as [[_ ->] | [(fs1 & Hmk & _ & -> & Hd) | (fs1 & Hmk & Hs & _)]];
    [done| |congruence].
  destruct (decide (p = [])) as [->|Hp].
  { cbn in Hmk. by injection Hmk as <-. }
  assert (Hl1 : fs1 !! p = Some Dir) by (unfold node_at in Hd; by destruct p).
  assert (Hl : fs !! p = Some Dir).
  { destruct (mkdir_chain_adds _ _ _ _ _ Hmk p) as [H|(_ & _ & H3 & _)];
      [congruence|].
    apply prefix_length in H3. pose proof (parent_shorter p Hp). simpl in H3. lia. }
  apply map_eq. intros q.
  destruct (mkdir_chain_adds _ _ _ _ _ Hmk q) as [H|(H1 & _ & H3 & H4)]; [done|].
  assert (Hq : node_at fs q = Some Dir).
  { apply (well_formed_ancestors fs p); [done|by rewrite Hl| |].
    - etrans; [exact H3|]. simpl. rewrite (parent_name p Hp) at 2.
      by apply prefix_app_r.
    - intros ->. apply prefix_length in H3. pose proof (parent_shorter p Hp).
      simpl in H3. lia. }
  unfold node_at in Hq. destruct q; [simpl in H4; lia|]. congruence.
Qed.

Lemma under_prefix r q : under r q = true ↔ r `prefix_of` q.
Proof.
  revert q. induction r as [|a r IH]; intros q; simpl.
  - split; [intros _; apply prefix_nil | done].
  - destruct q as [|b q].
    + split; [done|]. by intros ?%prefix_nil_inv.
    + rewrite andb_true_iff, bool_decide_eq_true, IH. split.
      * intros [-> H]. by apply prefix_cons.
      * intros H. split; [by eapply prefix_cons_inv_1|by eapply prefix_cons_inv_2].
Qed.

Lemma under_refl p : under p p = true.
Proof. by apply under_prefix. Qed.

Lemma under_drop_nil p k : under p k = true → drop (length p) k = [] → k = p.
Proof.
  intros [t ->]%under_prefix. rewrite drop_app_length. intros ->.
  by rewrite app_nil_r.
Qed.

(** In a well-formed file system nothing lies below a regular file. *)
Lemma well_formed_file_leaf (fs : filesystem) p d k :
  well_formed fs → p ≠ [] → fs !! p = Some (File d) → is_Some (fs !! k) →
  under p k = true → k = p.
Proof.
  intros Hwf Hne0 Hp Hk Hu. apply under_prefix in Hu.
  destruct (decide (k = p)) as [|Hne]; [done|].
  pose proof (well_formed_ancestors fs k Hwf Hk p Hu (not_eq_sym Hne)) as Hd.
  unfold node_at in Hd. destruct p; [done|congruence].
Qed.

(** Moving a regular file to a free place. *)
Lemma rename_tree_file (fs : filesystem) p d dst :
  well_formed fs → p ≠ [] → fs !! p = Some (File d) → fs !! dst = None →
  rename_tree fs p dst !! dst = Some (File d)
  ∧ rename_tree fs p dst !! p = None
  ∧ ∀ q n, q ≠ p → fs !! q = Some n → rename_tree fs p dst !! q = Some n.
Proof.
  intros Hwf Hpne Hp Hdst. unfold rename_tree. rewrite (delete_id fs dst Hdst).
  assert (Hkeys : ∀ k v, (k, v) ∈ map_to_list fs → under p k = true → k = p ∧ v = File d).
  { intros k v Hin Hu. apply elem_of_map_to_list in Hin.
    assert (k = p) as -> by (eapply well_formed_file_leaf; eauto).
    split; [done|congruence]. }
  split; [|split].
  - apply elem_of_list_to_map_1'.
    + intros y Hy. apply list_elem_of_fmap in Hy as ([k v] & Heq & Hin).
      unfold rekey in Heq. cbn in Heq. destruct (under p k) eqn:Hu.
      * destruct (Hkeys k v Hin Hu) as [-> ->]. by injection Heq as _ ->.
      * injection Heq as <- <-. apply elem_of_map_to_list in Hin. congruence.
    + apply list_elem_of_fmap. exists (p, File d). split.
      * unfold rekey. cbn. by rewrite under_refl, drop_all, app_nil_r.
      * by apply elem_of_map_to_list.
  - apply not_elem_of_list_to_map_1. intros Hin.
    apply list_elem_of_fmap in Hin as ([k' v'] & Heq & Hin).
    apply list_elem_of_fmap in Hin as ([k v] & Heq' & Hin).
    unfold rekey in Heq'. cbn in Heq'. cbn in Heq. subst k'.
    destruct (under p k) eqn:Hu.
    + destruct (Hkeys k v Hin Hu) as [-> ->]. injection Heq' as Hk _.
      rewrite drop_all, app_nil_r in Hk. subst dst. congruence.
    + injection Heq' as -> _. by rewrite under_refl in Hu.
  - intros q n Hq Hn. apply elem_of_list_to_map_1'.
    + intros y Hy. apply list_elem_of_fmap in Hy as ([k v] & Heq & Hin).
      unfold rekey in Heq. cbn in Heq. destruct (under p k) eqn:Hu.
      * destruct (Hkeys k v Hin Hu) as [-> ->]. injection Heq as Hk _.
        rewrite drop_all, app_nil_r in Hk. subst q. congruence.
      * injection Heq as <- <-. apply elem_of_map_to_list in Hin. congruence.
    + apply list_elem_of_fmap. exists (q, n). split.
      * unfold rekey. cbn. destruct (under p q) eqn:Hu; [|done].
        exfalso. apply Hq. eapply well_formed_file_leaf; eauto.
      * by apply elem_of_map_to_list.
Qed.

(** X6.  [delete] of a regular file, with the trash directory free to
    be made and the trash name free, succeeds: the file leaves its place,
    its content is found under [.agent_trash/<timestamp>_<name>], and every
    other entry is kept. *)
Theorem delete_moves_file_to_trash fs timestamp path p d :
  well_formed fs →
  validate_path self path = inr p →
  node_at fs p = Some (File d) →
  is_dir fs (repo_root self) = true →
  is_file fs (trash_dir self) = false →
  let trash_path :=
    trash_dir self ++ [str_of_Z timestamp ++ py "_" ++ name p] in
  fs !! trash_path = None →
  let r := delete self timestamp fs path in
  success r.1 = true
  ∧ r.2 !! p = None
  ∧ r.2 !! trash_path = Some (File d)
  ∧ ∀ q n, q ≠ p → fs !! q = Some n → r.2 !! q = Some n.
Proof.
  intros Hwf Hv Hn Hroot Htrash trash_path Hfresh r. subst r.
  assert (Hp : p ≠ []) by (intros ->; done).
  assert (Hl : fs !! p = Some (File d)) by (unfold node_at in Hn; by destruct p).
  assert (Htne : trash_dir self ≠ []) by (unfold trash_dir; by destruct (repo_root self)).
  assert (Hpar : parent (trash_dir self) = repo_root self)
    by apply removelast_last.
  assert (Hdne : trash_path ≠ [])
    by (unfold trash_path; by destruct (trash_dir self)).
  assert (Hmk : ∃ fs1, mkdir fs (trash_dir self) = inr fs1
                       ∧ well_formed fs1
                       ∧ fs1 !! p = Some (File d)
                       ∧ fs1 !! trash_path = None
                       ∧ ∀ q n, fs !! q = Some n → fs1 !! q = Some n).
  { unfold mkdir, create. unfold is_file in Htrash. unfold is_dir in Hroot.
    destruct (node_at fs (trash_dir self)) as [[?|]|] eqn:Ht; [done| |].
    - by exists fs.
    - rewrite Hpar.
      destruct (node_at fs (repo_root self)) as [[?|]|] eqn:Hr; try done.
      rewrite node_at_lookup in Ht by done.
      exists (<[trash_dir self := Dir]> fs). split; [done|]. split.
      + apply well_formed_insert; [done|done| |by left]. by rewrite Hpar.
      + split; [|split].
        * rewrite lookup_insert_ne; [done|]. intros Heq.
          rewrite Heq in Ht.
          assert (None = Some (File d)) by (etrans; [symmetry; exact Ht|exact Hl]).
          done.
        * rewrite lookup_insert_ne; [done|]. unfold trash_path. intros Heq.
          rewrite <- (app_nil_r (trash_dir self)) in Heq at 1.
          by apply app_inv_head in Heq.
        * intros q n Hq. rewrite lookup_insert_ne; [done|].
          intros <-.
          assert (None = Some n) by (etrans; [symmetry; exact Ht|exact Hq]).
          done. }
  destruct Hmk as (fs1 & Hmk & Hwf1 & Hl1 & Hfresh1 & Hkeep).
  unfold delete. rewrite Hv. unfold exists_. rewrite Hn. cbn [negb].
  rewrite Hmk. fold trash_path. unfold shutil_move.
  assert (Hd1 : is_dir fs1 trash_path = false).
  { unfold is_dir, node_at. destruct trash_path; [done|]. by rewrite Hfresh1. }
  assert (Hd2 : is_dir fs1 p = false).
  { unfold is_dir, node_at. destruct p; [done|]. by rewrite Hl1. }
  rewrite Hd1, Hd2. cbn [andb fst snd].
  destruct (rename_tree_file fs1 p d trash_path Hwf1 Hp Hl1 Hfresh1)
    as (H1 & H2 & H3).
  repeat split; try done. intros q n Hq Hqn. apply H3; [done|]. by apply Hkeep.
Qed.

(** X7.  A [delete] that fails leaves the file system as it was, or with
    the trash directory added and nothing else: the directory is made
    before the move is tried. *)
Theorem failed_delete_adds_at_most_the_trash_directory fs timestamp path :
  success (delete self timestamp fs path).1 = false →
  (delete self timestamp fs path).2 = fs
  ∨ (fs !! trash_dir self = None
     ∧ (delete self timestamp fs path).2 = <[trash_dir self := Dir]> fs).
Proof.
  unfold delete. destruct (validate_path self path) as [e|p]; [by left|].
  destruct (exists_ fs p); cbn [negb]; [|by left].
  unfold mkdir, create.
  assert (Htne : trash_dir self ≠ [])
    by (unfold trash_dir; by destruct (repo_root self)).
  rewrite (node_at_lookup fs (trash_dir self) Htne).
  destruct (fs !! trash_dir self) as [[?|]|] eqn:Ht; [by left| |].
  - destruct (shutil_move _ _ _); [by left|done].
  - destruct (node_at fs (parent (trash_dir self))) as [[?|]|]; [by left| |by left].
    destruct (shutil_move _ _ _); [by right|done].
Qed.


Lemma insert_lines_after fs path line_number content :
  (insert_lines unified_diff self fs path line_number content (py "after")).2
  = inserted_at self fs path line_number content (Z.to_nat line_number).
Proof.
  unfold insert_lines, inserted_at.
  destruct (validate_path self path) as [e|p]; [done|].
  unfold exists_, read_text, write_text.
  destruct (node_at fs p) as [[d|]|] eqn:Hn; cbn [negb snd]; [|done|done].
  destruct (_ || _)%bool; [done|].
  by rewrite (bool_decide_eq_true_2 (py "after" = py "after")) by done.
Qed.

Lemma insert_lines_before fs path line_number content :
  (insert_lines unified_diff self fs path line_number content (py "before")).2
  = inserted_at self fs path line_number content (Z.to_nat (line_number - 1)).
Proof.
  unfold insert_lines, inserted_at.
  destruct (validate_path self path) as [e|p]; [done|].
  unfold exists_, read_text, write_text.
  destruct (node_at fs p) as [[d|]|] eqn:Hn; cbn [negb snd]; [|done|done].
  destruct (_ || _)%bool; [done|].
  rewrite (bool_decide_eq_false_2 (py "before" = py "after")) by done.
  by rewrite (bool_decide_eq_true_2 (py "before" = py "before")) by done.
Qed.

(** Inserting after line [n] is inserting before line [n + 1]. *)
Theorem insert_after_is_insert_before_next fs path line_number content p d :
  validate_path self path = inr p →
  node_at fs p = Some (File d) →
  (1 <= line_number
   <= Z.of_nat (length (terminate_last (splitlines (universal_newlines d)))))%Z →
  (insert_lines unified_diff self fs path line_number content (py "after")).2
  = (insert_lines unified_diff self fs path (line_number + 1) content
                  (py "before")).2.
Proof.
  intros Hv Hn Hrange. rewrite insert_lines_after, insert_lines_before.
  unfold inserted_at. rewrite Hv, Hn.
  rewrite !orb_false_intro by (apply Z.ltb_ge; lia).
  by replace (line_number + 1 - 1)%Z with line_number by lia.
Qed.

(** X8.  One past the last line, [after] and [before] append the
    content, while [replace], which the range check lets through, fails
    with the list's own index error and changes nothing. *)
Theorem insert_lines_one_past_the_end fs path content p d :
  validate_path self path = inr p →
  node_at fs p = Some (File d) →
  let lines := terminate_last (splitlines (universal_newlines d)) in
  let n := (Z.of_nat (length lines) + 1)%Z in
  let appended :=
    <[p := File (concat lines ++ terminate_content content)]> fs in
  (insert_lines unified_diff self fs path n content (py "after")).2 = appended
  ∧ (insert_lines unified_diff self fs path n content (py "before")).2 = appended
  ∧ insert_lines unified_diff self fs path n content (py "replace")
    = (failed (py "Error inserting in " ++ path
                 ++ py ": list assignment index out of range") None, fs).
Proof.
  intros Hv Hn lines n appended. subst n appended.
  rewrite insert_lines_after, insert_lines_before. unfold inserted_at.
  rewrite Hv, Hn. fold lines.
  rewrite !orb_false_intro by (apply Z.ltb_ge; lia).
  assert (Hcat : ∀ i, length lines <= i →
            concat (list_insert_at i (terminate_content content) lines)
            = concat lines ++ terminate_content content).
  { intros i Hi. unfold list_insert_at.
    rewrite take_ge, drop_ge by lia. rewrite concat_app. cbn.
    by rewrite app_nil_r. }
  rewrite !Hcat by lia. split; [done|]. split; [done|].
  unfold insert_lines. rewrite Hv. unfold exists_, read_text. rewrite Hn.
  cbn [negb]. fold lines.
  rewrite !orb_false_intro by (apply Z.ltb_ge; lia).
  rewrite (bool_decide_eq_false_2 (py "replace" = py "after")) by done.
  rewrite (bool_decide_eq_false_2 (py "replace" = py "before")) by done.
  rewrite (bool_decide_eq_true_2 (py "replace" = py "replace")) by done.
  unfold list_assign.
  rewrite (proj2 (Nat.ltb_ge _ _)) by lia. done.
Qed.

(** X9.  [list_directory] of a directory succeeds with the number of
    entries in its message and no data: the sorted names are counted and
    dropped. *)
Theorem list_directory_only_counts fs path p :
  validate_path self path = inr p →
  is_dir fs p = true →
  list_directory self fs path
  = {| success := true;
       message := py "Found " ++ str_of_nat (length (iterdir fs p)) ++ py " items";
       diff := None; path := Some (render p); data := None |}.
Proof.
  intros Hv Hd. unfold list_directory. rewrite Hv.
  unfold exists_. unfold is_dir in Hd.
  destruct (node_at fs p) as [[?|]|] eqn:Hn; try done. cbn [negb].
  unfold is_dir. rewrite Hn. cbn [negb].
  by rewrite (Permutation_length (merge_sort_Permutation _ _)).
Qed.

End FileSystem.

(** ** Shell adapter: validation *)

Section ShellValidation.
Import Shell.
Variable W : Type.
Variable re_search : str -> str -> bool.
Variable subprocess_run : str -> list str -> Z -> W -> outcome * W.
Variable self : ShellTool.

Lemma first_match_Some patterns command reason :
  first_match re_search patterns command = Some reason →
  ∃ pattern, (pattern, reason) ∈ patterns ∧ re_search pattern command = true.
Proof.
  induction patterns as [|[p r] rest IH]; [done|]. cbn [first_match].
  destruct (re_search p command) eqn:Hp.
  - intros [= ->]. exists p. split; [left|done].
  - intros (q & Hin & Hq)%IH. exists q. split; [by right|done].
Qed.

Lemma first_match_None patterns command :
  first_match re_search patterns command = None
  ↔ ∀ pattern reason, (pattern, reason) ∈ patterns →
                      re_search pattern command = false.
Proof.
  induction patterns as [|[p r] rest IH]; cbn [first_match].
  - split; [|done]. intros _ ?? Hin. by apply elem_of_nil in Hin.
  - destruct (re_search p command) eqn:Hp.
    + split; [done|]. intros Hall. rewrite (Hall p r) in Hp; [done|left].
    + rewrite IH. split.
      * intros Hall ?? [[= -> ->]|Hin]%elem_of_cons; [done|by eapply Hall].
      * intros Hall ?? Hin. eapply Hall. by right.
Qed.

Lemma dangerous_reasons_nonempty pattern reason :
  (pattern, reason) ∈ dangerous_patterns → reason ≠ [].
Proof.
  unfold dangerous_patterns. intros Hin.
  repeat (apply elem_of_cons in Hin as [[= -> ->]|Hin]; [done|]).
  by apply elem_of_nil in Hin.
Qed.

Lemma validate_command_dangerous command :
  (∃ pattern reason, (pattern, reason) ∈ dangerous_patterns
                     ∧ re_search pattern command = true) →
  ∃ c msg, validate_command re_search self command = Some (c :: msg).
Proof.
  intros (pattern & reason & Hin & Hm). unfold validate_command.
  destruct (bool_decide (base_command command ∈ allowlist self)); cbn [negb].
  - destruct (first_match re_search dangerous_patterns command) as [r|] eqn:Hf.
    + destruct (first_match_Some _ _ _ Hf) as (q & Hq & _).
      apply dangerous_reasons_nonempty in Hq. destruct r; [done|]. by eexists _, _.
    + rewrite first_match_None in Hf. rewrite (Hf _ _ Hin) in Hm. done.
  - by eexists _, _.
Qed.

(** X10.  A command that matches one of the five dangerous patterns is
    rejected, allowlisted or not: [run] returns the rejection with a
    reason and the world it was given. *)
Theorem dangerous_command_never_runs command timeout w :
  (∃ pattern reason, (pattern, reason) ∈ dangerous_patterns
                     ∧ re_search pattern command = true) →
  ∃ msg, run W re_search subprocess_run self command timeout w
         = (rejected command (py "Command rejected: " ++ msg), w)
         ∧ msg ≠ [].
Proof.
  intros (c & msg & Hv)%validate_command_dangerous.
  exists (c :: msg). unfold run. by rewrite Hv.
Qed.

(** X11.  [run] reports success exactly when the base command is
    allowlisted, no dangerous pattern matches and the subprocess completes
    with return code 0; a failed result never carries exit code 0. *)
Theorem run_succeeds_iff command timeout w :
  let r := run W re_search subprocess_run self command timeout w in
  (success r.1 = true
   ↔ base_command command ∈ allowlist self
     ∧ (∀ pattern reason, (pattern, reason) ∈ dangerous_patterns →
                          re_search pattern command = false)
     ∧ ∃ out err w',
         subprocess_run command (repo_root self) (actual_timeout self timeout) w
         = (Completed 0 out err, w'))
  ∧ (success r.1 = false → exit_code r.1 ≠ 0%Z).
Proof.
  intros r. subst r. unfold run, validate_command.
  destruct (bool_decide (base_command command ∈ allowlist self)) eqn:Hb;
    cbn [negb].
  2:{ apply bool_decide_eq_false in Hb. split; [|done].
      split; [done|]. by intros [? _]. }
  apply bool_decide_eq_true in Hb.
  destruct (first_match re_search dangerous_patterns command) as [reason|] eqn:Hf.
  - destruct (first_match_Some _ _ _ Hf) as (q & Hq & Htrue).
    pose proof (dangerous_reasons_nonempty _ _ Hq) as Hne.
    destruct reason as [|c reason]; [done|].
    split; [|done]. split; [done|].
    intros (_ & Hall & _). rewrite (Hall _ _ Hq) in Htrue. done.
  - pose proof (proj1 (first_match_None _ _) Hf) as Hall.
    destruct (subprocess_run command (repo_root self)
                (actual_timeout self timeout) w) as [[rc out err| |e] w'] eqn:Hs.
    + cbn [fst success exit_code]. split.
      * rewrite Z.eqb_eq. split.
        -- intros ->. split; [done|]. split; [done|]. by eexists _, _, _.
        -- intros (_ & _ & out' & err' & w'' & Heq). by injection Heq.
      * intros Hne%Z.eqb_neq. done.
    + split; [|done]. split; [done|]. intros (_ & _ & ? & ? & ? & ?). done.
    + split; [|done]. split; [done|]. intros (_ & _ & ? & ? & ? & ?). done.
Qed.

Lemma lstrip_blank s : Forall (λ c, is_space c = true) s → lstrip s = [].
Proof. induction 1 as [|c s Hc _ IH]; [done|]. cbn. by rewrite Hc. Qed.

(** A command of white space alone names the empty executable, which is
    rejected unless the allowlist holds the empty string. *)
Theorem blank_command_is_rejected command timeout w :
  Forall (λ c, is_space c = true) command →
  [] ∉ allowlist self →
  run W re_search subprocess_run self command timeout w
  = (rejected command (py "Command rejected: Command '' not in allowlist"), w).
Proof.
  intros Hb Hn.
  assert (Hbase : base_command command = []).
  { unfold base_command, first_word, strip. rewrite (lstrip_blank command Hb). reflexivity. }
  unfold run, validate_command. rewrite Hbase.
  by rewrite bool_decide_eq_false_2.
Qed.

End ShellValidation.

(** ** Approval gate and executor *)

Section ApprovalGate.
Import Schemas Approvals.
Variable re_search_ignorecase : str -> str -> bool.
Variable self : ApprovalSystem.

(** [assess_action] raises exactly on an unscannable shell step.  When
    it returns, it asks for confirmation exactly when it refuses, and its
    score is never below the action's own. *)
Theorem assess_action_confirms_exactly_refusals action :
  (assess_action re_search_ignorecase self action = None
   ↔ unscannable_step self action = true)
  ∧ ∀ d, assess_action re_search_ignorecase self action = Some d →
    requires_confirmation d = negb (approved d)
    ∧ (Schemas.risk_score action <= Approvals.risk_score d)%Q
    ∧ (approved d = true →
       (Schemas.risk_score action <= auto_approve_max self)%Q
       ∧ Approvals.risk_score d = Schemas.risk_score action
       ∧ is_dangerous_shell re_search_ignorecase self action = Some false).
Proof.
  unfold assess_action. cbv zeta.
  case_bool_decide as Hd.
  - assert (Hn : type action ≠ SHELL_RUN) by congruence.
    unfold unscannable_step, is_dangerous_shell.
    rewrite (bool_decide_eq_false_2 _ Hn). cbn [andb negb].
    split; [done|]. intros d [= <-]. cbn.
    split; [done|]. split; [apply Qle_refl|]. by intros Ha%Qle_bool_iff.
  - case_bool_decide as Hs.
    + pose proof (is_dangerous_shell_step re_search_ignorecase self action Hs)
        as Hstep.
      unfold is_dangerous_shell in Hstep.
      rewrite (bool_decide_eq_true_2 _ Hs) in Hstep. cbn [negb] in Hstep.
      cbv zeta in Hstep. unfold is_dangerous_shell.
      rewrite (bool_decide_eq_true_2 _ Hs). cbn [negb]. cbv zeta.
      rewrite Hstep.
      destruct (unscannable_step self action); [by split; [|intros d [=]]|].
      destruct (dangerous_step re_search_ignorecase self action);
        (split; [done|]); intros d [= <-]; cbn.
      * split; [done|]. split; [|done].
        destruct (Qgtb (8 # 10) (Schemas.risk_score action)) eqn:Hg;
          [apply Qgtb_lt in Hg; by apply Qlt_le_weak | apply Qle_refl].
      * split; [done|]. split; [apply Qle_refl|]. by intros Ha%Qle_bool_iff.
    + unfold unscannable_step, is_dangerous_shell.
      rewrite (bool_decide_eq_false_2 _ Hs). cbn [andb negb].
      split; [done|]. intros d [= <-]. cbn.
      split; [done|]. split; [apply Qle_refl|]. by intros Ha%Qle_bool_iff.
Qed.

(** X12.  The plan gate is at least as strict as the action gate: every
    step of a plan that [assess_plan] approves is approved by
    [assess_action], with a score no higher than the plan's. *)
Theorem approved_plan_approves_each_step plan step d :
  assess_plan re_search_ignorecase self plan = Some d →
  approved d = true →
  step ∈ steps plan →
  ∃ d', assess_action re_search_ignorecase self step = Some d'
        ∧ approved d' = true
        ∧ (Approvals.risk_score d' <= Approvals.risk_score d)%Q.
Proof.
  intros Hp Ha Hin.
  assert (∃ d, assess_plan re_search_ignorecase self plan = Some d
               ∧ approved d = true) as (Hne & Hr & _ & Hs)%assess_plan_approved
    by (by exists d).
  assert (Hrisk : Qle_bool (Schemas.risk_score step) (auto_approve_max self) = true).
  { unfold risk_trigger in Hr.
    destruct (Qle_bool _ _) eqn:Hq; [done|].
    assert (existsb (λ step, Qgtb (Schemas.risk_score step) (auto_approve_max self))
              (steps plan) = true); [|congruence].
    apply existsb_exists. exists step. split; [by apply list_elem_of_In|].
    unfold Qgtb. by rewrite Hq. }
  assert (Hd : assess_action re_search_ignorecase self step
               = Some {| approved := true; risk_score := Schemas.risk_score step;
                         reason := if bool_decide (type step = FS_DELETE)
                                   then py "File deletion"
                                   else py "Standard risk assessment";
                         requires_confirmation := false |}).
  { unfold assess_action. cbv zeta. unfold Qgtb. rewrite Hrisk.
    destruct (bool_decide (type step = FS_DELETE)); [done|].
    case_bool_decide as Hshell; [|done].
    specialize (Hs step Hin Hshell). unfold is_dangerous_shell in Hs.
    rewrite (bool_decide_eq_true_2 _ Hshell) in Hs. cbn [negb] in Hs.
    cbv zeta in Hs. by rewrite Hs. }
  eexists. split; [exact Hd|]. cbn [approved Approvals.risk_score].
  split; [done|].
  unfold assess_plan in Hp.
  destruct (steps plan) as [|first rest] eqn:Hsteps; [done|].
  destruct (py_max_is_maximum (Schemas.risk_score first)
              (Schemas.risk_score <$> rest)) as [_ Hub].
  assert (Hle : (Schemas.risk_score step
                 <= py_max (Schemas.risk_score first) (Schemas.risk_score <$> rest))%Q).
  { apply Hub. change (Schemas.risk_score step
                       ∈ Schemas.risk_score <$> (first :: rest)).
    by apply list_elem_of_fmap_2. }
  destruct (py_any _ _); [|done]. injection Hp as <-.
  by destruct (_ ++ _).
Qed.

Lemma existsb_submseteq {A} (f : A → bool) (l k : list A) :
  l ⊆+ k → existsb f l = true → existsb f k = true.
Proof.
  intros Hsub (x & Hx & Hf)%existsb_exists. apply existsb_exists.
  exists x. split; [|done]. apply list_elem_of_In.
  eapply elem_of_submseteq; [by apply list_elem_of_In|done].
Qed.

Lemma filter_submseteq_mono {A} (P : A → Prop) `{∀ x, Decision (P x)}
    (l k : list A) :
  l ⊆+ k → filter P l ⊆+ filter P k.
Proof.
  induction 1 as [|x l k _ IH|x y l|x l k _ IH|l k m _ IH1 _ IH2].
  - done.
  - rewrite !filter_cons. destruct (decide (P x)); [by constructor|done].
  - rewrite !filter_cons. destruct (decide (P x)), (decide (P y)); try done.
    apply submseteq_swap.
  - rewrite filter_cons. destruct (decide (P x)); [by apply submseteq_cons|done].
  - by etrans.
Qed.

Lemma delete_count_submseteq plan plan' :
  steps plan ⊆+ steps plan' → (delete_count plan <= delete_count plan')%Z.
Proof.
  intros Hsub. rewrite <- !delete_count_filter.
  apply inj_le, submseteq_length. by apply filter_submseteq_mono.
Qed.

(** X13.  Approval is inherited by sub-plans: a plan with steps, all of
    which occur in an approved plan, is approved. *)
Theorem approved_plan_approves_sub_plans plan plan' d' :
  steps plan ≠ [] →
  steps plan ⊆+ steps plan' →
  assess_plan re_search_ignorecase self plan' = Some d' →
  approved d' = true →
  ∃ d, assess_plan re_search_ignorecase self plan = Some d
       ∧ approved d = true.
Proof.
  intros Hne Hsub Hp Ha.
  assert (∃ d, assess_plan re_search_ignorecase self plan' = Some d
               ∧ approved d = true) as (_ & Hr & Hd & Hs)%assess_plan_approved
    by (by exists d').
  apply assess_plan_approved. split; [done|].
  split; [|split].
  - destruct (risk_trigger self plan) eqn:H; [|done].
    unfold risk_trigger in *. by rewrite (existsb_submseteq _ _ _ Hsub H) in Hr.
  - unfold delete_trigger in *. apply Z.ltb_ge. apply Z.ltb_ge in Hd.
    pose proof (delete_count_submseteq _ _ Hsub). lia.
  - intros step Hin. apply Hs. by eapply elem_of_submseteq.
Qed.

End ApprovalGate.

Section ExecutorFailures.
Import Schemas Executor.
Variable X : Type.
Variable unified_diff : list str -> list str -> str -> str -> list str.
Variable re_search : str -> str -> bool.
Variable subprocess_run : str -> list str -> Z -> (Fs.filesystem * X) -> Shell.outcome * (Fs.filesystem * X).
Variable deps_install : str -> list str -> (Fs.filesystem * X) -> DepsResult * (Fs.filesystem * X).
Variable git_checkout : str -> bool -> (Fs.filesystem * X) -> GitResult * (Fs.filesystem * X).
Variable clock : X -> Z.
Variable self : Executor.

#[local] Abbreviation run_executor a d w :=
  (execute X unified_diff re_search subprocess_run deps_install git_checkout
           clock self a d w).

(** X14.  Through the executor, a file action whose path is missing,
    empty or outside the jail fails without a diff and leaves the world as
    it was, whatever its other arguments are. *)
Theorem fs_action_outside_jail_changes_nothing action w :
  fs_action (type action) = true →
  (∀ p, path (args action) = Some p → p = [] ∨ jail_violation (fs_tool self) p) →
  success (run_executor action false w).1 = false
  ∧ diff (run_executor action false w).1 = []
  ∧ (run_executor action false w).2 = w.
Proof.
  intros Ht Hp. destruct w as [fs x].
  assert (Hv : ∀ c p, path (args action) = Some (c :: p) →
               ∃ msg, Fs.validate_path (fs_tool self) (c :: p)
                      = inl (Fs.ValueError msg)).
  { intros c p Heq. destruct (Hp _ Heq) as [|Hj]; [done|].
    by apply jail_violation_rejected. }
  unfold execute, fs_action in *.
  destruct (type action); try discriminate Ht;
    unfold execute_fs_write, execute_fs_edit, execute_fs_insert_lines,
      execute_fs_delete;
    destruct (path (args action)) as [[|c p]|] eqn:Hpath; try done;
    destruct (Hv c p eq_refl) as [msg Hmsg].
  - destruct (content (args action)); [|done].
    unfold Fs.write. cbn [fst snd]. by rewrite Hmsg.
  - destruct (old_text (args action)), (new_text (args action)); try done.
    unfold Fs.edit. cbn [fst snd]. by rewrite Hmsg.
  - destruct (line_number (args action)), (content (args action)); try done.
    unfold Fs.insert_lines. cbn [fst snd]. by rewrite Hmsg.
  - unfold Fs.delete. cbn [fst snd]. by rewrite Hmsg.
Qed.

(** X15.  Through the executor, a shell action whose command is
    missing, empty, off the allowlist or dangerous fails and leaves the
    world as it was. *)
Theorem shell_action_rejected_changes_nothing action w :
  type action = SHELL_RUN →
  (∀ c, get (command (args action)) = Some c →
        c = [] ∨ Shell.base_command c ∉ Shell.allowlist (shell_tool self)
        ∨ ∃ pattern reason, (pattern, reason) ∈ Shell.dangerous_patterns
                            ∧ re_search pattern c = true) →
  success (run_executor action false w).1 = false
  ∧ (run_executor action false w).2 = w.
Proof.
  intros Ht Hc. unfold execute, execute_shell_run. rewrite Ht.
  destruct (get (command (args action))) as [[|c cmd]|] eqn:Hcmd; try done.
  destruct (Hc _ eq_refl) as [|[Hn|Hd]]; [done| |].
  - unfold Shell.run, Shell.validate_command.
    rewrite bool_decide_eq_false_2 by done. done.
  - destruct (validate_command_dangerous re_search (shell_tool self) _ Hd)
      as (c' & msg & Hv).
    unfold Shell.run. by rewrite Hv.
Qed.


End ExecutorFailures.

(** ** Orchestration loop: bookkeeping *)

Section LoopInvariants.
Import Schemas Agent.

Variable W : Type.
Variable execute : Action -> W -> Executor.ExecutionResult * W.
Variable fs_read : str -> W -> Fs.FileOperation.
Variable llm_plan : list (str * str) -> list (str * str) -> W -> Plan * W.
Variable llm_reflect :
  Plan -> str -> list str -> W -> option ReflectionResult * W.
Variable retrieve : str -> W -> list (str * str) * W.
Variable verify : W -> VerificationResult * W.
Variable isoformat_now : W -> str.

#[local] Abbreviation run_action' :=
  (run_action W execute fs_read llm_reflect isoformat_now).
#[local] Abbreviation run_actions' :=
  (run_actions W execute fs_read llm_reflect isoformat_now).
#[local] Abbreviation track' := (track W isoformat_now).
#[local] Abbreviation repair' := (reflect_and_repair W execute llm_reflect).
#[local] Abbreviation iterate' :=
  (iterate W execute fs_read llm_plan llm_reflect verify isoformat_now).
#[local] Abbreviation agent_loop' :=
  (agent_loop W execute fs_read llm_plan llm_reflect retrieve verify isoformat_now).


Lemma reread_frame affected (l : loop W) :
  res (reread W fs_read affected l) = res l
  ∧ state (reread W fs_read affected l) = state l
  ∧ world (reread W fs_read affected l) = world l
  ∧ calls (reread W fs_read affected l) = calls l.
Proof.
  unfold reread. revert l.
  induction affected as [|p affected IH]; intros l; [done|].
  cbn [fold_left].
  destruct (Fs.success (fs_read p (world l))), (Fs.data (fs_read p (world l)))
    as [[|c d]|]; try apply IH.
  destruct (IH (with_context W (refresh p (c :: d)) l)) as (-> & -> & -> & ->).
  done.
Qed.

Lemma track_effect a r (l : loop W) :
  let l' := track' a (observe a r) l in
  steps (res l') = steps (res l) ++ [step_of (steps_executed (res l)) a r]
  ∧ steps_executed (res l') = steps_executed (res l) + 1
  ∧ observations (res l') = observations (res l) ++ [observe a r]
  ∧ executed_actions (state l')
    = executed_actions (state l)
      ++ [{| entry_type := value (type a);
             result := step_of (steps_executed (res l)) a r;
             timestamp := isoformat_now (world l) |}]
  ∧ diffs (state l) `prefix_of` diffs (state l')
  ∧ messages (state l') = messages (state l)
  ∧ verification_results (state l') = verification_results (state l).
Proof.
  intros l'. subst l'. unfold track.
  unfold step_of.
  destruct (diff (observe a r)) as [[|c d]|] eqn:Hd; cbn;
    repeat split; try done; by apply prefix_app_r.
Qed.

Lemma repair_effect o (l : loop W) :
  let f := repair' o l in
  let l' := outcome_of f in
  steps (res l') = steps (res l)
  ∧ steps_executed (res l') = steps_executed (res l)
  ∧ iterations (res l') = iterations (res l)
  ∧ state l' = state l
  ∧ (∃ (k : nat) fixes,
       calls l' = calls l ++ fixes ∧ length fixes = k
       ∧ self_corrections (res l') = self_corrections (res l) + k
       ∧ k <= 1
       ∧ length (observations (res l)) <= length (observations (res l'))
       ∧ length (observations (res l')) <= length (observations (res l)) + k)
  ∧ (if returned f then success (res l') = false
     else success (res l') = success (res l)).
Proof.
  intros f l'. subst f l'. unfold reflect_and_repair.
  destruct (current_plan (state l)) as [plan|].
  2:{ cbn. repeat split; try done. exists 0, []. rewrite app_nil_r.
      repeat split; try done; lia. }
  destruct (llm_reflect plan (message o) (diffs (state l)) (world l))
    as [[refl|] w2].
  2:{ cbn. repeat split; try done. exists 0, []. rewrite app_nil_r.
      repeat split; try done; lia. }
  destruct (Schemas.steps (fix_plan refl)) as [|fx more].
  { cbn. repeat split; try done. exists 0, []. rewrite app_nil_r.
      repeat split; try done; lia. }
  cbn [take]. unfold run_fixes, call. cbn [with_res world res state context calls].
  destruct (execute fx w2) as [fr w3].
  destruct (Executor.success fr) eqn:Hfr.
  - destruct (context_update (observe fx fr)); cbn;
      (repeat split; try done; exists 1, [fx];
       repeat split; try done; rewrite ?length_app; cbn; lia).
  - cbn. repeat split; try done. exists 1, [fx].
    repeat split; try done; lia.
Qed.

Lemma run_action_effect action (l : loop W) :
  ∃ r, (execute action (world l)).1 = r
       ∧ advanced action r l (outcome_of (run_action' action l))
                  (returned (run_action' action l)).
Proof.
  exists (execute action (world l)).1. split; [done|].
  unfold run_action, call.
  destruct (execute action (world l)) as [r w1]. cbn [fst]. cbv zeta.
  set (l1 := {| res := res l; state := state l; context := context l;
                world := w1; calls := calls l ++ [action] |}).
  set (o := observe action r).
  destruct (track_effect action r l1) as (Hs & Hn & Ho & He & Hd & Hm & Hv).
  destruct (track_frame W isoformat_now action o l1)
    as (Hw & Hc & _ & Hsu & Hsc & Hi & Hcp).
  fold o in Hs, Hn, Ho, He, Hd, Hm, Hv.
  change (Schemas.success o) with (Executor.success r).
  destruct (Executor.success r) eqn:Hr; cbn [negb].
  - (* the action succeeded *)
    assert (Hl : ∀ l5, res l5 = res (track' action o l1)
                       → state l5 = state (track' action o l1)
                       → calls l5 = calls (track' action o l1)
                       → advanced action r l l5 false).
    { intros l5 E1 E2 E3. split; rewrite ?E1, ?E2, ?E3, ?Hr; try done.
      - by eexists.
      - exists 0, []. rewrite Hc, Hsc, Ho, length_app. cbn.
        repeat split; try done; lia. }
    destruct (context_update o); cbn [outcome_of returned].
    + by apply Hl.
    + destruct (reread_frame (affected_files o) (track' action o l1))
        as (E1 & E2 & _ & E3). by apply Hl.
  - destruct (can_retry o).
    + destruct (repair_effect o (track' action o l1))
        as (R1 & R2 & R3 & R4 & (k & fixes & R5 & R6 & R7 & R8 & R9 & R10) & R11).
      destruct (repair' o (track' action o l1)) as [l5|l5];
        cbn [outcome_of returned] in *.
      * split; rewrite ?R1, ?R2, ?R3, ?R4, ?Hr; try done.
        -- by eexists.
        -- exists k, fixes. rewrite R5, R7, Hc, Hsc. cbn [calls l1].
           rewrite <- app_assoc. cbn [app].
           rewrite Ho, length_app in R9, R10. cbn in R9, R10.
           repeat split; try done; lia.
        -- by rewrite R11.
      * split; rewrite ?R1, ?R2, ?R3, ?R4, ?Hr; try done.
        -- by eexists.
        -- exists k, fixes. rewrite R5, R7, Hc, Hsc. cbn [calls l1].
           rewrite <- app_assoc. cbn [app].
           rewrite Ho, length_app in R9, R10. cbn in R9, R10.
           repeat split; try done; lia.
    + cbn [outcome_of returned].
      split; cbn [with_res res state calls set_success self_corrections
                  observations steps steps_executed iterations success];
        rewrite ?Hr; try done.
      * by eexists.
      * exists 0, []. rewrite Hc, Hsc, Ho, length_app. cbn.
        repeat split; try done; lia.
Qed.


Lemma failed_steps_snoc rs sr :
  failed_steps {| success := success rs; iterations := iterations rs;
                  steps_executed := steps_executed rs;
                  steps := steps rs ++ [sr];
                  observations := observations rs;
                  self_corrections := self_corrections rs |}
  = failed_steps rs + (if step_success sr then 0 else 1).
Proof.
  unfold failed_steps. cbn [steps]. rewrite filter_app, length_app.
  rewrite filter_cons, filter_nil. destruct (step_success sr); by cbn.
Qed.

Lemma advanced_counted a r (l l' : loop W) out :
  advanced a r l l' out → counted l → counted l'.
Proof.
  intros [Hs Hn _ _ _ _ _ _ (k & fixes & Hc & Hk & Hsc & Hk1 & Hkf & Ho1 & Ho2) _]
         [C1 C2 C3 C4 [C5 C6]].
  assert (Hf : failed_steps (res l')
               = failed_steps (res l) + (if Executor.success r then 0 else 1)).
  { unfold failed_steps. rewrite Hs, filter_app, length_app.
    rewrite filter_cons, filter_nil. cbn [step_of step_success].
    destruct (Executor.success r); by cbn. }
  split.
  - rewrite Hn, Hs, length_app. cbn. lia.
  - rewrite Hs, fmap_app, length_app, C2. cbn [length fmap list_fmap step_of step].
    rewrite seq_app. cbn [seq]. rewrite C1.
    do 2 f_equal. lia.
  - rewrite Hc, Hs, Hsc, !length_app. cbn [length]. lia.
  - rewrite Hsc, Hf. destruct (Executor.success r); [|lia].
    assert (k = 0); [|lia]. destruct (decide (k = 1)) as [E|]; [|lia].
    by specialize (Hkf E).
  - rewrite Hs, Hc, !length_app. cbn [length]. lia.
Qed.

Lemma advanced_logged a r (l l' : loop W) out s new :
  advanced a r l l' out → logged s (state l) new →
  logged s (state l') (new ++ [step_of (steps_executed (res l)) a r]).
Proof.
  intros [_ _ _ [now He] Hd Hm Hv _ _ _] [(entries & L1 & L2 & L3) L4 L5 L6].
  split.
  - eexists (entries ++ [_]). rewrite He, L1, <- app_assoc.
    split; [done|]. rewrite fmap_app, L2. split; [done|].
    apply Forall_app. split; [done|]. by repeat constructor.
  - by etrans.
  - by rewrite Hm.
  - by rewrite Hv.
Qed.


Lemma run_action_follows s action (l : loop W) :
  follows s l (outcome_of (run_action' action l)) 1.
Proof.
  destruct (run_action_effect action l) as (r & _ & Ha).
  split; [by eapply advanced_counted|].
  split.
  { intros Hl. rewrite (adv_steps _ _ _ _ _ Ha). by eapply advanced_logged. }
  destruct Ha. repeat split; [lia|done|done].
Qed.

Lemma run_action_flag action (l : loop W) :
  if returned (run_action' action l)
  then success (res (outcome_of (run_action' action l))) = false
       ∧ last_step_failed (res (outcome_of (run_action' action l)))
  else success (res (outcome_of (run_action' action l))) = success (res l).
Proof.
  destruct (run_action_effect action l) as (r & _ & [Hs _ _ _ _ _ _ _ _ Hf]).
  destruct (returned _); [|done].
  destruct Hf as [Hf Hr]. split; [done|].
  eexists. rewrite Hs, last_snoc. split; [done|]. exact Hr.
Qed.

Lemma run_actions_follows s actions (l : loop W) :
  follows s l (outcome_of (run_actions' actions l)) (length actions).
Proof.
  revert l. induction actions as [|a actions IH]; intros l.
  { cbn. unfold follows. split; [done|]. split; [done|]. split; [lia|done]. }
  cbn [run_actions length].
  pose proof (run_action_follows s a l) as (F1 & F2 & F3 & F4 & F5).
  destruct (run_action' a l) as [l1|l1]; cbn [outcome_of] in *.
  - destruct (IH l1) as (G1 & G2 & G3 & G4 & G5).
    unfold follows. split; [tauto|]. split; [tauto|].
    split; [lia|]. split; congruence.
  - unfold follows. split; [done|]. split; [done|]. split; [lia|done].
Qed.

Lemma run_actions_flag actions (l : loop W) :
  if returned (run_actions' actions l)
  then success (res (outcome_of (run_actions' actions l))) = false
       ∧ last_step_failed (res (outcome_of (run_actions' actions l)))
  else success (res (outcome_of (run_actions' actions l))) = success (res l).
Proof.
  revert l. induction actions as [|a actions IH]; intros l; [done|].
  cbn [run_actions]. pose proof (run_action_flag a l) as Ha.
  destruct (run_action' a l) as [l1|l1]; cbn [outcome_of returned] in *.
  - specialize (IH l1). destruct (returned _); [done|]. by rewrite IH.
  - done.
Qed.

Lemma py_take_length {A} k (l : list A) :
  (0 <= k)%Z → length (py_take k l) <= Z.to_nat k.
Proof.
  intros Hk. unfold py_take. rewrite (proj2 (Z.leb_le 0 k)) by done.
  rewrite length_take. lia.
Qed.

Lemma plan_next_steps_effect k (l : loop W) :
  let p := plan_next_steps W llm_plan k l in
  res p.2 = res l ∧ calls p.2 = calls l ∧ context p.2 = context l
  ∧ (∃ prompt, state p.2 = add_message (py "system") prompt (state l))
  ∧ (∃ q, (llm_plan (messages (state p.2)) (context l) (world l)) = (q, world p.2)
          ∧ Schemas.goal p.1 = Schemas.goal q
          ∧ Schemas.steps p.1
            = if (k <? Z.of_nat (length (Schemas.steps q)))%Z
              then py_take k (Schemas.steps q) else Schemas.steps q).
Proof.
  intros p. subst p. unfold plan_next_steps.
  cbn [with_state state context world res calls].
  destruct (llm_plan _ _ _) as [q w] eqn:Hq. cbn [fst snd res calls context state world].
  repeat split; try done; [by eexists|].
  exists q. rewrite Hq. split; [done|]. by destruct (_ <? _)%Z.
Qed.

Lemma plan_next_steps_follows s k (l : loop W) :
  follows s l (plan_next_steps W llm_plan k l).2 0.
Proof.
  destruct (plan_next_steps_effect k l) as (E1 & E2 & _ & (prompt & E3) & _).
  unfold follows. rewrite E1, E3. cbn [add_message current_plan].
  split; [|split; [|split; [lia|done]]].
  - intros [C1 C2 C3 C4 C5]. split; by rewrite ?E1, ?E2.
  - intros [L1 L2 L3 L4]. split; cbn; try done. by apply prefix_app_r.
Qed.

Lemma verify_changes_follows s (l : loop W) :
  follows s l (verify_changes W verify l).2 0.
Proof.
  unfold verify_changes. destruct (verify (world l)) as [v w].
  unfold follows. cbn. split; [|split; [|split; [lia|done]]].
  - by intros [C1 C2 C3 C4 C5].
  - intros [L1 L2 L3 L4]. split; cbn; try done. by apply prefix_app_r.
Qed.


Lemma verify_changes_res (l : loop W) :
  res (verify_changes W verify l).2 = res l
  ∧ calls (verify_changes W verify l).2 = calls l.
Proof. unfold verify_changes. by destruct (verify (world l)). Qed.

Lemma batch_length k (q : Plan) :
  (0 <= k)%Z →
  length (if (k <? Z.of_nat (length (Schemas.steps q)))%Z
          then py_take k (Schemas.steps q) else Schemas.steps q) <= Z.to_nat k.
Proof.
  intros Hk. destruct (_ <? _)%Z eqn:E; [by apply py_take_length|].
  apply Z.ltb_ge in E. lia.
Qed.

Lemma counted_with_res (f : results → results) (l : loop W) :
  (∀ r, steps (f r) = steps r ∧ steps_executed (f r) = steps_executed r
        ∧ self_corrections (f r) = self_corrections r
        ∧ observations (f r) = observations r) →
  counted l → counted (with_res W f l).
Proof.
  intros Hf [C1 C2 C3 C4 C5]. destruct (Hf (res l)) as (F1 & F2 & F3 & F4).
  split; unfold failed_steps in *; cbn [with_res res calls];
    by rewrite ?F1, ?F2, ?F3, ?F4.
Qed.

Lemma iterate_follows s plan k todo iteration (l : loop W) :
  (counted l → counted (iterate' plan k todo iteration l))
  ∧ (logged s (state l) (steps (res l))
     → logged s (state (iterate' plan k todo iteration l))
              (steps (res (iterate' plan k todo iteration l))))
  ∧ current_plan (state (iterate' plan k todo iteration l))
    = current_plan (state l).
Proof.
  revert iteration l. induction todo as [|todo IH]; intros iteration l; [done|].
  cbn [iterate].
  set (l1 := with_res W (set_iterations (iteration + 1)) l).
  assert (H1 : (counted l → counted l1)
               ∧ (logged s (state l) (steps (res l))
                  → logged s (state l1) (steps (res l1)))).
  { split; [|done]. by apply counted_with_res. }
  set (batch := match iteration with
                | 0 => (py_take k (Schemas.steps plan), l1)
                | S _ => let (next_plan, l') := plan_next_steps W llm_plan k l1 in
                         (Schemas.steps next_plan, l')
                end).
  assert (H2 : (counted l → counted batch.2)
               ∧ (logged s (state l) (steps (res l))
                  → logged s (state batch.2) (steps (res batch.2)))
               ∧ current_plan (state batch.2) = current_plan (state l)).
  { subst batch. destruct iteration; [by destruct H1|].
    pose proof (plan_next_steps_follows s k l1) as (F1 & F2 & _ & _ & F5).
    destruct (plan_next_steps W llm_plan k l1). cbn [snd] in *.
    split; [tauto|]. split; [tauto|]. by rewrite F5. }
  destruct batch as [actions l2]. cbn [snd] in H2.
  destruct H2 as (H2 & H3 & H4).
  destruct actions as [|a actions]; [done|].
  pose proof (run_actions_follows s (a :: actions) l2) as (F1 & F2 & _ & _ & F5).
  destruct (run_actions' (a :: actions) l2) as [l3|l3]; cbn [outcome_of] in *;
    [|split; [tauto|]; split; [tauto|congruence]].
  pose proof (verify_changes_follows s l3) as (G1 & G2 & _ & _ & G5).
  destruct (verify_changes W verify l3) as [v l4]. cbn [snd] in *.
  case_bool_decide.
  - split; [|split; [tauto|cbn; congruence]].
    intros Hc. apply counted_with_res; [done|tauto].
  - destruct (IH (S iteration) l4) as (I1 & I2 & I3).
    split; [tauto|]. split; [tauto|congruence].
Qed.

Lemma iterate_flag plan k todo iteration (l : loop W) :
  success (res l) = true →
  success (res (iterate' plan k todo iteration l)) = false →
  last_step_failed (res (iterate' plan k todo iteration l)).
Proof.
  revert iteration l. induction todo as [|todo IH]; intros iteration l Ht.
  { cbn. congruence. }
  cbn [iterate].
  set (l1 := with_res W (set_iterations (iteration + 1)) l).
  set (batch := match iteration with
                | 0 => (py_take k (Schemas.steps plan), l1)
                | S _ => let (next_plan, l') := plan_next_steps W llm_plan k l1 in
                         (Schemas.steps next_plan, l')
                end).
  assert (H2 : success (res batch.2) = true).
  { subst batch. destruct iteration; [done|].
    pose proof (plan_next_steps_effect k l1) as (E & _).
    destruct (plan_next_steps W llm_plan k l1). cbn [snd] in *. by rewrite E. }
  destruct batch as [actions l2]. cbn [snd] in H2.
  destruct actions as [|a actions]; [congruence|].
  pose proof (run_actions_flag (a :: actions) l2) as Hf.
  destruct (run_actions' (a :: actions) l2) as [l3|l3];
    cbn [outcome_of returned] in *; [|tauto].
  pose proof (verify_changes_res l3) as [Hv _].
  destruct (verify_changes W verify l3) as [v l4]. cbn [snd] in *.
  case_bool_decide; [done|].
  apply IH. by rewrite Hv, Hf.
Qed.

Lemma iterate_budget plan k todo iteration (l : loop W) :
  (0 <= k)%Z →
  iterations (res l) = iteration →
  steps_executed (res l) <= iteration * Z.to_nat k →
  steps_executed (res (iterate' plan k todo iteration l))
    <= iterations (res (iterate' plan k todo iteration l)) * Z.to_nat k
  ∧ iterations (res (iterate' plan k todo iteration l)) <= iteration + todo.
Proof.
  intros Hk. revert iteration l.
  induction todo as [|todo IH]; intros iteration l Hi Hs.
  { cbn. rewrite Hi. lia. }
  cbn [iterate].
  set (l1 := with_res W (set_iterations (iteration + 1)) l).
  set (batch := match iteration with
                | 0 => (py_take k (Schemas.steps plan), l1)
                | S _ => let (next_plan, l') := plan_next_steps W llm_plan k l1 in
                         (Schemas.steps next_plan, l')
                end).
  assert (H2 : res batch.2 = res l1 ∧ length batch.1 <= Z.to_nat k).
  { subst batch. destruct iteration; [split; [done|by apply py_take_length]|].
    pose proof (plan_next_steps_effect k l1) as (E & _ & _ & _ & (q & _ & _ & Hq)).
    destruct (plan_next_steps W llm_plan k l1). cbn [fst snd] in *.
    split; [done|]. rewrite Hq. by apply batch_length. }
  destruct batch as [actions l2]. cbn [fst snd] in H2. destruct H2 as [E2 Hlen].
  assert (E3 : steps_executed (res l2) = steps_executed (res l)
               ∧ iterations (res l2) = iteration + 1) by (by rewrite E2).
  destruct E3 as [E3 E4].
  destruct actions as [|a actions]; [nia|].
  pose proof (run_actions_follows demo_state (a :: actions) l2)
    as (_ & _ & F3 & F4 & _).
  destruct (run_actions' (a :: actions) l2) as [l3|l3]; cbn [outcome_of] in *;
    [|nia].
  pose proof (verify_changes_res l3) as [Hv _].
  destruct (verify_changes W verify l3) as [v l4]. cbn [snd] in *.
  case_bool_decide.
  - cbn [with_res res set_success steps_executed iterations]. rewrite Hv. nia.
  - destruct (IH (S iteration) l4) as [I1 I2]; rewrite ?Hv; [lia|nia|].
    split; [done|lia].
Qed.

Lemma iterate_calls plan k todo iteration (l : loop W) :
  (todo = 0 ∨ (iteration = 0 ∧ py_take k (Schemas.steps plan) = [])) →
  iterate' plan k todo iteration l
  = if decide (todo = 0) then l
    else with_res W (set_iterations 1) l.
Proof.
  intros [->|[-> Hp]]; [done|].
  destruct todo as [|todo]; [done|]. cbn [iterate]. by rewrite Hp.
Qed.

(** X16.  The bookkeeping of [agent_loop].  At the end of every run the
    step counter is the number of recorded steps, which are numbered 1, 2,
    ...; the executor was called once for each step and once for each
    self-correction; there are no more self-corrections than failed steps;
    the session log holds the entries it had and one more for each step in
    order, and its diffs, messages and verification results only grew;
    the plan of the session is the initial plan. *)
Theorem agent_loop_bookkeeping s user_message max_iterations k w :
  let final := agent_loop' s user_message max_iterations k w in
  counted final
  ∧ logged s (state final) (steps (res final))
  ∧ current_plan (state final)
    = Some (llm_plan (messages (add_message (py "user") user_message s))
                     (retrieve user_message w).1 (retrieve user_message w).2).1.
Proof.
  intros final. subst final. unfold agent_loop.
  destruct (retrieve user_message w) as [ctx w1]. cbn [fst snd].
  destruct (llm_plan _ ctx w1) as [plan w2]. cbn [fst].
  match goal with |- context [iterate' plan k ?t 0 ?l] =>
    destruct (iterate_follows s plan k t 0 l) as (I1 & I2 & I3) end.
  split; [|split].
  - apply I1. split; cbn; try done; lia.
  - apply I2. split; cbn; try done.
    + exists []. by rewrite app_nil_r.
    + by apply prefix_app_r.
  - by rewrite I3.
Qed.

(** X17.  A run of [agent_loop] that reports failure ended on a failed
    step.  A verification that never passes does not make a run fail: when
    the iterations run out the success flag is as it started, true. *)
Theorem agent_loop_failure_is_a_failed_step s user_message max_iterations k w :
  let final := agent_loop' s user_message max_iterations k w in
  success (res final) = false → last_step_failed (res final).
Proof.
  intros final. subst final. unfold agent_loop.
  destruct (retrieve user_message w) as [ctx w1].
  destruct (llm_plan _ ctx w1) as [plan w2].
  by apply iterate_flag.
Qed.

(** X18.  With a batch size that is not negative, a run executes at
    most [steps_per_iteration] actions of its plans in each iteration, and
    at most [max_iterations] iterations. *)
Theorem agent_loop_step_budget s user_message max_iterations k w :
  (0 <= k)%Z →
  let final :=
    agent_loop W execute fs_read llm_plan llm_reflect retrieve verify
               isoformat_now s user_message max_iterations k w in
  (Z.of_nat (steps_executed (res final))
   <= Z.of_nat (iterations (res final)) * k)%Z
  ∧ (Z.of_nat (iterations (res final)) <= Z.max 0 max_iterations)%Z.
Proof.
  intros Hk final. subst final. unfold agent_loop.
  destruct (retrieve user_message w) as [ctx w1].
  destruct (llm_plan _ ctx w1) as [plan w2].
  match goal with |- context [iterate' plan k ?t 0 ?l] =>
    destruct (iterate_budget plan k t 0 l Hk) as [B1 B2]; [done|cbn; lia|] end.
  split; [nia|lia].
Qed.

End LoopInvariants.

(** ** Orchestration loop: endings and observations *)

Section LoopEndings.
Import Schemas Agent.

Variable W : Type.
Variable execute : Action -> W -> Executor.ExecutionResult * W.
Variable fs_read : str -> W -> Fs.FileOperation.
Variable llm_plan : list (str * str) -> list (str * str) -> W -> Plan * W.
Variable llm_reflect :
  Plan -> str -> list str -> W -> option ReflectionResult * W.
Variable retrieve : str -> W -> list (str * str) * W.
Variable verify : W -> VerificationResult * W.
Variable isoformat_now : W -> str.

#[local] Abbreviation run_action' :=
  (run_action W execute fs_read llm_reflect isoformat_now).
#[local] Abbreviation run_actions' :=
  (run_actions W execute fs_read llm_reflect isoformat_now).
#[local] Abbreviation track' := (track W isoformat_now).
#[local] Abbreviation repair' := (reflect_and_repair W execute llm_reflect).
#[local] Abbreviation iterate' :=
  (iterate W execute fs_read llm_plan llm_reflect verify isoformat_now).
#[local] Abbreviation agent_loop' :=
  (agent_loop W execute fs_read llm_plan llm_reflect retrieve verify isoformat_now).

(** X19.  With no iteration allowed, or an initial batch without
    steps, [agent_loop] calls the executor and the verifier not at all and
    reports success. *)
Theorem agent_loop_nothing_to_do s user_message max_iterations k w ctx w1 plan w2 :
  retrieve user_message w = (ctx, w1) →
  llm_plan (messages (add_message (py "user") user_message s)) ctx w1
    = (plan, w2) →
  (max_iterations <= 0)%Z ∨ py_take k (Schemas.steps plan) = [] →
  let final := agent_loop' s user_message max_iterations k w in
  calls final = [] ∧ world final = w2
  ∧ success (res final) = true ∧ steps (res final) = []
  ∧ iterations (res final) = (if decide (max_iterations <= 0)%Z then 0 else 1)
  ∧ verification_results (state final) = verification_results s.
Proof.
  intros Hr Hp Hn final. subst final. unfold agent_loop. rewrite Hr, Hp.
  rewrite iterate_calls.
  - destruct (decide (Z.to_nat max_iterations = 0)) as [E|E];
      destruct (decide (max_iterations <= 0)%Z); try lia; done.
  - destruct Hn as [Hn|Hn]; [left; lia|by right].
Qed.

(** X20.  A failure that cannot be retried, or whose reflection raises,
    ends the run at once: the rest of the batch is not executed, the step
    is recorded, no self-correction is counted and the success flag is
    cleared. *)
Theorem unretryable_failure_ends_the_run action rest (l : loop W) r w1 :
  execute action (world l) = (r, w1) →
  Executor.success r = false →
  can_retry (observe action r) = false
  ∨ (∀ plan, current_plan (state l) = Some plan →
             (llm_reflect plan (Executor.message r) (diffs (state l)) w1).1 = None) →
  ∃ l', run_actions' (action :: rest) l = Return l'
        ∧ success (res l') = false
        ∧ calls l' = calls l ++ [action]
        ∧ steps (res l') = steps (res l) ++ [step_of (steps_executed (res l)) action r]
        ∧ self_corrections (res l') = self_corrections (res l)
        ∧ (can_retry (observe action r) = false → world l' = w1).
Proof.
  intros He Hf Hc. cbn [run_actions].
  set (l1 := {| res := res l; state := state l; context := context l;
                world := w1; calls := calls l ++ [action] |}).
  destruct (track_effect W isoformat_now action r l1) as (Hs & _).
  destruct (track_frame W isoformat_now action (observe action r) l1)
    as (Hw & Hcl & _ & _ & Hsc & _ & Hcp).
  destruct (can_retry (observe action r)) eqn:Hr.
  - destruct Hc as [|Hc]; [done|].
    rewrite (run_action_retryable W execute fs_read llm_reflect isoformat_now
               action l r w1 He Hf Hr).
    fold l1. unfold reflect_and_repair. rewrite Hcp. cbn [state l1].
    destruct (current_plan (state l)) as [plan|] eqn:Hp.
    + specialize (Hc plan eq_refl). rewrite Hw.
      rewrite (track_diffs_failure W isoformat_now)
        by by apply observe_diff_failure.
      rewrite observe_message. cbn [world l1 state].
      destruct (llm_reflect plan _ _ w1) as [refl w2]. cbn [fst] in Hc.
      subst refl. eexists. split; [reflexivity|].
      cbn [with_res res calls set_success success steps self_corrections].
      rewrite Hs, Hcl, Hsc. done.
    + eexists. split; [reflexivity|].
      cbn [with_res res calls set_success success steps self_corrections].
      rewrite Hs, Hcl, Hsc. done.
  - unfold run_action, call. rewrite He. cbv zeta. fold l1.
    rewrite observe_success, Hf, Hr. cbn [negb].
    eexists. split; [reflexivity|].
    cbn [with_res res calls set_success success steps self_corrections world].
    rewrite Hs, Hcl, Hsc, Hw. done.
Qed.

(** [plan_next_steps] adds its prompt as a system message, asks the
    planner and keeps a prefix of the steps it gets: at most [max_steps]
    of them when that number is not negative. *)
Theorem plan_next_steps_caps_the_plan k (l : loop W) :
  let p := plan_next_steps W llm_plan k l in
  ∃ prompt q,
    state p.2 = add_message (py "system") prompt (state l)
    ∧ llm_plan (messages (state l) ++ [(py "system", prompt)])
               (context l) (world l) = (q, world p.2)
    ∧ Schemas.steps p.1 `prefix_of` Schemas.steps q
    ∧ ((0 <= k)%Z → (Z.of_nat (length (Schemas.steps p.1)) <= k)%Z)
    ∧ ((Z.of_nat (length (Schemas.steps q)) <= k)%Z → p.1 = q)
    ∧ res p.2 = res l ∧ calls p.2 = calls l ∧ context p.2 = context l.
Proof.
  intros p. subst p.
  unfold plan_next_steps. cbn [with_state state context world res calls].
  eexists. cbn [add_message messages].
  destruct (llm_plan _ _ _) as [q w] eqn:Hq. exists q.
  cbn [fst snd state world res calls context].
  split; [reflexivity|]. split; [done|].
  destruct (k <? _)%Z eqn:E.
  - apply Z.ltb_lt in E. cbn [Schemas.steps].
    split; [unfold py_take; destruct (0 <=? k)%Z; apply prefix_take|].
    split; [intros Hk; pose proof (py_take_length k (Schemas.steps q) Hk); lia|].
    split; [lia|done].
  - apply Z.ltb_ge in E. repeat split; done.
Qed.

End LoopEndings.

Section Observations.
Import Schemas Agent.

(** X21.  What an observation carries: a context update only for a file
    action that succeeded, with one key bound to the path argument; the
    affected files only for a file action with a path; a diff exactly on
    success, an error type exactly on failure; and a success can always
    be retried. *)
Theorem observe_context_update action r :
  let o := observe action r in
  (context_update o = []
   ↔ Executor.success r = false ∨ fs_action (type action) = false)
  ∧ (∀ key v, (key, v) ∈ context_update o →
              context_update o = [(key, v)] ∧ v = path (args action))
  ∧ (∀ p, p ∈ affected_files o →
          affected_files o = [p] ∧ p ≠ [] ∧ path (args action) = Some p
          ∧ fs_action (type action) = true)
  ∧ (Schemas.diff o = None ↔ Executor.success r = false)
  ∧ (error_type o = None ↔ Executor.success r = true)
  ∧ (Executor.success r = true → can_retry o = true).
Proof.
  intros o. subst o. unfold observe.
  cbn [context_update affected_files Schemas.diff error_type can_retry].
  split; [|split; [|split; [|split; [|split]]]].
  - destruct (Executor.success r); [|by split; [left|]].
    destruct (type action); vm_compute; split;
      try done; try (by right); by intros [|].
  - intros key v. destruct (Executor.success r); [|by intros ?%elem_of_nil].
    destruct (type action); vm_compute bool_decide; cbv iota;
      try (by intros ?%elem_of_nil);
      by intros [= -> ->]%list_elem_of_singleton.
  - intros p. destruct (type action); vm_compute startswith; cbv iota;
      try (by intros ?%elem_of_nil);
      (destruct (path (args action)) as [[|c q]|];
       try (by intros ?%elem_of_nil);
       by intros ->%list_elem_of_singleton).
  - by destruct (Executor.success r).
  - by destruct (Executor.success r).
  - by intros ->.
Qed.

(** Refreshing the context buffer keeps the paths in order, adds the
    path at the end when it is new, gives the first entry for the path the
    new content and leaves the other paths' entries alone; a second
    refresh overrides the first. *)
Theorem refresh_updates_first_entry file_path data context :
  let c := refresh file_path data context in
  c.*1 = (if decide (file_path ∈ context.*1) then context.*1
          else context.*1 ++ [file_path])
  ∧ (∃ i, c !! i = Some (file_path, data)
          ∧ ∀ j e, j < i → c !! j = Some e → e.1 ≠ file_path)
  ∧ (∀ j e, context !! j = Some e → e.1 ≠ file_path → c !! j = Some e)
  ∧ (∀ data', refresh file_path data' c = refresh file_path data' context).
Proof.
  intros c. subst c. induction context as [|[p d] ctx IH].
  { cbn. split; [done|]. split; [|split; [done|]].
    - exists 0. split; [done|]. intros; lia.
    - intros data'. by rewrite bool_decide_eq_true_2. }
  cbn [refresh]. case_bool_decide as Hp.
  - subst p. cbn [fmap list_fmap fst].
    rewrite decide_True by left. split; [done|]. split; [|split].
    + exists 0. split; [done|]. intros; lia.
    + intros [|j] e; cbn; [by intros [= <-]|done].
    + intros data'. cbn [refresh]. by rewrite bool_decide_eq_true_2.
  - destruct IH as (I1 & (i & I2 & I3) & I4 & I5).
    cbn [fmap list_fmap fst]. split; [|split; [|split]].
    + change (list_fmap _ _ fst ?l) with (l.*1). rewrite I1.
      destruct (decide (file_path ∈ ctx.*1)) as [Hin|Hin].
      * by rewrite decide_True by by right.
      * rewrite decide_False; [done|].
        intros [?|?]%elem_of_cons; [congruence|done].
    + exists (S i). split; [done|]. intros [|j] e Hj; cbn.
      * by intros [= <-].
      * apply I3. lia.
    + intros [|j] e; cbn; [done|apply I4].
    + intros data'. cbn [refresh]. rewrite bool_decide_eq_false_2 by done.
      by rewrite I5.
Qed.

End Observations.

(** ** Plans run as a whole *)

Section PlanRuns.
Import Schemas Core.

Variable W : Type.
Variable execute : Action -> bool -> W -> Executor.ExecutionResult * W.
Variable verify : W -> VerificationResult * W.
Variable llm_reflect :
  Plan -> VerificationResult -> list str -> W -> option ReflectionResult * W.
Variable isoformat_now : W -> str.

#[local] Abbreviation execute_steps' := (execute_steps W execute isoformat_now).
#[local] Abbreviation execute_plan' := (execute_plan W execute isoformat_now).
#[local] Abbreviation retry' := (retry W execute verify llm_reflect isoformat_now).
#[local] Abbreviation reflect_and_fix' :=
  (reflect_and_fix W execute verify llm_reflect isoformat_now).

Lemma logged_refl s : logged s s [].
Proof. split; try done. exists []. by rewrite app_nil_r. Qed.

Lemma logged_trans s1 s2 s3 new1 new2 :
  logged s1 s2 new1 → logged s2 s3 new2 → logged s1 s3 (new1 ++ new2).
Proof.
  intros [(e1 & A1 & A2 & A3) B1 C1 D1] [(e2 & A4 & A5 & A6) B2 C2 D2].
  split; try (by etrans).
  exists (e1 ++ e2). rewrite A4, A1, <- app_assoc, fmap_app, A2, A5.
  split; [done|]. split; [done|]. by apply Forall_app.
Qed.

Lemma execute_steps_spec dry_run i actions acc (self : session W) :
  let r := execute_steps' dry_run i actions acc self in
  ∃ new,
    steps r.1 = steps acc ++ new
    ∧ length new <= length actions
    ∧ calls r.2 = calls self ++ take (length new) actions
    ∧ Agent.step <$> new = seq (i + 1) (length new)
    ∧ all_succeeded (removelast new) = true
    ∧ success r.1 = success acc && all_succeeded new
    ∧ (all_succeeded new = true → length new = length actions)
    ∧ logged (state self) (state r.2) new.
Proof.
  revert i acc self. induction actions as [|action rest IH]; intros i acc self r.
  { subst r. cbn. exists []. rewrite !app_nil_r, andb_true_r.
    do 7 (split; [done|]). by apply logged_refl. }
  subst r. cbn [execute_steps].
  destruct (execute action dry_run (world self)) as [result w] eqn:He.
  set (sr := {| Agent.step := i + 1;
                Agent.step_action_type := value (type action);
                Agent.step_success := Executor.success result;
                Agent.step_message := Executor.message result;
                Agent.step_diff := Some (Executor.diff result) |}).
  set (self1 := {| state := _; world := w; calls := calls self ++ [action] |}).
  assert (Hl : logged (state self) (state self1) [sr]).
  { subst self1. cbn [state]. split.
    - exists [{| Agent.entry_type := value (type action); Agent.result := sr;
                 Agent.timestamp := isoformat_now w |}].
      split; [|split; [done|by repeat constructor]].
      by destruct (Executor.diff result).
    - destruct (Executor.diff result); cbn; [done|by apply prefix_app_r].
    - by destruct (Executor.diff result).
    - by destruct (Executor.diff result). }
  destruct (Executor.success result) eqn:Hs; cbn [negb].
  - set (acc1 := {| success := success acc; steps := steps acc ++ [sr];
                    diffs := _ |}).
    destruct (IH (S i) acc1 self1)
      as (new & I1 & I2 & I3 & I4 & I5 & I6 & I7 & I8).
    exists (sr :: new). rewrite I1, I3, I6. cbn [steps acc1 success calls self1].
    rewrite <- !app_assoc. cbn [length take app fmap list_fmap seq Agent.step sr].
    split; [done|]. split; [lia|]. split; [done|].
    split; [by rewrite I4; replace (S (i + 1)) with (S i + 1) by lia|].
    split.
    { destruct new as [|s new]; [done|].
      change (removelast (sr :: s :: new)) with (sr :: removelast (s :: new)).
      unfold all_succeeded in *. cbn [forallb]. cbn [Agent.step_success sr].
      by rewrite ?Hs, I5. }
    unfold all_succeeded in *. cbn [forallb]. cbn [Agent.step_success sr].
    rewrite ?Hs. cbn [andb].
    split; [done|]. split; [intros Ha; f_equal; by apply I7|].
    by apply (logged_trans _ _ _ [sr] new Hl).
  - exists [sr]. cbn [fst snd steps success calls length take removelast].
    unfold all_succeeded. cbn [forallb Agent.step_success sr]. rewrite ?Hs.
    cbn [andb]. rewrite andb_false_r.
    rewrite take_0. cbn [fmap list_fmap seq Agent.step sr].
    split; [done|]. split; [lia|]. split; [done|]. split; [done|].
    split; [done|]. split; [done|]. split; [done|]. exact Hl.
Qed.


Lemma execute_steps_frame dry_run i actions acc (self : session W) :
  let r := execute_steps' dry_run i actions acc self in
  Agent.verification_results (state r.2) = Agent.verification_results (state self)
  ∧ Agent.messages (state r.2) = Agent.messages (state self)
  ∧ Agent.current_plan (state r.2) = Agent.current_plan (state self).
Proof.
  revert i acc self. induction actions as [|action rest IH]; intros i acc self;
    [done|].
  cbn [execute_steps].
  destruct (execute action dry_run (world self)) as [result w].
  destruct (Executor.success result); cbn [negb].
  - match goal with |- context [execute_steps' _ _ _ ?a ?s] =>
      destruct (IH (S i) a s) as (-> & -> & ->) end.
    cbn [state]. by destruct (Executor.diff result).
  - cbn [snd state]. by destruct (Executor.diff result).
Qed.

(** X22.  [execute_plan] stops at the first failure: the steps it
    records are numbered 1, 2, ..., are the results of a prefix of the
    plan's actions, all succeeded except possibly the last, and the
    success of the whole is the success of them all; on success the whole
    plan was executed.  The session log gains one entry for each. *)
Theorem execute_plan_stops_at_first_failure plan dry_run (self : session W) :
  let r := execute_plan' plan dry_run self in
  length (steps r.1) <= length (Schemas.steps plan)
  ∧ calls r.2 = calls self ++ take (length (steps r.1)) (Schemas.steps plan)
  ∧ Agent.step <$> steps r.1 = seq 1 (length (steps r.1))
  ∧ all_succeeded (removelast (steps r.1)) = true
  ∧ success r.1 = all_succeeded (steps r.1)
  ∧ (success r.1 = true → length (steps r.1) = length (Schemas.steps plan))
  ∧ logged (state self) (state r.2) (steps r.1).
Proof.
  intros r. subst r. unfold execute_plan.
  destruct (execute_steps_spec dry_run 0 (Schemas.steps plan)
              {| success := true; steps := []; diffs := [] |} self)
    as (new & I1 & I2 & I3 & I4 & I5 & I6 & I7 & I8).
  cbn [steps success app andb] in I1, I6. rewrite I1, I6.
  split; [exact I2|]. split; [exact I3|]. split; [exact I4|].
  split; [exact I5|]. split; [done|]. split; [exact I7|exact I8].
Qed.

Lemma retry_spec plan max_retries todo attempt (self : session W) :
  let r := retry' plan max_retries todo attempt self in
  ∃ vs,
    Agent.verification_results (state r.2)
    = Agent.verification_results (state self) ++ vs
    ∧ length vs <= todo
    ∧ Forall (λ v, status v ≠ py "pass") (removelast vs)
    ∧ ∀ report, r.1 = Some report →
        (fix_success report = true
         ↔ ∃ v, last vs = Some v ∧ status v = py "pass")
        ∧ (fix_success report = true
           → attempts report = Some (Z.of_nat (attempt + length vs)))
        ∧ (fix_success report = false
           → Forall (λ v, status v ≠ py "pass") vs).
Proof.
  revert attempt self. induction todo as [|todo IH]; intros attempt self r.
  { subst r. cbn. exists []. rewrite app_nil_r.
    split; [done|]. split; [done|]. split; [done|].
    intros report [= <-]. cbn. split; [|done].
    split; [done|]. by intros (v & ? & _). }
  subst r. cbn [retry]. unfold verify_changes.
  destruct (verify (world self)) as [v w1].
  case_bool_decide as Hv.
  - exists [v]. cbn [fst snd state Agent.add_verification
                       Agent.verification_results length removelast].
    split; [done|]. split; [lia|]. split; [done|].
    intros report [= <-]. cbn [fix_success attempts].
    split; [split; [by exists v|done]|]. split; [|done].
    by intros _.
  - cbn [state world calls Agent.add_verification Agent.diffs].
    destruct (llm_reflect plan v _ w1) as [[reflection|] w2].
    2:{ exists [v]. cbn. split; [done|]. split; [lia|]. split; [done|]. done. }
    unfold execute_plan.
    match goal with |- context [execute_steps' false 0 ?a ?acc ?s] =>
      pose proof (execute_steps_frame false 0 a acc s) as (F1 & _);
      destruct (execute_steps' false 0 a acc s) as [fix_results self3] end.
    cbn [fst snd state Agent.verification_results Agent.add_verification] in F1.
    destruct (success fix_results); cbn [negb].
    + destruct (IH (S attempt) self3) as (vs & I1 & I2 & I3 & I4).
      exists (v :: vs). rewrite I1, F1, <- app_assoc. cbn [length].
      split; [done|]. split; [lia|]. split.
      { destruct vs; [done|]. cbn [removelast] in *. by constructor. }
      intros report Hr. destruct (I4 report Hr) as (J1 & J2 & J3).
      split; [|split].
      * rewrite J1. destruct vs as [|v' vs]; [|done].
        split; intros (x & Hx & Hp); [done|]. cbn in Hx. congruence.
      * intros Ht. rewrite (J2 Ht). do 2 f_equal. lia.
      * intros Hf. constructor; [done|by apply J3].
    + exists [v]. cbn [fst snd]. rewrite F1. cbn [length removelast].
      split; [done|]. split; [lia|]. split; [done|].
      intros report [= <-]. cbn [fix_success attempts].
      split; [|split; [done|by repeat constructor]].
      split; [done|]. intros (x & [= <-] & ?). done.
Qed.

(** X23.  [reflect_and_fix] runs at most [max_retries] verifications,
    all failing but possibly the last, and when it returns it reports
    success exactly when the last verification passed, the attempts then
    being their number.  A fix plan that ran in the last attempt is not
    verified again.  Without a current plan it does nothing. *)
Theorem reflect_and_fix_succeeds_on_a_passing_verification
    max_retries (self : session W) :
  let r := reflect_and_fix' max_retries self in
  ∃ vs,
    Agent.verification_results (state r.2)
    = Agent.verification_results (state self) ++ vs
    ∧ (Z.of_nat (length vs) <= Z.max 0 max_retries)%Z
    ∧ Forall (λ v, status v ≠ py "pass") (removelast vs)
    ∧ (Agent.current_plan (state self) = None → r.2 = self ∧ vs = [])
    ∧ ∀ report, r.1 = Some report →
        (fix_success report = true
         ↔ ∃ v, last vs = Some v ∧ status v = py "pass")
        ∧ (fix_success report = true
           → attempts report = Some (Z.of_nat (length vs)))
        ∧ (fix_success report = false
           → Forall (λ v, status v ≠ py "pass") vs).
Proof.
  intros r. subst r. unfold reflect_and_fix.
  destruct (Agent.current_plan (state self)) as [plan|].
  - destruct (retry_spec plan max_retries (Z.to_nat max_retries) 0 self)
      as (vs & I1 & I2 & I3 & I4).
    exists vs. split; [done|]. split; [lia|]. split; [done|]. split; [done|].
    exact I4.
  - exists []. rewrite app_nil_r. cbn [fst snd length removelast].
    split; [done|]. split; [lia|]. split; [done|]. split; [done|].
    intros report [= <-]. cbn. split; [|done].
    split; [done|]. by intros (v & ? & _).
Qed.

End PlanRuns.

Section DryRuns.
Import Schemas Core.

Variable X : Type.
Variable unified_diff : list str -> list str -> str -> str -> list str.
Variable re_search : str -> str -> bool.
Variable subprocess_run :
  str -> list str -> Z -> (Fs.filesystem * X) -> Shell.outcome * (Fs.filesystem * X).
Variable deps_install :
  str -> list str -> (Fs.filesystem * X) -> Executor.DepsResult * (Fs.filesystem * X).
Variable git_checkout :
  str -> bool -> (Fs.filesystem * X) -> Executor.GitResult * (Fs.filesystem * X).
Variable clock : X -> Z.
Variable executor : Executor.Executor.
Variable isoformat_now : (Fs.filesystem * X) -> str.

#[local] Abbreviation the_executor :=
  (Executor.execute X unified_diff re_search subprocess_run deps_install
                    git_checkout clock executor).

Lemma execute_dry action w :
  the_executor action true w = (Executor.dry_run action, w).
Proof. reflexivity. Qed.

Lemma dry_steps (i : nat) (actions : list Action) (acc : plan_results)
    (self : session (Fs.filesystem * X)) :
  let r := execute_steps (Fs.filesystem * X) the_executor isoformat_now true
                         i actions acc self in
  world r.2 = world self
  ∧ success r.1 = success acc
  ∧ diffs r.1 = diffs acc
  ∧ length (steps r.1) = length (steps acc) + length actions
  ∧ calls r.2 = calls self ++ actions
  ∧ Agent.diffs (state r.2) = Agent.diffs (state self)
  ∧ length (Agent.executed_actions (state r.2))
    = length (Agent.executed_actions (state self)) + length actions.
Proof.
  revert i acc self. induction actions as [|a actions IH]; intros i acc self.
  { cbn. rewrite app_nil_r.
    split; [done|]. split; [done|]. split; [done|]. split; [lia|].
    split; [done|]. split; [done|]. lia. }
  cbn [execute_steps]. rewrite execute_dry.
  cbn [Executor.dry_run Executor.success Executor.diff Executor.message negb].
  match goal with |- context [execute_steps _ _ _ true _ _ ?a ?s] =>
    pose proof (IH (S i) a s) as IHs; cbv zeta in IHs;
    destruct (execute_steps _ _ _ true (S i) actions a s) as [r1 s1] end.
  cbn [fst snd world success diffs steps calls state Agent.add_diff Agent.diffs
       Agent.add_action_result Agent.executed_actions] in *.
  destruct IHs as (E1 & E2 & E3 & E4 & E5 & E6 & E7).
  rewrite E1, E2, E3, E4, E5, E6, E7.
  rewrite !length_app, <- app_assoc. cbn [length app].
  split; [done|]. split; [done|]. split; [done|]. split; [lia|].
  split; [done|]. split; [done|]. lia.
Qed.

(** X24.  A dry run of a plan through the executor leaves the world as
    it was and reports success with no diff, but it hands every action to
    the executor and logs a step and a session entry for each. *)
Theorem dry_run_plan_changes_nothing (plan : Plan) (self : session (Fs.filesystem * X)) :
  let r := execute_plan (Fs.filesystem * X) the_executor isoformat_now
                        plan true self in
  world r.2 = world self
  ∧ success r.1 = true ∧ diffs r.1 = []
  ∧ length (steps r.1) = length (Schemas.steps plan)
  ∧ calls r.2 = calls self ++ Schemas.steps plan
  ∧ Agent.diffs (state r.2) = Agent.diffs (state self)
  ∧ length (Agent.executed_actions (state r.2))
    = length (Agent.executed_actions (state self))
      + length (Schemas.steps plan).
Proof.
  intros r. subst r. unfold execute_plan.
  by destruct (dry_steps 0 (Schemas.steps plan)
                 {| success := true; steps := []; diffs := [] |} self)
    as (-> & -> & -> & -> & -> & -> & ->).
Qed.

End DryRuns.

(** ** Verifier *)

Section Verification.
Import Schemas Config Verifier.

Variable W : Type.
Variable subprocess_run : str -> list str -> Z -> W -> Shell.outcome * W.

#[local] Abbreviation verify' := (verify W subprocess_run).
#[local] Abbreviation run_command' := (run_command W subprocess_run).
#[local] Abbreviation run_linters' := (run_linters W subprocess_run).

(** X25.  In a repository with none of [pyproject.toml], [setup.py] and
    [package.json] the verifier detects no language, and its verification
    passes without running anything. *)
Theorem verify_without_manifest_passes fs repo_root config w :
  Fs.exists_ fs (repo_root ++ [py "pyproject.toml"]) = false →
  Fs.exists_ fs (repo_root ++ [py "setup.py"]) = false →
  Fs.exists_ fs (repo_root ++ [py "package.json"]) = false →
  language (init fs repo_root config) = None
  ∧ verify' (init fs repo_root config) w = (all_checks_passed, w).
Proof.
  intros H1 H2 H3.
  assert (Hl : language (init fs repo_root config) = None).
  { cbn. unfold detect_language. by rewrite H1, H2, H3. }
  split; [done|]. unfold verify, run_tests. rewrite Hl. done.
Qed.

Lemma run_linters_length self commands errors w :
  length (run_linters' self commands errors w).1
  <= length errors + length commands.
Proof.
  revert errors w. induction commands as [|c rest IH]; intros errors w.
  { cbn. lia. }
  cbn [run_linters length].
  destruct (run_command' self c w) as [result w'].
  destruct (success result), (stderr result); cbn [length];
    try (etrans; [apply IH|]; rewrite ?length_app; cbn; lia).
Qed.

Lemma run_linters_silent self commands errors w :
  (∀ cmd w, cmd ∈ commands →
            success (run_command' self cmd w).1 = true
            ∨ stderr (run_command' self cmd w).1 = []) →
  (run_linters' self commands errors w).1 = errors.
Proof.
  revert errors w. induction commands as [|c rest IH]; intros errors w Hq;
    [done|].
  cbn [run_linters].
  destruct (Hq c w) as [Hc|Hc]; [left| |];
    destruct (run_command' self c w) as [result w']; cbn [fst] in Hc;
    rewrite Hc.
  - apply IH. intros cmd w0 Hin. apply Hq. by right.
  - destruct (success result); apply IH; intros cmd w0 Hin; apply Hq; by right.
Qed.

Lemma run_tests_output self w :
  length (run_tests W subprocess_run self w).1.2 <= 1
  ∧ Forall (λ t, length t <= 500) (run_tests W subprocess_run self w).1.2.
Proof.
  assert (Hrun : ∀ cmd,
    let t := (let (result, w') := run_command' self cmd w in
              ((success result,
                if negb (success result) then [take 500 (stdout result)]
                else []), w')) in
    length t.1.2 <= 1 ∧ Forall (λ t, length t <= 500) t.1.2).
  { intros cmd. cbv zeta. destruct (run_command' self cmd w) as [result w2].
    destruct (success result); cbn; (split; [lia|]); [done|].
    apply Forall_cons. split; [|done]. rewrite length_take. lia. }
  unfold run_tests. repeat case_bool_decide; try apply Hrun.
  cbn. split; [lia|done].
Qed.

(** X26.  The status of a verification is "pass" exactly when there are
    no lint errors and no failing tests, and "fail" otherwise; the summary
    counts them; there are never type errors, at most one failing-test
    entry of at most 500 characters, and at most one lint error for each
    configured linter. *)
Theorem verify_status_and_summary self w :
  let v := (verify' self w).1 in
  type_errors v = []
  ∧ (status v = py "pass" ↔ lint_errors v = [] ∧ failing_tests v = [])
  ∧ (status v = py "pass" ∨ status v = py "fail")
  ∧ summary v
    = (if bool_decide (status v = py "pass") then py "All checks passed"
       else py "Found "
              ++ str_of_nat (length (lint_errors v) + length (failing_tests v))
              ++ py " issues")
  ∧ length (lint_errors v) <= length (linters_of self)
  ∧ length (failing_tests v) <= 1
  ∧ Forall (λ t, length t <= 500) (failing_tests v).
Proof.
  intros v. subst v. unfold verify.
  set (lint := if bool_decide (language self = Some (py "python"))
               then run_python_linters W subprocess_run self w
               else if bool_decide (language self = Some (py "node"))
               then run_node_linters W subprocess_run self w else ([], w)).
  assert (Hlen : length lint.1 <= length (linters_of self)).
  { subst lint. unfold linters_of, run_python_linters, run_node_linters.
    repeat case_bool_decide; try apply run_linters_length. cbn. lia. }
  destruct lint as [lint_errors w1]. cbn [fst] in Hlen.
  set (tests := run_tests W subprocess_run self w1).
  pose proof (run_tests_output self w1) as Ht. fold tests in Ht.
  destruct tests as [[ok output] w2]. cbn [fst snd] in *.
  destruct Ht as [Ht1 Ht2].
  destruct ok; cbn [negb].
  - destruct lint_errors as [|e lint_errors]; cbn [fst status type_errors
      Schemas.lint_errors failing_tests summary length].
    + rewrite bool_decide_eq_true_2 by done.
      repeat split; try done; try lia; by left.
    + rewrite bool_decide_eq_false_2 by done. rewrite Nat.add_0_r.
      split; [done|]. split; [split; [done|by intros [? _]]|].
      split; [by right|]. split; [done|]. split; [done|]. split; [lia|done].
  - destruct lint_errors as [|e lint_errors], output as [|t output];
      cbn [fst status type_errors Schemas.lint_errors failing_tests summary
           length];
      rewrite ?bool_decide_eq_true_2 by done;
      rewrite ?bool_decide_eq_false_2 by done;
      rewrite ?Nat.add_0_r.
    + repeat split; try done; try lia; by left.
    + split; [done|]. split; [split; [done|by intros [_ ?]]|].
      split; [by right|]. split; [done|]. split; [done|]. split; [done|done].
    + split; [done|]. split; [split; [done|by intros [? _]]|].
      split; [by right|]. split; [done|]. split; [done|]. split; [lia|done].
    + split; [done|]. split; [split; [done|by intros [? _]]|].
      split; [by right|]. split; [done|]. split; [done|]. split; [done|done].
Qed.

(** X27.  A linter counts only when it fails and writes to stderr: if
    every linter either succeeds or leaves stderr empty, and the tests
    pass, the verification passes whatever the linters' exit codes. *)
Theorem silent_linter_failures_pass self w :
  (∀ cmd w, cmd ∈ linters_of self →
            success (run_command' self cmd w).1 = true
            ∨ stderr (run_command' self cmd w).1 = []) →
  (∀ w, (run_tests W subprocess_run self w).1.1 = true) →
  (verify' self w).1 = all_checks_passed.
Proof.
  intros Hq Ht. unfold verify.
  set (lint := if bool_decide (language self = Some (py "python"))
               then run_python_linters W subprocess_run self w
               else if bool_decide (language self = Some (py "node"))
               then run_node_linters W subprocess_run self w else ([], w)) in *.
  assert (Hl : lint.1 = []).
  { subst lint. unfold linters_of, run_python_linters, run_node_linters in *.
    repeat case_bool_decide; try done; by apply run_linters_silent. }
  destruct lint as [lint_errors w1]. cbn [fst snd] in *. subst lint_errors.
  specialize (Ht w1).
  destruct (run_tests W subprocess_run self w1) as [[ok output] w2].
  cbn [fst snd] in *. by subst ok.
Qed.

End Verification.

(** ** Dependencies *)

Section Dependencies.
Import Schemas Executor Deps.

Variable X : Type.
Variable unified_diff : list str -> list str -> str -> str -> list str.
Variable re_search : str -> str -> bool.
Variable subprocess_run :
  str -> list str -> Z -> (Fs.filesystem * X) -> Shell.outcome * (Fs.filesystem * X).
Variable subprocess_argv :
  list str -> list str -> Z -> (Fs.filesystem * X) -> outcome * (Fs.filesystem * X).
Variable sys_executable : str.
Variable git_checkout :
  str -> bool -> (Fs.filesystem * X) -> GitResult * (Fs.filesystem * X).
Variable clock : X -> Z.
Variable deps_tool : DependencyTool.
Variable self : Executor.

#[local] Abbreviation install' := (install X subprocess_argv sys_executable deps_tool).
#[local] Abbreviation install_python' :=
  (install_python X subprocess_argv sys_executable deps_tool).

(** X28.  Through the executor, a dependency action for a language other
    than python and node (or with the language missing) fails and leaves
    the world as it was; with language and packages given the message
    names the unknown language. *)
Theorem deps_install_unknown_language_runs_nothing action w :
  type action = DEPS_INSTALL →
  (∀ l, language (args action) = Some l → l ≠ py "python" ∧ l ≠ py "node") →
  let r := execute X unified_diff re_search subprocess_run install'
                   git_checkout clock self action false w in
  success r.1 = false ∧ r.2 = w
  ∧ (∀ l p ps, language (args action) = Some l → l ≠ [] →
               packages (args action) = Some (p :: ps) →
               message r.1 = py "Unknown language: " ++ l).
Proof.
  intros Ht Hl r. subst r. unfold execute, execute_deps_install. rewrite Ht.
  destruct (language (args action)) as [[|c l]|] eqn:El;
    destruct (packages (args action)) as [[|p ps]|] eqn:Ep;
    try (split; [done|]; split; [done|]; intros l0 p0 ps0 E1 E2 E3; congruence).
  destruct (Hl _ eq_refl) as [H1 H2]. unfold install.
  rewrite !bool_decide_eq_false_2 by done. cbn.
  split; [done|]. split; [done|]. by intros ??? [= <-] _ _.
Qed.

(** X29.  Installing Python packages succeeds exactly when uv completes
    with code 0, or uv is missing or completes with another code and pip,
    run in the world uv left, completes with code 0; any other exception
    of uv is not followed by pip.  The message names the installer. *)
Theorem install_python_succeeds_iff packages w :
  let r := install_python' packages w in
  (deps_success r.1 = true
   ↔ (∃ out err w1,
        subprocess_argv (uv_command packages) (repo_root deps_tool) 300 w
        = (Completed 0 out err, w1))
     ∨ (∃ w1,
          ((∃ e, subprocess_argv (uv_command packages) (repo_root deps_tool)
                                 300 w = (FileNotFound e, w1))
           ∨ (∃ rc out err,
                rc ≠ 0%Z
                ∧ subprocess_argv (uv_command packages) (repo_root deps_tool)
                                  300 w = (Completed rc out err, w1)))
          ∧ ∃ out err w2,
              subprocess_argv (pip_command sys_executable packages)
                              (repo_root deps_tool) 300 w1
              = (Completed 0 out err, w2)))
  ∧ (deps_success r.1 = true →
     ∃ tool, tool ∈ [py "uv"; py "pip"]
             ∧ deps_message r.1
               = py "Installed Python packages with " ++ tool ++ py ": "
                   ++ join (py ", ") packages).
Proof.
  intros r. subst r. unfold install_python, install_pip.
  fold (uv_command packages). fold (pip_command sys_executable packages).
  destruct (subprocess_argv (uv_command packages) _ 300 w)
    as [[rc out err|e|e] w1] eqn:Huv.
  - destruct (rc =? 0)%Z eqn:Hrc.
    + apply Z.eqb_eq in Hrc. subst rc. cbn [fst deps_success deps_message].
      split; [|intros _; exists (py "uv"); split; [apply elem_of_cons; by left|done]].
      split; [|done]. intros _. left. by eexists _, _, _.
    + apply Z.eqb_neq in Hrc.
      destruct (subprocess_argv (pip_command _ _) _ 300 w1)
        as [[rc2 out2 err2|e2|e2] w2] eqn:Hpip; cbn [fst deps_success deps_message error].
      * destruct (rc2 =? 0)%Z eqn:Hrc2.
        -- apply Z.eqb_eq in Hrc2. subst rc2.
           split; [|intros _; exists (py "pip"); split; [apply elem_of_cons; right; apply elem_of_cons; by left|done]].
           split; [|done]. intros _. right. exists w1.
           split; [right; by eexists _, _, _|]. by eexists _, _, _.
        -- apply Z.eqb_neq in Hrc2. split; [|done]. split; [done|].
           intros [(? & ? & ? & [= ? _ _ _])|(w1' & Hc & o & e & w2' & Hp)];
             [done|].
           assert (w1' = w1) by (destruct Hc as [(? & [=])|(? & ? & ? & _ & [=])]; done).
           subst w1'. rewrite Hpip in Hp. by injection Hp.
      * split; [|done]. split; [done|].
        intros [(? & ? & ? & [= ? _ _ _])|(w1' & Hc & o & e' & w2' & Hp)];
          [done|].
        assert (w1' = w1) by (destruct Hc as [(? & [=])|(? & ? & ? & _ & [=])]; done).
        subst w1'. rewrite Hpip in Hp. done.
      * split; [|done]. split; [done|].
        intros [(? & ? & ? & [= ? _ _ _])|(w1' & Hc & o & e' & w2' & Hp)];
          [done|].
        assert (w1' = w1) by (destruct Hc as [(? & [=])|(? & ? & ? & _ & [=])]; done).
        subst w1'. rewrite Hpip in Hp. done.
  - destruct (subprocess_argv (pip_command _ _) _ 300 w1)
      as [[rc2 out2 err2|e2|e2] w2] eqn:Hpip; cbn [fst deps_success deps_message error].
    + destruct (rc2 =? 0)%Z eqn:Hrc2.
      * apply Z.eqb_eq in Hrc2. subst rc2.
        split; [|intros _; exists (py "pip"); split; [apply elem_of_cons; right; apply elem_of_cons; by left|done]].
        split; [|done]. intros _. right. exists w1.
        split; [left; by eexists|]. by eexists _, _, _.
      * apply Z.eqb_neq in Hrc2. split; [|done]. split; [done|].
        intros [(? & ? & ? & [=])|(w1' & Hc & o & e' & w2' & Hp)].
        assert (w1' = w1) by (destruct Hc as [(? & [=])|(? & ? & ? & _ & [=])]; done).
        subst w1'. rewrite Hpip in Hp. by injection Hp.
    + split; [|done]. split; [done|].
      intros [(? & ? & ? & [=])|(w1' & Hc & o & e' & w2' & Hp)].
      assert (w1' = w1) by (destruct Hc as [(? & [=])|(? & ? & ? & _ & [=])]; done).
      subst w1'. rewrite Hpip in Hp. done.
    + split; [|done]. split; [done|].
      intros [(? & ? & ? & [=])|(w1' & Hc & o & e' & w2' & Hp)].
      assert (w1' = w1) by (destruct Hc as [(? & [=])|(? & ? & ? & _ & [=])]; done).
      subst w1'. rewrite Hpip in Hp. done.
  - cbn [fst deps_success error]. split; [|done]. split; [done|].
    intros [(? & ? & ? & [=])|(w1' & [(? & [=])|(? & ? & ? & _ & [=])] & _)].
Qed.

End Dependencies.

(** ** Retrieval *)

Section Retrieval.
Import Retriever.

Variable X : Type.
Variable extract_filenames : str -> list str.
Variable extract_entities : str -> list str.
Variable search_code : str -> (Fs.filesystem * X) -> list snippet.
Variable get_all_source_files : (Fs.filesystem * X) -> list snippet.
Variable self : Retriever.

#[local] Abbreviation retrieve' :=
  (retrieve X extract_filenames extract_entities search_code
            get_all_source_files self).

Lemma get_file_context_path fs filepath :
  (get_file_context self fs filepath).1 = filepath.
Proof.
  unfold get_file_context. destruct (locate _ _ _); [|done].
  by destruct (Fs.read_text _ _).
Qed.

Lemma tidy_snoc acc (s : snippet) :
  tidy acc → s.1 ∉ acc.2 → tidy (acc.1 ++ [s], acc.2 ++ [s.1]).
Proof.
  intros [H1 H2] Hn. split; cbn [fst snd].
  - by rewrite fmap_app, H1.
  - apply NoDup_app. split; [done|]. split; [|apply NoDup_singleton].
    intros x Hx ->%list_elem_of_singleton. done.
Qed.

Lemma add_unseen_tidy found acc :
  tidy acc → tidy (add_unseen found acc) ∧ acc.1 `prefix_of` (add_unseen found acc).1.
Proof.
  unfold add_unseen. revert acc. induction found as [|s found IH]; intros acc Ht;
    [done|].
  cbn [fold_left]. case_bool_decide as Hs.
  - by apply IH.
  - destruct (IH (acc.1 ++ [s], acc.2 ++ [s.1])) as [I1 I2];
      [by apply tidy_snoc|].
    split; [done|]. etrans; [|exact I2]. by apply prefix_app_r.
Qed.

Lemma add_unseen_fresh found acc :
  NoDup found.*1 → (∀ p, p ∈ found.*1 → p ∉ acc.2) →
  add_unseen found acc = (acc.1 ++ found, acc.2 ++ found.*1).
Proof.
  unfold add_unseen. revert acc. induction found as [|s found IH]; intros acc Hn Hf.
  { cbn. rewrite !app_nil_r. by destruct acc. }
  cbn [fold_left]. rewrite fmap_cons in Hn, Hf. apply NoDup_cons in Hn as [Hs Hn].
  rewrite bool_decide_eq_false_2 by (apply Hf; left).
  rewrite IH; cbn [fst snd]; [by rewrite <- !app_assoc|done|].
  intros p Hp [Hin|Hin]%elem_of_app.
  - by apply (Hf p); [right|].
  - apply list_elem_of_singleton in Hin. by subst p.
Qed.

Lemma add_mentioned_tidy fs mentioned acc :
  tidy acc → tidy (add_mentioned self fs mentioned acc)
            ∧ acc.1 `prefix_of` (add_mentioned self fs mentioned acc).1.
Proof.
  unfold add_mentioned. revert acc.
  induction mentioned as [|p mentioned IH]; intros acc Ht; [done|].
  cbn [fold_left]. case_bool_decide as Hs; [by apply IH|].
  destruct (get_file_context self fs p).2 eqn:Hc; [by apply IH|].
  destruct (IH (acc.1 ++ [get_file_context self fs p], acc.2 ++ [p]))
    as [I1 I2].
  { rewrite <- (get_file_context_path fs p) at 2. apply tidy_snoc; [done|].
    by rewrite get_file_context_path. }
  split; [done|]. etrans; [|exact I2]. by apply prefix_app_r.
Qed.

Lemma add_while_room_tidy found acc :
  tidy acc → tidy (add_while_room self found acc)
            ∧ acc.1 `prefix_of` (add_while_room self found acc).1.
Proof.
  unfold add_while_room. revert acc.
  induction found as [|s found IH]; intros acc Ht; [done|].
  cbn [fold_left]. case_bool_decide as Hs; cbn [negb andb]; [by apply IH|].
  destruct (_ <? _)%Z; [|by apply IH].
  destruct (IH (acc.1 ++ [s], acc.2 ++ [s.1])) as [I1 I2];
    [by apply tidy_snoc|].
  split; [done|]. etrans; [|exact I2]. by apply prefix_app_r.
Qed.

Lemma search_all_tidy w entities acc :
  tidy acc →
  tidy (fold_left (λ acc entity, add_unseen (search_code entity w) acc)
                  entities acc)
  ∧ acc.1 `prefix_of`
      (fold_left (λ acc entity, add_unseen (search_code entity w) acc)
                 entities acc).1.
Proof.
  revert acc. induction entities as [|e entities IH]; intros acc Ht; [done|].
  cbn [fold_left]. destruct (add_unseen_tidy (search_code e w) acc Ht) as [A1 A2].
  destruct (IH _ A1) as [I1 I2]. split; [done|]. by etrans.
Qed.

Lemma manifest_paths fs :
  (get_manifest_files self fs).*1 `sublist_of` important_files.
Proof.
  unfold get_manifest_files.
  induction important_files as [|f l IH]; [done|].
  cbn [omap list_omap]. destruct (locate _ _ _) as [p|]; [|by constructor].
  destruct (Fs.read_text _ _) as [|c]; [by constructor|].
  destruct (_ <=? _)%Z; [|by constructor].
  rewrite fmap_cons. by constructor.
Qed.

Lemma py_take_sublist {A} k (l : list A) : Agent.py_take k l `sublist_of` l.
Proof. unfold Agent.py_take. destruct (_ <=? _)%Z; apply sublist_take. Qed.

(** X30.  [retrieve] returns no path twice; with a cap that is not
    negative it returns at most [max_files] snippets, and the manifest
    files come first. *)
Theorem retrieve_is_distinct_and_capped query w :
  NoDup (retrieve' query w).*1
  ∧ ((0 <= max_files self)%Z →
     (Z.of_nat (length (retrieve' query w)) <= max_files self)%Z
     ∧ take (Z.to_nat (max_files self)) (get_manifest_files self w.1)
         `prefix_of` retrieve' query w).
Proof.
  unfold retrieve.
  assert (Hm : NoDup (get_manifest_files self w.1).*1).
  { eapply sublist_NoDup; [|apply manifest_paths].
    apply (bool_decide_unpack _). vm_compute. exact I. }
  set (acc1 := add_unseen (get_manifest_files self w.1) ([], [])).
  assert (E1 : acc1 = (get_manifest_files self w.1,
                       (get_manifest_files self w.1).*1)).
  { subst acc1. rewrite add_unseen_fresh; [done|done|].
    intros p _ Hp. by apply elem_of_nil in Hp. }
  assert (T1 : tidy acc1) by (by rewrite E1).
  set (acc2 := add_mentioned self w.1 (extract_filenames query) acc1).
  destruct (add_mentioned_tidy w.1 (extract_filenames query) acc1 T1) as [T2 P2].
  fold acc2 in T2, P2.
  set (acc4 := fold_left _ (extract_entities query) acc2).
  destruct (search_all_tidy w (extract_entities query) acc2 T2) as [T4 P4].
  fold acc4 in T4, P4.
  set (acc5 := if (_ <? _)%Z then _ else acc4).
  assert (T5 : tidy acc5 ∧ acc4.1 `prefix_of` acc5.1).
  { subst acc5. destruct (_ <? _)%Z; [by apply add_while_room_tidy|done]. }
  destruct T5 as [[T5 N5] P5].
  split.
  - eapply sublist_NoDup; [|apply fmap_sublist, py_take_sublist].
    by rewrite <- T5.
  - intros Hk. split.
    + pose proof (py_take_length (max_files self) acc5.1 Hk). lia.
    + assert (Hp : get_manifest_files self w.1 `prefix_of` acc5.1).
      { etrans; [|exact P5]. etrans; [|exact P4]. etrans; [|exact P2].
        by rewrite E1. }
      destruct Hp as [more Hp]. rewrite Hp. unfold Agent.py_take.
      rewrite (proj2 (Z.leb_le 0 _)) by done. rewrite take_app.
      by apply prefix_app_r.
Qed.

(** [get_file_context] returns the path it was given, and a content of at
    most [max_bytes] characters and the 16 of the truncation mark; a
    content that is not empty is that of a regular file the path leads to,
    inside the repository or not. *)
Theorem get_file_context_bounds_characters fs filepath :
  (0 <= max_bytes self)%Z →
  let s := get_file_context self fs filepath in
  s.1 = filepath
  ∧ (Z.of_nat (length s.2) <= max_bytes self + 16)%Z
  ∧ (s.2 ≠ [] →
     ∃ p d, locate fs (repo_root self) filepath = Some p
            ∧ Fs.node_at fs p = Some (Fs.File d)
            ∧ s.2 = truncate self (universal_newlines d)).
Proof.
  intros Hk s. subst s. split; [apply get_file_context_path|].
  unfold get_file_context.
  destruct (locate _ _ _) as [p|] eqn:Hl; cbn [snd length]; [|split; [lia|done]].
  unfold Fs.read_text.
  destruct (Fs.node_at fs p) as [[d|]|] eqn:Hn; cbn [snd length];
    try (split; [lia|done]).
  split; [|intros _; by eexists _, _].
  unfold truncate. destruct (_ <? _)%Z eqn:E.
  - rewrite !length_app. pose proof (py_take_length (max_bytes self)
                                       (universal_newlines d) Hk).
    change (length [LF]) with 1. change (length (py "... (truncated)")) with 15.
    lia.
  - apply Z.ltb_ge in E.
    assert (Hu : ∀ t, (Z.of_nat (length t) <= utf8_len t)%Z).
    { induction t as [|c t IH]; [done|].
      change (utf8_len (c :: t)) with (utf8_width c + utf8_len t)%Z.
      assert (1 <= utf8_width c)%Z
        by (unfold utf8_width; repeat destruct (_ <? _)%N; lia).
      cbn [length]. lia. }
    specialize (Hu (universal_newlines d)). lia.
Qed.

End Retrieval.

(** ** The further properties at concrete inputs *)

Lemma demo_fs_well_formed : well_formed demo_fs.
Proof.
  intros k [n Hk]. unfold demo_fs in Hk.
  apply lookup_singleton_Some in Hk as [<- _]. reflexivity.
Qed.

Lemma fs_with_well_formed data : well_formed (fs_with data).
Proof.
  intros k [n Hk]. unfold fs_with in Hk.
  apply lookup_insert_Some in Hk as [[<- _]|[_ Hk]]; [reflexivity|].
  unfold demo_fs in Hk. apply lookup_singleton_Some in Hk as [<- _]. reflexivity.
Qed.

Lemma write_keeps_other_entries_witness :
  Fs.validate_path demo_tool (py "sub/b.txt")
    = inr [py "repo"; py "sub"; py "b.txt"]
  ∧ ∀ q, q ≠ [py "repo"; py "sub"; py "b.txt"] →
      (Fs.write demo_diff demo_tool (fs_with (py "hello")) (py "sub/b.txt")
                (py "bye")).2 !! q = fs_with (py "hello") !! q
      ∨ (fs_with (py "hello") !! q = None
         ∧ (Fs.write demo_diff demo_tool (fs_with (py "hello")) (py "sub/b.txt")
                     (py "bye")).2 !! q = Some Fs.Dir
         ∧ q `prefix_of` Fs.parent [py "repo"; py "sub"; py "b.txt"]).
Proof.
  assert (H : Fs.validate_path demo_tool (py "sub/b.txt")
              = inr [py "repo"; py "sub"; py "b.txt"])
    by (vm_compute; reflexivity).
  split; [exact H|].
  exact (write_keeps_other_entries demo_diff demo_tool (fs_with (py "hello"))
           (py "sub/b.txt") (py "bye") [py "repo"; py "sub"; py "b.txt"] H).
Defined.

Lemma operations_keep_well_formed_witness :
  well_formed (fs_with (py "hello"))
  ∧ well_formed (Fs.write demo_diff demo_tool (fs_with (py "hello"))
                          (py "sub/b.txt") (py "bye")).2
  ∧ well_formed (Fs.edit demo_diff demo_tool (fs_with (py "hello"))
                         (py "sub/b.txt") (py "hello") (py "goodbye")).2
  ∧ well_formed (Fs.insert_lines demo_diff demo_tool (fs_with (py "hello"))
                                 (py "sub/b.txt") 1 (py "bye") (py "after")).2.
Proof.
  split; [exact (fs_with_well_formed (py "hello"))|].
  exact (operations_keep_well_formed demo_diff demo_tool (fs_with (py "hello"))
           (py "sub/b.txt") (py "bye") (py "hello") (py "goodbye") 1 (py "after")
           (fs_with_well_formed (py "hello"))).
Defined.

Lemma failed_write_changes_nothing_witness :
  well_formed (fs_with (py "hello"))
  ∧ Fs.success (Fs.write demo_diff demo_tool (fs_with (py "hello"))
                         (py "a.txt/sub/b.txt") (py "bye")).1 = false
  ∧ (Fs.write demo_diff demo_tool (fs_with (py "hello"))
              (py "a.txt/sub/b.txt") (py "bye")).2 = fs_with (py "hello").
Proof.
  assert (H : Fs.success (Fs.write demo_diff demo_tool (fs_with (py "hello"))
                            (py "a.txt/sub/b.txt") (py "bye")).1 = false)
    by (vm_compute; reflexivity).
  split; [exact (fs_with_well_formed (py "hello"))|]. split; [exact H|].
  exact (failed_write_changes_nothing demo_diff demo_tool (fs_with (py "hello"))
           (py "a.txt/sub/b.txt") (py "bye") (fs_with_well_formed (py "hello")) H).
Defined.

Lemma delete_moves_file_to_trash_witness :
  well_formed (fs_with (py "hello"))
  ∧ Fs.validate_path demo_tool (py "a.txt") = inr [py "repo"; py "a.txt"]
  ∧ Fs.node_at (fs_with (py "hello")) [py "repo"; py "a.txt"]
    = Some (Fs.File (py "hello"))
  ∧ Fs.is_dir (fs_with (py "hello")) (Fs.repo_root demo_tool) = true
  ∧ Fs.is_file (fs_with (py "hello")) (Fs.trash_dir demo_tool) = false
  ∧ fs_with (py "hello")
      !! (Fs.trash_dir demo_tool
            ++ [str_of_Z 1700000000 ++ py "_" ++ Fs.name [py "repo"; py "a.txt"]])
    = None
  ∧ (let r := Fs.delete demo_tool 1700000000 (fs_with (py "hello")) (py "a.txt") in
     Fs.success r.1 = true
     ∧ r.2 !! [py "repo"; py "a.txt"] = None
     ∧ r.2 !! (Fs.trash_dir demo_tool
                 ++ [str_of_Z 1700000000 ++ py "_"
                       ++ Fs.name [py "repo"; py "a.txt"]])
       = Some (Fs.File (py "hello"))
     ∧ ∀ q n, q ≠ [py "repo"; py "a.txt"] →
              fs_with (py "hello") !! q = Some n → r.2 !! q = Some n).
Proof.
  assert (H1 : Fs.validate_path demo_tool (py "a.txt") = inr [py "repo"; py "a.txt"])
    by (vm_compute; reflexivity).
  assert (H2 : Fs.node_at (fs_with (py "hello")) [py "repo"; py "a.txt"]
               = Some (Fs.File (py "hello"))) by (vm_compute; reflexivity).
  assert (H3 : Fs.is_dir (fs_with (py "hello")) (Fs.repo_root demo_tool) = true)
    by (vm_compute; reflexivity).
  assert (H4 : Fs.is_file (fs_with (py "hello")) (Fs.trash_dir demo_tool) = false)
    by (vm_compute; reflexivity).
  assert (H5 : fs_with (py "hello")
                 !! (Fs.trash_dir demo_tool
                       ++ [str_of_Z 1700000000 ++ py "_"
                             ++ Fs.name [py "repo"; py "a.txt"]]) = None)
    by (vm_compute; reflexivity).
  do 5 (split; [assumption || exact (fs_with_well_formed (py "hello"))|]).
  split; [exact H5|].
  exact (delete_moves_file_to_trash demo_tool (fs_with (py "hello")) 1700000000
           (py "a.txt") [py "repo"; py "a.txt"] (py "hello")
           (fs_with_well_formed (py "hello")) H1 H2 H3 H4 H5).
Defined.

Lemma failed_delete_adds_at_most_the_trash_directory_witness :
  Fs.success (Fs.delete demo_tool 1700000000 (fs_with (py "hello")) (py ".")).1
    = false
  ∧ ((Fs.delete demo_tool 1700000000 (fs_with (py "hello")) (py ".")).2
       = fs_with (py "hello")
     ∨ (fs_with (py "hello") !! Fs.trash_dir demo_tool = None
        ∧ (Fs.delete demo_tool 1700000000 (fs_with (py "hello")) (py ".")).2
          = <[Fs.trash_dir demo_tool := Fs.Dir]> (fs_with (py "hello")))).
Proof.
  assert (H : Fs.success (Fs.delete demo_tool 1700000000 (fs_with (py "hello"))
                            (py ".")).1 = false) by (vm_compute; reflexivity).
  split; [exact H|].
  exact (failed_delete_adds_at_most_the_trash_directory demo_tool
           (fs_with (py "hello")) 1700000000 (py ".") H).
Defined.

(** A delete that fails after the trash directory was made: the
    repository root cannot be moved into its own trash. *)
Example failed_delete_leaves_the_trash_directory :
  (Fs.delete demo_tool 1700000000 (fs_with (py "hello")) (py ".")).2
  = <[Fs.trash_dir demo_tool := Fs.Dir]> (fs_with (py "hello")).
Proof. vm_compute. reflexivity. Qed.

Lemma insert_lines_one_past_the_end_witness :
  Fs.validate_path demo_tool (py "a.txt") = inr [py "repo"; py "a.txt"]
  ∧ Fs.node_at (fs_with (py "hello")) [py "repo"; py "a.txt"]
    = Some (Fs.File (py "hello"))
  ∧ (let lines :=
       Fs.terminate_last (splitlines (universal_newlines (py "hello"))) in
     let n := (Z.of_nat (length lines) + 1)%Z in
     let appended :=
       <[[py "repo"; py "a.txt"]
           := Fs.File (concat lines ++ Fs.terminate_content (py "bye"))]>
         (fs_with (py "hello")) in
     (Fs.insert_lines demo_diff demo_tool (fs_with (py "hello")) (py "a.txt") n
                      (py "bye") (py "after")).2 = appended
     ∧ (Fs.insert_lines demo_diff demo_tool (fs_with (py "hello")) (py "a.txt") n
                        (py "bye") (py "before")).2 = appended
     ∧ Fs.insert_lines demo_diff demo_tool (fs_with (py "hello")) (py "a.txt") n
                       (py "bye") (py "replace")
       = (Fs.failed (py "Error inserting in " ++ py "a.txt"
                       ++ py ": list assignment index out of range") None,
          fs_with (py "hello"))).
Proof.
  assert (H1 : Fs.validate_path demo_tool (py "a.txt") = inr [py "repo"; py "a.txt"])
    by (vm_compute; reflexivity).
  assert (H2 : Fs.node_at (fs_with (py "hello")) [py "repo"; py "a.txt"]
               = Some (Fs.File (py "hello"))) by (vm_compute; reflexivity).
  split; [exact H1|]. split; [exact H2|].
  exact (insert_lines_one_past_the_end demo_diff demo_tool (fs_with (py "hello"))
           (py "a.txt") (py "bye") [py "repo"; py "a.txt"] (py "hello") H1 H2).
Defined.

Lemma list_directory_only_counts_witness :
  Fs.validate_path demo_tool (py ".") = inr [py "repo"]
  ∧ Fs.is_dir (fs_with (py "hello")) [py "repo"] = true
  ∧ Fs.list_directory demo_tool (fs_with (py "hello")) (py ".")
    = {| Fs.success := true;
         Fs.message := py "Found "
                         ++ str_of_nat (length (Fs.iterdir (fs_with (py "hello"))
                                                           [py "repo"]))
                         ++ py " items";
         Fs.diff := None; Fs.path := Some (Fs.render [py "repo"]);
         Fs.data := None |}.
Proof.
  assert (H1 : Fs.validate_path demo_tool (py ".") = inr [py "repo"])
    by (vm_compute; reflexivity).
  assert (H2 : Fs.is_dir (fs_with (py "hello")) [py "repo"] = true)
    by (vm_compute; reflexivity).
  split; [exact H1|]. split; [exact H2|].
  exact (list_directory_only_counts demo_tool (fs_with (py "hello")) (py ".")
           [py "repo"] H1 H2).
Defined.

Lemma dangerous_command_never_runs_witness :
  (∃ pattern reason, (pattern, reason) ∈ Shell.dangerous_patterns
                     ∧ sudo_search pattern (py "git push; sudo reboot") = true)
  ∧ ∃ msg, Shell.run unit sudo_search echo_timeout demo_shell
                     (py "git push; sudo reboot") None tt
           = (Shell.rejected (py "git push; sudo reboot")
                             (py "Command rejected: " ++ msg), tt)
           ∧ msg ≠ [].
Proof.
  assert (H : ∃ pattern reason, (pattern, reason) ∈ Shell.dangerous_patterns
                ∧ sudo_search pattern (py "git push; sudo reboot") = true).
  { exists (py "\bsudo\b"), (py "Sudo not allowed"). split.
    - unfold Shell.dangerous_patterns. do 3 apply list_elem_of_further.
      apply list_elem_of_here.
    - vm_compute. reflexivity. }
  split; [exact H|].
  exact (dangerous_command_never_runs unit sudo_search echo_timeout demo_shell
           (py "git push; sudo reboot") None tt H).
Defined.

Lemma approved_plan_approves_each_step_witness :
  let self := Approvals.init (3 # 10) 3 None in
  let d := {| Approvals.approved := true; Approvals.risk_score := 1 # 10;
              Approvals.reason := py "Low risk, auto-approved";
              Approvals.requires_confirmation := false |} in
  Approvals.assess_plan literal_search self (plan_of [edit_action; write_action])
  = Some d
  ∧ Approvals.approved d = true
  ∧ write_action ∈ Schemas.steps (plan_of [edit_action; write_action])
  ∧ ∃ d', Approvals.assess_action literal_search self write_action = Some d'
          ∧ Approvals.approved d' = true
          ∧ (Approvals.risk_score d' <= Approvals.risk_score d)%Q.
Proof.
  cbv zeta.
  assert (H1 : Approvals.assess_plan literal_search
                 (Approvals.init (3 # 10) 3 None)
                 (plan_of [edit_action; write_action])
               = Some {| Approvals.approved := true;
                         Approvals.risk_score := 1 # 10;
                         Approvals.reason := py "Low risk, auto-approved";
                         Approvals.requires_confirmation := false |})
    by (vm_compute; reflexivity).
  assert (H2 : write_action ∈ Schemas.steps (plan_of [edit_action; write_action]))
    by (apply list_elem_of_further, list_elem_of_here).
  split; [exact H1|]. split; [reflexivity|]. split; [exact H2|].
  exact (approved_plan_approves_each_step literal_search
           (Approvals.init (3 # 10) 3 None)
           (plan_of [edit_action; write_action]) write_action _
           H1 eq_refl H2).
Defined.

Lemma approved_plan_approves_sub_plans_witness :
  let self := Approvals.init (3 # 10) 3 None in
  let d' := {| Approvals.approved := true; Approvals.risk_score := 1 # 10;
               Approvals.reason := py "Low risk, auto-approved";
               Approvals.requires_confirmation := false |} in
  Schemas.steps (plan_of [write_action]) ≠ []
  ∧ Schemas.steps (plan_of [write_action])
      ⊆+ Schemas.steps (plan_of [edit_action; write_action])
  ∧ Approvals.assess_plan literal_search self
      (plan_of [edit_action; write_action]) = Some d'
  ∧ Approvals.approved d' = true
  ∧ ∃ d, Approvals.assess_plan literal_search self (plan_of [write_action])
         = Some d
         ∧ Approvals.approved d = true.
Proof.
  cbv zeta.
  assert (H1 : Schemas.steps (plan_of [write_action]) ≠ []) by discriminate.
  assert (H2 : Schemas.steps (plan_of [write_action])
                 ⊆+ Schemas.steps (plan_of [edit_action; write_action]))
    by (apply submseteq_cons; reflexivity).
  assert (H3 : Approvals.assess_plan literal_search
                 (Approvals.init (3 # 10) 3 None)
                 (plan_of [edit_action; write_action])
               = Some {| Approvals.approved := true;
                         Approvals.risk_score := 1 # 10;
                         Approvals.reason := py "Low risk, auto-approved";
                         Approvals.requires_confirmation := false |})
    by (vm_compute; reflexivity).
  split; [exact H1|]. split; [exact H2|]. split; [exact H3|].
  split; [reflexivity|].
  exact (approved_plan_approves_sub_plans literal_search
           (Approvals.init (3 # 10) 3 None) (plan_of [write_action])
           (plan_of [edit_action; write_action]) _ H1 H2 H3 eq_refl).
Defined.

Lemma fs_action_outside_jail_changes_nothing_witness :
  fs_action (Schemas.type escaping_write) = true
  ∧ (∀ p, Schemas.path (Schemas.args escaping_write) = Some p →
          p = [] ∨ jail_violation (Executor.fs_tool demo_executor) p)
  ∧ Executor.success (demo_execute escaping_write (fs_with (py "hello"), tt)).1
    = false
  ∧ Executor.diff (demo_execute escaping_write (fs_with (py "hello"), tt)).1 = []
  ∧ (demo_execute escaping_write (fs_with (py "hello"), tt)).2
    = (fs_with (py "hello"), tt).
Proof.
  assert (H1 : fs_action (Schemas.type escaping_write) = true) by reflexivity.
  assert (H2 : ∀ p, Schemas.path (Schemas.args escaping_write) = Some p →
                    p = [] ∨ jail_violation (Executor.fs_tool demo_executor) p).
  { intros p [= <-]. right. right. vm_compute. reflexivity. }
  split; [exact H1|]. split; [exact H2|].
  exact (fs_action_outside_jail_changes_nothing unit demo_diff literal_search
           (fun _ _ _ w => (Shell.Completed 0 [] [], w))
           (fun _ _ w => ({| Executor.deps_success := false;
                             Executor.deps_message := py "offline";
                             Executor.deps_stdout := [];
                             Executor.deps_stderr := [] |}, w))
           (fun _ _ w => ({| Executor.git_success := false;
                             Executor.git_message := py "no repository" |}, w))
           (fun _ => 1700000000%Z)
           demo_executor escaping_write (fs_with (py "hello"), tt) H1 H2).
Defined.

Lemma shell_action_rejected_changes_nothing_witness :
  Schemas.type (shell_action "rm -rf build") = Schemas.SHELL_RUN
  ∧ (∀ c, Schemas.get (Schemas.command (Schemas.args (shell_action "rm -rf build")))
          = Some c →
          c = []
          ∨ Shell.base_command c ∉ Shell.allowlist (Executor.shell_tool demo_executor)
          ∨ ∃ pattern reason, (pattern, reason) ∈ Shell.dangerous_patterns
                              ∧ literal_search pattern c = true)
  ∧ Executor.success
      (demo_execute (shell_action "rm -rf build") (fs_with (py "hello"), tt)).1
    = false
  ∧ (demo_execute (shell_action "rm -rf build") (fs_with (py "hello"), tt)).2
    = (fs_with (py "hello"), tt).
Proof.
  assert (H1 : Schemas.type (shell_action "rm -rf build") = Schemas.SHELL_RUN)
    by reflexivity.
  assert (H2 : ∀ c, Schemas.get (Schemas.command
                                   (Schemas.args (shell_action "rm -rf build")))
                    = Some c →
                c = []
                ∨ Shell.base_command c
                    ∉ Shell.allowlist (Executor.shell_tool demo_executor)
                ∨ ∃ pattern reason, (pattern, reason) ∈ Shell.dangerous_patterns
                                    ∧ literal_search pattern c = true).
  { intros c [= <-]. right. left.
    apply (bool_decide_unpack _). vm_compute. exact I. }
  split; [exact H1|]. split; [exact H2|].
  exact (shell_action_rejected_changes_nothing unit demo_diff literal_search
           (fun _ _ _ w => (Shell.Completed 0 [] [], w))
           (fun _ _ w => ({| Executor.deps_success := false;
                             Executor.deps_message := py "offline";
                             Executor.deps_stdout := [];
                             Executor.deps_stderr := [] |}, w))
           (fun _ _ w => ({| Executor.git_success := false;
                             Executor.git_message := py "no repository" |}, w))
           (fun _ => 1700000000%Z)
           demo_executor (shell_action "rm -rf build") (fs_with (py "hello"), tt)
           H1 H2).
Defined.

Lemma agent_loop_failure_is_a_failed_step_witness :
  let final :=
    Agent.agent_loop demo_world demo_execute demo_fs_read demo_plan
      demo_reflect_again demo_retrieve demo_verify demo_now
      demo_state (py "say goodbye") 1 3 (demo_fs, tt) in
  Agent.success (Agent.res final) = false
  ∧ last_step_failed (Agent.res final).
Proof.
  intros final.
  assert (H : Agent.success (Agent.res final) = false)
    by (vm_compute; reflexivity).
  split; [exact H|].
  exact (agent_loop_failure_is_a_failed_step demo_world demo_execute
           demo_fs_read demo_plan demo_reflect_again demo_retrieve demo_verify
           demo_now demo_state (py "say goodbye") 1 3 (demo_fs, tt) H).
Defined.

Lemma agent_loop_step_budget_witness :
  (0 <= 3)%Z
  ∧ (let final :=
       Agent.agent_loop demo_world demo_execute demo_fs_read demo_plan
         demo_reflect demo_retrieve demo_verify demo_now
         demo_state (py "say goodbye") 2 3 (demo_fs, tt) in
     (Z.of_nat (Agent.steps_executed (Agent.res final))
      <= Z.of_nat (Agent.iterations (Agent.res final)) * 3)%Z
     ∧ (Z.of_nat (Agent.iterations (Agent.res final)) <= Z.max 0 2)%Z).
Proof.
  assert (H : (0 <= 3)%Z) by lia.
  split; [exact H|].
  exact (agent_loop_step_budget demo_world demo_execute demo_fs_read demo_plan
           demo_reflect demo_retrieve demo_verify demo_now
           demo_state (py "say goodbye") 2 3 (demo_fs, tt) H).
Defined.

Lemma agent_loop_nothing_to_do_witness :
  demo_retrieve (py "say goodbye") (demo_fs, tt) = ([], (demo_fs, tt))
  ∧ demo_plan (Agent.messages
                 (Agent.add_message (py "user") (py "say goodbye") demo_state))
              [] (demo_fs, tt)
    = (plan_of [edit_action], (demo_fs, tt))
  ∧ ((0 <= 0)%Z ∨ Agent.py_take 3 (Schemas.steps (plan_of [edit_action])) = [])
  ∧ (let final :=
       Agent.agent_loop demo_world demo_execute demo_fs_read demo_plan
         demo_reflect demo_retrieve demo_verify demo_now
         demo_state (py "say goodbye") 0 3 (demo_fs, tt) in
     Agent.calls final = [] ∧ Agent.world final = (demo_fs, tt)
     ∧ Agent.success (Agent.res final) = true
     ∧ Agent.steps (Agent.res final) = []
     ∧ Agent.iterations (Agent.res final)
       = (if decide (0 <= 0)%Z then 0 else 1)
     ∧ Agent.verification_results (Agent.state final)
       = Agent.verification_results demo_state).
Proof.
  assert (H : (0 <= 0)%Z ∨ Agent.py_take 3 (Schemas.steps (plan_of [edit_action])) = [])
    by (left; lia).
  split; [reflexivity|]. split; [reflexivity|]. split; [exact H|].
  exact (agent_loop_nothing_to_do demo_world demo_execute demo_fs_read demo_plan
           demo_reflect demo_retrieve demo_verify demo_now
           demo_state (py "say goodbye") 0 3 (demo_fs, tt)
           [] (demo_fs, tt) (plan_of [edit_action]) (demo_fs, tt)
           eq_refl eq_refl H).
Defined.

Lemma unretryable_failure_ends_the_run_witness :
  demo_execute edit_action (Agent.world demo_loop)
    = ((demo_execute edit_action (demo_fs, tt)).1, (demo_fs, tt))
  ∧ Executor.success (demo_execute edit_action (demo_fs, tt)).1 = false
  ∧ (Schemas.can_retry
       (Agent.observe edit_action (demo_execute edit_action (demo_fs, tt)).1)
     = false
     ∨ (∀ plan, Agent.current_plan (Agent.state demo_loop) = Some plan →
          (demo_reflect_raises plan
             (Executor.message (demo_execute edit_action (demo_fs, tt)).1)
             (Agent.diffs (Agent.state demo_loop)) (demo_fs, tt)).1 = None))
  ∧ ∃ l',
      Agent.run_actions demo_world demo_execute demo_fs_read demo_reflect_raises
                        demo_now (edit_action :: [write_action]) demo_loop
      = Agent.Return l'
      ∧ Agent.success (Agent.res l') = false
      ∧ Agent.calls l' = Agent.calls demo_loop ++ [edit_action]
      ∧ Agent.steps (Agent.res l')
        = Agent.steps (Agent.res demo_loop)
            ++ [step_of (Agent.steps_executed (Agent.res demo_loop)) edit_action
                        (demo_execute edit_action (demo_fs, tt)).1]
      ∧ Agent.self_corrections (Agent.res l')
        = Agent.self_corrections (Agent.res demo_loop)
      ∧ (Schemas.can_retry
           (Agent.observe edit_action (demo_execute edit_action (demo_fs, tt)).1)
         = false → Agent.world l' = (demo_fs, tt)).
Proof.
  assert (H1 : demo_execute edit_action (Agent.world demo_loop)
               = ((demo_execute edit_action (demo_fs, tt)).1, (demo_fs, tt)))
    by (vm_compute; reflexivity).
  assert (H2 : Executor.success (demo_execute edit_action (demo_fs, tt)).1 = false)
    by (vm_compute; reflexivity).
  assert (H3 : Schemas.can_retry
                 (Agent.observe edit_action
                    (demo_execute edit_action (demo_fs, tt)).1) = false
               ∨ (∀ plan, Agent.current_plan (Agent.state demo_loop) = Some plan →
                    (demo_reflect_raises plan
                       (Executor.message (demo_execute edit_action (demo_fs, tt)).1)
                       (Agent.diffs (Agent.state demo_loop)) (demo_fs, tt)).1
                    = None))
    by (right; reflexivity).
  split; [exact H1|]. split; [exact H2|]. split; [exact H3|].
  exact (unretryable_failure_ends_the_run demo_world demo_execute demo_fs_read
           demo_reflect_raises demo_now edit_action [write_action] demo_loop
           (demo_execute edit_action (demo_fs, tt)).1 (demo_fs, tt) H1 H2 H3).
Defined.

Lemma verify_without_manifest_passes_witness :
  Fs.exists_ (fs_with (py "hello")) ([py "repo"] ++ [py "pyproject.toml"]) = false
  ∧ Fs.exists_ (fs_with (py "hello")) ([py "repo"] ++ [py "setup.py"]) = false
  ∧ Fs.exists_ (fs_with (py "hello")) ([py "repo"] ++ [py "package.json"]) = false
  ∧ Verifier.language
      (Verifier.init (fs_with (py "hello")) [py "repo"] Config.default) = None
  ∧ Verifier.verify unit quiet_subprocess
      (Verifier.init (fs_with (py "hello")) [py "repo"] Config.default) tt
    = (all_checks_passed, tt).
Proof.
  assert (H1 : Fs.exists_ (fs_with (py "hello"))
                 ([py "repo"] ++ [py "pyproject.toml"]) = false)
    by (vm_compute; reflexivity).
  assert (H2 : Fs.exists_ (fs_with (py "hello"))
                 ([py "repo"] ++ [py "setup.py"]) = false)
    by (vm_compute; reflexivity).
  assert (H3 : Fs.exists_ (fs_with (py "hello"))
                 ([py "repo"] ++ [py "package.json"]) = false)
    by (vm_compute; reflexivity).
  split; [exact H1|]. split; [exact H2|]. split; [exact H3|].
  exact (verify_without_manifest_passes unit quiet_subprocess
           (fs_with (py "hello")) [py "repo"] Config.default tt H1 H2 H3).
Defined.

Lemma silent_linter_failures_pass_witness :
  (∀ cmd w, cmd ∈ linters_of python_verifier →
            Verifier.success
              (Verifier.run_command unit quiet_subprocess python_verifier cmd w).1
            = true
            ∨ Verifier.stderr
                (Verifier.run_command unit quiet_subprocess python_verifier cmd w).1
              = [])
  ∧ (∀ w, (Verifier.run_tests unit quiet_subprocess python_verifier w).1.1 = true)
  ∧ Verifier.exit_code
      (Verifier.run_command unit quiet_subprocess python_verifier
                            (py "ruff check") tt).1 = 1%Z
  ∧ (Verifier.verify unit quiet_subprocess python_verifier tt).1
    = all_checks_passed.
Proof.
  assert (H1 : ∀ cmd w, cmd ∈ linters_of python_verifier →
                 Verifier.success
                   (Verifier.run_command unit quiet_subprocess python_verifier
                                         cmd w).1 = true
                 ∨ Verifier.stderr
                     (Verifier.run_command unit quiet_subprocess python_verifier
                                           cmd w).1 = [])
    by (intros cmd w _; right; reflexivity).
  assert (H2 : ∀ w, (Verifier.run_tests unit quiet_subprocess python_verifier w).1.1
                    = true)
    by (intros w; vm_compute; reflexivity).
  split; [exact H1|]. split; [exact H2|]. split; [vm_compute; reflexivity|].
  exact (silent_linter_failures_pass unit quiet_subprocess python_verifier tt
           H1 H2).
Defined.

Lemma deps_install_unknown_language_runs_nothing_witness :
  Schemas.type ruby_install = Schemas.DEPS_INSTALL
  ∧ (∀ l, Schemas.language (Schemas.args ruby_install) = Some l →
          l ≠ py "python" ∧ l ≠ py "node")
  ∧ (let r :=
       Executor.execute unit demo_diff literal_search demo_subprocess
         (Deps.install unit demo_subprocess_argv (py "/usr/bin/python3")
                       {| Deps.repo_root := [py "repo"] |})
         demo_git demo_clock demo_executor ruby_install false (demo_fs, tt) in
     Executor.success r.1 = false ∧ r.2 = (demo_fs, tt)
     ∧ (∀ l p ps, Schemas.language (Schemas.args ruby_install) = Some l →
                  l ≠ [] →
                  Schemas.packages (Schemas.args ruby_install) = Some (p :: ps) →
                  Executor.message r.1 = py "Unknown language: " ++ l)).
Proof.
  assert (H1 : Schemas.type ruby_install = Schemas.DEPS_INSTALL) by reflexivity.
  assert (H2 : ∀ l, Schemas.language (Schemas.args ruby_install) = Some l →
                    l ≠ py "python" ∧ l ≠ py "node")
    by (intros l [= <-]; split; discriminate).
  split; [exact H1|]. split; [exact H2|].
  exact (deps_install_unknown_language_runs_nothing unit demo_diff literal_search
           demo_subprocess demo_subprocess_argv (py "/usr/bin/python3")
           demo_git demo_clock {| Deps.repo_root := [py "repo"] |} demo_executor
           ruby_install (demo_fs, tt) H1 H2).
Defined.

(** ** The further models, run *)

(** The retriever reads a file the path jail refuses. *)
Example get_file_context_leaves_the_repository :
  let fs := <[ [py "secret.txt"] := Fs.File (py "key") ]> demo_fs in
  let retriever := {| Retriever.repo_root := [py "repo"];
                      Retriever.max_files := 16;
                      Retriever.max_bytes := 20000 |} in
  Retriever.get_file_context retriever fs (py "../secret.txt")
    = (py "../secret.txt", py "key")
  ∧ Fs.success (Fs.read demo_tool fs (py "../secret.txt")) = false.
Proof. split; vm_compute; reflexivity. Qed.

(** A content longer than the cap is cut by characters. *)
Example get_file_context_truncates :
  let retriever := {| Retriever.repo_root := [py "repo"];
                      Retriever.max_files := 16; Retriever.max_bytes := 3 |} in
  Retriever.get_file_context retriever (fs_with (py "hello")) (py "a.txt")
    = (py "a.txt", py "hel" ++ [LF] ++ py "... (truncated)").
Proof. vm_compute. reflexivity. Qed.

(** A failing first step ends [execute_plan]; the write is not tried. *)
Example execute_plan_stops :
  let r := Core.execute_plan demo_world (fun a (_ : bool) w => demo_execute a w)
             demo_now (plan_of [edit_action; write_action]) false
             {| Core.state := demo_state; Core.world := (demo_fs, tt);
                Core.calls := [] |} in
  Core.success r.1 = false
  ∧ length (Core.steps r.1) = 1
  ∧ Core.calls r.2 = [edit_action]
  ∧ (Core.world r.2).1 !! [py "repo"; py "a.txt"] = None.
Proof. repeat split; vm_compute; reflexivity. Qed.

(** With one retry allowed, a fix that works is never verified: the
    report is a failure although the file is now there. *)
Example reflect_and_fix_does_not_verify_the_last_fix :
  let r := Core.reflect_and_fix demo_world
             (fun a (_ : bool) w => demo_execute a w) demo_verify
             (fun _ _ _ w => (Some {| Schemas.analysis := [];
                                      Schemas.fix_plan := plan_of [write_action] |},
                              w))
             demo_now 1
             {| Core.state := Agent.set_plan (plan_of [edit_action]) demo_state;
                Core.world := (demo_fs, tt); Core.calls := [] |} in
  r.1 = Some {| Core.fix_success := false;
                Core.fix_message := py "Max retries (1) exceeded";
                Core.attempts := Some 1%Z |}
  ∧ Core.calls r.2 = [write_action]
  ∧ (Core.world r.2).1 !! [py "repo"; py "a.txt"] = Some (Fs.File (py "hello")).
Proof. repeat split; vm_compute; reflexivity. Qed.

(** uv is missing and pip installs. *)
Example install_python_falls_back_to_pip :
  Deps.install unit
    (fun cmd _ _ w =>
       (match cmd with
        | c :: _ => if bool_decide (c = py "uv") then Deps.FileNotFound (py "uv")
                    else Deps.Completed 0 (py "ok") []
        | [] => Deps.Raised []
        end, w))
    (py "/usr/bin/python3") {| Deps.repo_root := [py "repo"] |}
    (py "python") [py "requests"; py "rich"] (demo_fs, tt)
  = ({| Executor.deps_success := true;
        Executor.deps_message :=
          py "Installed Python packages with pip: requests, rich";
        Executor.deps_stdout := py "ok"; Executor.deps_stderr := [] |},
     (demo_fs, tt)).
Proof. vm_compute. reflexivity. Qed.

(** The lock file selects the package manager. *)
Example node_command_follows_the_lock_file :
  Deps.node_command {| Deps.repo_root := [py "repo"] |}
    (<[ [py "repo"; py "yarn.lock"] := Fs.File [] ]> demo_fs) [py "left-pad"]
  = [py "yarn"; py "add"; py "left-pad"]
  ∧ Deps.node_command {| Deps.repo_root := [py "repo"] |} demo_fs [py "left-pad"]
    = [py "npm"; py "install"; py "left-pad"].
Proof. split; vm_compute; reflexivity. Qed.

(** A python repository whose linters fail in silence verifies. *)
Example verify_python_repository :
  Verifier.verify unit quiet_subprocess
    (Verifier.init (<[ [py "repo"; py "setup.py"] := Fs.File [] ]> demo_fs)
                   [py "repo"] Config.default) tt
  = (all_checks_passed, tt).
Proof. vm_compute. reflexivity. Qed.

(** A failing test run with no output still fails the verification. *)
Example verify_counts_an_empty_test_output :
  (Verifier.verify unit (fun _ _ _ w => (Shell.Completed 1 [] [], w))
     python_verifier tt).1
  = {| Schemas.status := py "fail"; Schemas.lint_errors := [];
       Schemas.type_errors := []; Schemas.failing_tests := [[]];
       Schemas.summary := py "Found 1 issues" |}.
Proof. vm_compute. reflexivity. Qed.

(** The manifest comes first, a mentioned file next, and a search hit
    for a path already there is dropped. *)
Example retrieve_merges :
  let fs := <[ [py "repo"; py "README.md"] := Fs.File (py "read me") ]>
              (fs_with (py "hello")) in
  Retriever.retrieve unit
    (fun _ => [py "a.txt"; py "missing.py"])
    (fun _ => [py "hello"])
    (fun _ _ => [(py "a.txt", py "hello"); (py "b.txt", py "hello too")])
    (fun _ => [(py "c.py", [])])
    {| Retriever.repo_root := [py "repo"]; Retriever.max_files := 3;
       Retriever.max_bytes := 20000 |}
    (py "fix a.txt and missing.py, say hello") (fs, tt)
  = [(py "README.md", py "read me"); (py "a.txt", py "hello");
     (py "b.txt", py "hello too")].
Proof. vm_compute. reflexivity. Qed.
